(** * QuickBooks Online OAuth proxy: realm correlation and token verification

    A shallow embedding of [personal_qbo_attempt/auth.py]: the callback
    handler that captures [realmId], the code exchange that moves it to a
    durable client binding, the refresh-token rotation and the verifier of
    opaque access tokens, all over one Redis database.

    Layout: Python values and text, the JSON codec, the Redis database, the
    effect monad, the four operations of [auth.py], then the theorems. *)

From Stdlib Require Import String Ascii.
From Stdlib Require Import List NArith ZArith Bool Lia.
From Stdlib Require Decimal DecimalN DecimalFacts.
Import ListNotations.

Set Implicit Arguments.
Set Warnings "-register-all".

(* ===================================================================== *)
(** ** Python text and values *)
(* ===================================================================== *)

(** A Python [str] is a sequence of code points.  Redis hands back the
    UTF-8 bytes of what was written; [value.decode()] restores the text, so
    the byte boundary is the identity on the texts handled here. *)
Definition pystr := list N.

(** Literal text of the source, written as a Rocq string. *)
Definition py (s : string) : pystr :=
  map N_of_ascii (list_ascii_of_string s).

Fixpoint pystr_eqb (a b : pystr) : bool :=
  match a, b with
  | [], [] => true
  | x :: a', y :: b' => N.eqb x y && pystr_eqb a' b'
  | _, _ => false
  end.

(** [s.startswith(p)] *)
Fixpoint startswith (p s : pystr) : bool :=
  match p, s with
  | [], _ => true
  | x :: p', y :: s' => N.eqb x y && startswith p' s'
  | _ :: _, [] => false
  end.

(** The values [json.loads] builds: [None], [bool], [int], [str], [list]
    and [dict] (insertion-ordered, keys are text).  [float] is left out. *)
Inductive PyVal : Type :=
| PNone
| PBool (b : bool)
| PInt (z : Z)
| PStr (s : pystr)
| PList (l : list PyVal)
| PDict (d : list (pystr * PyVal)).

(** Python truth value testing, as used by [if x:] and [x and y]. *)
Definition truthy (v : PyVal) : bool :=
  match v with
  | PNone => false
  | PBool b => b
  | PInt z => negb (Z.eqb z 0)
  | PStr s => match s with [] => false | _ => true end
  | PList l => match l with [] => false | _ => true end
  | PDict d => match d with [] => false | _ => true end
  end.

(** Truth value of a [str | None], e.g. a query parameter. *)
Definition present (o : option pystr) : bool :=
  match o with
  | Some (_ :: _) => true
  | _ => false
  end.

(** [d.get(k)], [None] when the key is missing. *)
Fixpoint dict_get (d : list (pystr * PyVal)) (k : pystr) : option PyVal :=
  match d with
  | [] => None
  | (k', v) :: d' => if pystr_eqb k' k then Some v else dict_get d' k
  end.

(** [d[k] = v]: an existing key keeps its position. *)
Fixpoint dict_set (d : list (pystr * PyVal)) (k : pystr) (v : PyVal)
  : list (pystr * PyVal) :=
  match d with
  | [] => [(k, v)]
  | (k', v') :: d' =>
      if pystr_eqb k' k then (k', v) :: d' else (k', v') :: dict_set d' k v
  end.

(** *** Decimal text of integers *)

Fixpoint digits_of_uint (u : Decimal.uint) : pystr :=
  match u with
  | Decimal.Nil => []
  | Decimal.D0 u => 48%N :: digits_of_uint u
  | Decimal.D1 u => 49%N :: digits_of_uint u
  | Decimal.D2 u => 50%N :: digits_of_uint u
  | Decimal.D3 u => 51%N :: digits_of_uint u
  | Decimal.D4 u => 52%N :: digits_of_uint u
  | Decimal.D5 u => 53%N :: digits_of_uint u
  | Decimal.D6 u => 54%N :: digits_of_uint u
  | Decimal.D7 u => 55%N :: digits_of_uint u
  | Decimal.D8 u => 56%N :: digits_of_uint u
  | Decimal.D9 u => 57%N :: digits_of_uint u
  end.

Definition digit_cons (c : N) (u : Decimal.uint) : Decimal.uint :=
  if N.eqb c 48 then Decimal.D0 u else if N.eqb c 49 then Decimal.D1 u
  else if N.eqb c 50 then Decimal.D2 u else if N.eqb c 51 then Decimal.D3 u
  else if N.eqb c 52 then Decimal.D4 u else if N.eqb c 53 then Decimal.D5 u
  else if N.eqb c 54 then Decimal.D6 u else if N.eqb c 55 then Decimal.D7 u
  else if N.eqb c 56 then Decimal.D8 u else Decimal.D9 u.

Fixpoint uint_of_digits (ds : pystr) : Decimal.uint :=
  match ds with
  | [] => Decimal.Nil
  | c :: ds' => digit_cons c (uint_of_digits ds')
  end.

(** [str(n)] for an [int]. *)
Definition str_of_Z (z : Z) : pystr :=
  match z with
  | Zneg p => 45%N :: digits_of_uint (N.to_uint (Npos p))
  | _ => digits_of_uint (N.to_uint (Z.to_N z))
  end.

(** [int(text)] for a run of ASCII digits with an optional sign. *)
Definition int_of_digits (neg : bool) (ds : pystr) : Z :=
  let n := Z.of_N (N.of_uint (uint_of_digits ds)) in
  if neg then Z.opp n else n.

(** [repr] of the values whose text does not depend on the Unicode
    database: everything but [str] (and so every [dict] with a key).
    [None] where a [str] occurs. *)
Fixpoint py_repr (v : PyVal) : option pystr :=
  match v with
  | PNone => Some (py "None")
  | PBool true => Some (py "True")
  | PBool false => Some (py "False")
  | PInt z => Some (str_of_Z z)
  | PStr _ => None
  | PList l =>
      let fix items (l : list PyVal) : option pystr :=
        match l with
        | [] => Some []
        | v :: l' =>
            match py_repr v, items l' with
            | Some t, Some ts =>
                Some (t ++ match l' with [] => [] | _ => py ", " end ++ ts)
            | _, _ => None
            end
        end in
      match items l with
      | Some t => Some (py "[" ++ t ++ py "]")
      | None => None
      end
  | PDict [] => Some (py "{}")
  | PDict _ => None
  end.

(** [str(v)]: text is returned as it is, everything else prints as
    [repr]. *)
Definition py_str (v : PyVal) : option pystr :=
  match v with
  | PStr s => Some s
  | _ => py_repr v
  end.

(* ===================================================================== *)
(** ** The JSON codec: [json.loads] and [json.dumps] *)
(* ===================================================================== *)

Module Json.

Local Open Scope N_scope.

(** What [json.loads] does with a text.  [OutsideModel] stands for the
    texts this development does not follow Python on: those holding a
    [float] (a number with a fraction or an exponent, [NaN], [Infinity]),
    an integer of more than [max_int_digits] digits, or arrays and objects
    nested deeper than [max_nesting]. *)
Inductive loads_result : Type :=
| Loaded (v : PyVal)
| JSONDecodeError
| OutsideModel.

Inductive parsed (A : Type) : Type :=
| Parsed (a : A) (rest : pystr)
| BadJSON
| Beyond.
Arguments BadJSON {A}.
Arguments Beyond {A}.

Definition max_int_digits : nat := 4300.
Definition max_nesting : nat := 100.

Definition is_ws (c : N) : bool :=
  (c =? 32) || (c =? 9) || (c =? 10) || (c =? 13).

Fixpoint skip_ws (s : pystr) : pystr :=
  match s with
  | c :: r => if is_ws c then skip_ws r else s
  | [] => []
  end.

Definition is_digit (c : N) : bool := (48 <=? c) && (c <=? 57).

Fixpoint span_digits (s : pystr) : pystr * pystr :=
  match s with
  | c :: r =>
      if is_digit c
      then let (ds, rest) := span_digits r in (c :: ds, rest)
      else ([], s)
  | [] => ([], [])
  end.

(** A JSON integer at the head of [s]: a lone 0, or a digit from 1 to 9
    and any digits after it. *)
Definition match_integer (s : pystr) : option (pystr * pystr) :=
  match s with
  | c :: r =>
      if c =? 48 then Some ([48], r)
      else if is_digit c
           then let (ds, rest) := span_digits r in Some (c :: ds, rest)
           else None
  | [] => None
  end.

(** A fraction at the head of [s]: a dot and a digit. *)
Definition has_frac (s : pystr) : bool :=
  match s with
  | d :: c :: _ => (d =? 46) && is_digit c
  | _ => false
  end.

(** An exponent at the head of [s]: e or E, a sign if any, and a digit. *)
Definition has_exp (s : pystr) : bool :=
  match s with
  | e :: r =>
      ((e =? 101) || (e =? 69)) &&
      match r with
      | c :: r' =>
          is_digit c ||
          (((c =? 43) || (c =? 45)) &&
           match r' with c' :: _ => is_digit c' | [] => false end)
      | [] => false
      end
  | [] => false
  end.

Inductive number_token : Type :=
| NumInt (neg : bool) (digits rest : pystr)
| NumFloat
| NumNone.

(** [NUMBER_RE.match]: a minus sign if any, the integer, then a fraction
    and an exponent if any; with either of those the number is a float. *)
Definition match_number (s : pystr) : number_token :=
  let (neg, s1) :=
    match s with
    | c :: r => if c =? 45 then (true, r) else (false, s)
    | [] => (false, s)
    end in
  match match_integer s1 with
  | None => NumNone
  | Some (ds, rest) =>
      if has_frac rest || has_exp rest then NumFloat else NumInt neg ds rest
  end.

Definition hexval (c : N) : option N :=
  if (48 <=? c) && (c <=? 57) then Some (c - 48)
  else if (97 <=? c) && (c <=? 102) then Some (c - 87)
  else if (65 <=? c) && (c <=? 70) then Some (c - 55)
  else None.

Definition hex4 (a b c d : N) : option N :=
  match hexval a, hexval b, hexval c, hexval d with
  | Some x, Some y, Some z, Some w => Some (((x * 16 + y) * 16 + z) * 16 + w)
  | _, _, _, _ => None
  end.

Definition is_high_surrogate (c : N) : bool := (55296 <=? c) && (c <=? 56319).
Definition is_low_surrogate (c : N) : bool := (56320 <=? c) && (c <=? 57343).
Definition join_surrogates (hi lo : N) : N :=
  65536 + ((hi - 55296) * 1024 + (lo - 56320)).

(** The one-character escapes: quote, backslash, slash, b, f, n, r, t. *)
Definition simple_escape (e : N) : option N :=
  if e =? 34 then Some 34 else if e =? 92 then Some 92
  else if e =? 47 then Some 47 else if e =? 98 then Some 8
  else if e =? 102 then Some 12 else if e =? 110 then Some 10
  else if e =? 114 then Some 13 else if e =? 116 then Some 9
  else None.

(** [scanstring] (strict): [s] starts after the opening quote; [acc] holds
    the characters read so far, last first. *)
Fixpoint scanstring (s : pystr) (acc : pystr) : parsed pystr :=
  match s with
  | [] => BadJSON
  | c :: r =>
      if c =? 34 then Parsed (rev acc) r
      else if c =? 92 then
        match r with
        | [] => BadJSON
        | e :: r1 =>
            if e =? 117 then
              match r1 with
              | h1 :: h2 :: h3 :: h4 :: r2 =>
                  match hex4 h1 h2 h3 h4 with
                  | None => BadJSON
                  | Some u1 =>
                      match r2 with
                      | b :: u :: g1 :: g2 :: g3 :: g4 :: r3 =>
                          if is_high_surrogate u1 && (b =? 92) && (u =? 117)
                          then
                            match hex4 g1 g2 g3 g4 with
                            | None => BadJSON
                            | Some u2 =>
                                if is_low_surrogate u2
                                then scanstring r3 (join_surrogates u1 u2 :: acc)
                                else scanstring r2 (u1 :: acc)
                            end
                          else scanstring r2 (u1 :: acc)
                      | _ => scanstring r2 (u1 :: acc)
                      end
                  end
              | _ => BadJSON
              end
            else
              match simple_escape e with
              | Some x => scanstring r1 (x :: acc)
              | None => BadJSON
              end
        end
      else if c <? 32 then BadJSON
      else scanstring r (c :: acc)
  end.

(** [s[len(p):]] when [s] starts with [p]. *)
Fixpoint strip_prefix (p s : pystr) : option pystr :=
  match p, s with
  | [], _ => Some s
  | x :: p', y :: s' => if x =? y then strip_prefix p' s' else None
  | _ :: _, [] => None
  end.

(** [scan_once] with [JSONObject] and [JSONArray].  [s] is at the first
    character of a value; [depth] is the nesting still allowed. *)
Fixpoint parse_value (fuel depth : nat) (s : pystr) {struct fuel}
  : parsed PyVal :=
  match fuel with
  | O => Beyond
  | S fuel =>
    match s with
    | [] => BadJSON
    | c :: r =>
      if c =? 34 then
        match scanstring r [] with
        | Parsed t rest => Parsed (PStr t) rest
        | BadJSON => BadJSON
        | Beyond => Beyond
        end
      else if c =? 123 then
        match depth with
        | O => Beyond
        | S depth =>
            match skip_ws r with
            | q :: r1 =>
                if q =? 125 then Parsed (PDict []) r1
                else parse_members fuel depth (q :: r1) []
            | [] => BadJSON
            end
        end
      else if c =? 91 then
        match depth with
        | O => Beyond
        | S depth =>
            match skip_ws r with
            | q :: r1 =>
                if q =? 93 then Parsed (PList []) r1
                else parse_items fuel depth (q :: r1) []
            | [] => BadJSON
            end
        end
      else
        match strip_prefix (py "null") s with
        | Some rest => Parsed PNone rest
        | None =>
        match strip_prefix (py "true") s with
        | Some rest => Parsed (PBool true) rest
        | None =>
        match strip_prefix (py "false") s with
        | Some rest => Parsed (PBool false) rest
        | None =>
        match match_number s with
        | NumInt neg ds rest =>
            if Nat.leb (length ds) max_int_digits
            then Parsed (PInt (int_of_digits neg ds)) rest
            else Beyond
        | NumFloat => Beyond
        | NumNone =>
            match strip_prefix (py "NaN") s, strip_prefix (py "Infinity") s,
                  strip_prefix (py "-Infinity") s with
            | None, None, None => BadJSON
            | _, _, _ => Beyond
            end
        end end end end
    end
  end

(** The members of an object; [s] is at the quote that opens a key. *)
with parse_members (fuel depth : nat) (s : pystr)
       (acc : list (pystr * PyVal)) {struct fuel} : parsed PyVal :=
  match fuel with
  | O => Beyond
  | S fuel =>
    match s with
    | q :: r =>
      if q =? 34 then
        match scanstring r [] with
        | Parsed key r1 =>
            match skip_ws r1 with
            | colon :: r2 =>
                if colon =? 58 then
                  match parse_value fuel depth (skip_ws r2) with
                  | Parsed v r3 =>
                      let acc' := dict_set acc key v in
                      match skip_ws r3 with
                      | d :: r4 =>
                          if d =? 125 then Parsed (PDict acc') r4
                          else if d =? 44
                               then parse_members fuel depth (skip_ws r4) acc'
                               else BadJSON
                      | [] => BadJSON
                      end
                  | BadJSON => BadJSON
                  | Beyond => Beyond
                  end
                else BadJSON
            | [] => BadJSON
            end
        | BadJSON => BadJSON
        | Beyond => Beyond
        end
      else BadJSON
    | [] => BadJSON
    end
  end

(** The items of an array; [s] is at the first character of an item. *)
with parse_items (fuel depth : nat) (s : pystr) (acc : list PyVal)
       {struct fuel} : parsed PyVal :=
  match fuel with
  | O => Beyond
  | S fuel =>
    match parse_value fuel depth s with
    | Parsed v r1 =>
        match skip_ws r1 with
        | d :: r2 =>
            if d =? 93 then Parsed (PList (rev (v :: acc))) r2
            else if d =? 44
                 then parse_items fuel depth (skip_ws r2) (v :: acc)
                 else BadJSON
        | [] => BadJSON
        end
    | BadJSON => BadJSON
    | Beyond => Beyond
    end
  end.

(** [json.loads(s)] for a [str]: white space, one value, white space. *)
Definition loads (s : pystr) : loads_result :=
  match parse_value (2 * length s + 2) max_nesting (skip_ws s) with
  | Parsed v rest =>
      match skip_ws rest with
      | [] => Loaded v
      | _ :: _ => JSONDecodeError
      end
  | BadJSON => JSONDecodeError
  | Beyond => OutsideModel
  end.

(** *** [json.dumps] with its defaults ([ensure_ascii], [", "], [": "]) *)

Definition hex_digit (n : N) : N := if n <? 10 then 48 + n else 87 + n.

Definition u_escape (c : N) : pystr :=
  [92; 117; hex_digit (c / 4096); hex_digit ((c / 256) mod 16);
   hex_digit ((c / 16) mod 16); hex_digit (c mod 16)].

Definition escape_char (c : N) : pystr :=
  if c =? 34 then [92; 34]
  else if c =? 92 then [92; 92]
  else if c =? 10 then [92; 110]
  else if c =? 13 then [92; 114]
  else if c =? 9 then [92; 116]
  else if c =? 8 then [92; 98]
  else if c =? 12 then [92; 102]
  else if (32 <=? c) && (c <=? 126) then [c]
  else if c <? 65536 then u_escape c
  else u_escape (55296 + (c - 65536) / 1024)
       ++ u_escape (56320 + (c - 65536) mod 1024).

Definition encode_str (s : pystr) : pystr :=
  34 :: flat_map escape_char s ++ [34].

Fixpoint dumps (v : PyVal) : pystr :=
  match v with
  | PNone => py "null"
  | PBool true => py "true"
  | PBool false => py "false"
  | PInt z => str_of_Z z
  | PStr s => encode_str s
  | PList l =>
      let fix items (l : list PyVal) : pystr :=
        match l with
        | [] => []
        | v :: l' =>
            dumps v ++ match l' with [] => [] | _ => py ", " end ++ items l'
        end in
      py "[" ++ items l ++ py "]"
  | PDict d =>
      let fix members (d : list (pystr * PyVal)) : pystr :=
        match d with
        | [] => []
        | (k, v) :: d' =>
            encode_str k ++ py ": " ++ dumps v
            ++ match d' with [] => [] | _ => py ", " end ++ members d'
        end in
      py "{" ++ members d ++ py "}"
  end.

(** *** [json.loads] on the bytes of a body

    [json.loads(b)] for [b] the UTF-8 bytes of the text [s] (the bytes
    that [s.encode("utf-8", "surrogatepass")] gives): [detect_encoding]
    picks the encoding from the first bytes, the bytes are decoded with
    it, and the text that comes out is parsed. *)

(** [len(c.encode("utf-8", "surrogatepass"))] *)
Definition utf8_len (c : N) : nat :=
  if c <? 128 then 1%nat
  else if c <? 2048 then 2%nat
  else if c <? 65536 then 3%nat
  else 4%nat.

Definition utf8_length (s : pystr) : nat := list_sum (map utf8_len s).

(** What [detect_encoding] answers on the UTF-8 bytes of a text: UTF-8;
    UTF-8 with a byte order mark, when the text starts with U+FEFF; or,
    with a zero among the first two bytes of four or more bytes, or of
    exactly two, one of UTF-16 and UTF-32. *)
Inductive encoding : Type := Utf8 | Utf8Sig | Utf16or32.

Definition detect_encoding (s : pystr) : encoding :=
  match s with
  | c :: r =>
      if c =? 65279 then Utf8Sig
      else
        let n := utf8_length s in
        let zero :=
          (c =? 0) ||
          ((c <? 128) && match r with c' :: _ => c' =? 0 | [] => false end) in
        if zero && (Nat.leb 4 n || Nat.eqb n 2) then Utf16or32 else Utf8
  | [] => Utf8
  end.

(** Decoding with a byte order mark drops the mark.  Bytes that are read
    as UTF-16 or UTF-32 are outside the model. *)
Definition loads_utf8 (s : pystr) : loads_result :=
  match detect_encoding s with
  | Utf8 => loads s
  | Utf8Sig => loads (tl s)
  | Utf16or32 => OutsideModel
  end.

End Json.

(* ===================================================================== *)
(** ** The Redis database *)
(* ===================================================================== *)

Module Redis.

Local Open Scope N_scope.

(** A key holds a text and, after [SETEX], the second at which it expires. *)
Record entry : Type := { value : pystr; expires_at : option N }.

(** The keys in the order in which [SCAN] walks them.  Redis leaves that
    order open; here a key that is overwritten keeps its place and a new
    key goes last. *)
Definition db := list (pystr * entry).

(** A key with an expiry is gone once the clock is past it: at the expiry
    instant itself Redis still serves it. *)
Definition live (now : N) (e : entry) : bool :=
  match expires_at e with
  | None => true
  | Some t => now <=? t
  end.

Fixpoint lookup (d : db) (k : pystr) : option entry :=
  match d with
  | [] => None
  | (k', e) :: d' => if pystr_eqb k' k then Some e else lookup d' k
  end.

(** [GET key]: an expired key is gone. *)
Definition get (now : N) (d : db) (k : pystr) : option pystr :=
  match lookup d k with
  | Some e => if live now e then Some (value e) else None
  | None => None
  end.

Fixpoint put (d : db) (k : pystr) (e : entry) : db :=
  match d with
  | [] => [(k, e)]
  | (k', e') :: d' =>
      if pystr_eqb k' k then (k', e) :: d' else (k', e') :: put d' k e
  end.

(** [SET key value]: no expiry. *)
Definition set (d : db) (k v : pystr) : db :=
  put d k {| value := v; expires_at := None |}.

(** [SETEX key ttl value] *)
Definition setex (now : N) (d : db) (k : pystr) (ttl : N) (v : pystr) : db :=
  put d k {| value := v; expires_at := Some (now + ttl) |}.

(** [DEL key] *)
Definition delete (d : db) (k : pystr) : db :=
  filter (fun ke => negb (pystr_eqb (fst ke) k)) d.

(** [scan_iter(prefix + "*")]: the live keys that start with [prefix]. *)
Definition scan_iter (now : N) (d : db) (prefix : pystr) : list pystr :=
  map fst
    (filter (fun ke => startswith prefix (fst ke) && live now (snd ke)) d).

(** No key occurs twice. *)
Definition wf (d : db) : Prop := NoDup (map fst d).

(** How many entries, live or not, sit under [k]. *)
Definition count (d : db) (k : pystr) : nat :=
  List.length (filter (fun ke => pystr_eqb (fst ke) k) d).

End Redis.

(* ===================================================================== *)
(** ** Effects: the database, the calls made, exceptions *)
(* ===================================================================== *)

(** The Redis commands and the outbound requests an operation issues. *)
Inductive event : Type :=
| SCAN (prefix : pystr)
| GET (key : pystr)
| SET (key value : pystr)
| SETEX (key : pystr) (ttl : N) (value : pystr)
| DEL (key : pystr)
| HTTP_GET (url bearer : pystr)
| HTTP_POST (url refresh_token : pystr).

(** The database and the calls made so far, oldest first. *)
Record world : Type := { store : Redis.db; trace : list event }.

Inductive exn : Type :=
| JSONDecodeError
| AttributeError
| TimeoutException
| TransportError
| ParentError.

(** How a call ends.  [Unmodelled]: the call met a text on which
    [Json.loads] is [OutsideModel], or a value for which [py_str] has no
    answer. *)
Inductive outcome (A : Type) : Type :=
| Returns (a : A)
| Raises (e : exn)
| Unmodelled.
Arguments Raises {A}.
Arguments Unmodelled {A}.

Definition M (A : Type) : Type := world -> outcome A * world.

Definition ret {A} (a : A) : M A := fun w => (Returns a, w).
Definition raise {A} (e : exn) : M A := fun w => (Raises e, w).
Definition unmodelled {A} : M A := fun w => (Unmodelled, w).

Definition bind {A B} (m : M A) (k : A -> M B) : M B :=
  fun w =>
    match m w with
    | (Returns a, w') => k a w'
    | (Raises e, w') => (Raises e, w')
    | (Unmodelled, w') => (Unmodelled, w')
    end.

(** [try: body  except ...: handler] *)
Definition try_except {A} (body : M A) (handler : exn -> M A) : M A :=
  fun w =>
    match body w with
    | (Raises e, w') => handler e w'
    | r => r
    end.

Notation "x <- m ;; k" := (bind m (fun x => k))
  (at level 61, m at next level, right associativity).
Notation "m ;;; k" := (bind m (fun _ => k))
  (at level 61, right associativity).

Definition emit (e : event) : M unit :=
  fun w => (Returns tt, {| store := store w; trace := trace w ++ [e] |}).

Definition redis_get (now : N) (k : pystr) : M (option pystr) :=
  fun w => (Returns (Redis.get now (store w) k),
            {| store := store w; trace := trace w ++ [GET k] |}).

Definition redis_set (k v : pystr) : M unit :=
  fun w => (Returns tt,
            {| store := Redis.set (store w) k v;
               trace := trace w ++ [SET k v] |}).

Definition redis_setex (now : N) (k : pystr) (ttl : N) (v : pystr) : M unit :=
  fun w => (Returns tt,
            {| store := Redis.setex now (store w) k ttl v;
               trace := trace w ++ [SETEX k ttl v] |}).

Definition redis_delete (k : pystr) : M unit :=
  fun w => (Returns tt,
            {| store := Redis.delete (store w) k;
               trace := trace w ++ [DEL k] |}).

Definition redis_scan_iter (now : N) (prefix : pystr) : M (list pystr) :=
  fun w => (Returns (Redis.scan_iter now (store w) prefix),
            {| store := store w; trace := trace w ++ [SCAN prefix] |}).

(** [json.loads] inside an operation. *)
Definition json_loads (s : pystr) : M PyVal :=
  match Json.loads s with
  | Json.Loaded v => ret v
  | Json.JSONDecodeError => raise JSONDecodeError
  | Json.OutsideModel => unmodelled
  end.

(** The instant of a call: the second on the Redis clock and the text of
    [datetime.utcnow().isoformat()]. *)
Record instant : Type := { seconds : N; isoformat : pystr }.

(** [response.json()]: [json.loads] on the bytes of the body. *)
Definition response_json (text : pystr) : M PyVal :=
  match Json.loads_utf8 text with
  | Json.Loaded v => ret v
  | Json.JSONDecodeError => raise JSONDecodeError
  | Json.OutsideModel => unmodelled
  end.

(** What an outbound request comes back with.  The body of a response is
    held as the text that UTF-8 makes of its bytes; a body that is no
    UTF-8 is not represented. *)
Inductive http_outcome : Type :=
| HttpResponse (status_code : N) (text : pystr)
| HttpTimeout
| HttpFailure.

Definition http_result (o : http_outcome) : M (N * pystr) :=
  match o with
  | HttpResponse st body => ret (st, body)
  | HttpTimeout => raise TimeoutException
  | HttpFailure => raise TransportError
  end.

(* ===================================================================== *)
(** ** [auth.py] *)
(* ===================================================================== *)

Definition QBO_TOKEN_ENDPOINT : pystr :=
  py "https://oauth.platform.intuit.com/oauth2/v1/tokens/bearer".
Definition QBO_USERINFO_ENDPOINT : pystr :=
  py "https://accounts.platform.intuit.com/v1/openid_connect/userinfo".
Definition QBO_ACCOUNTING_SCOPE : pystr := py "com.intuit.quickbooks.accounting".

Definition state_prefix : pystr := py "qbo:realm:state:".
Definition code_prefix : pystr := py "qbo:realm:code:".
Definition client_prefix : pystr := py "qbo:realm:client:".

(** What the wrapped [OAuthProxy] method does when it is called: it returns
    or it raises.  It keeps its own records elsewhere and does not touch
    the [qbo:realm:] keys. *)
Inductive parent_result (R : Type) : Type :=
| ParentReturns (r : R)
| ParentRaises.
Arguments ParentRaises {R}.

Definition call_parent {R} (p : parent_result R) : M R :=
  match p with
  | ParentReturns r => ret r
  | ParentRaises => raise ParentError
  end.

Module QuickBooksOAuthProxy.

(** The query parameters of the callback that the handler reads. *)
Record Request : Type :=
  { realmId : option pystr; state : option pystr; code : option pystr }.

(** The code record of the wrapped proxy: [idp_tokens] when the attribute
    is there and is a dict. *)
Record CodeModel : Type := { idp_tokens : option (list (pystr * PyVal)) }.

Definition _store_realm_by_state (now : instant) (st realm_id : pystr)
  : M unit :=
  let key := state_prefix ++ st in
  redis_setex (seconds now) key 600 realm_id.

Definition _get_realm_by_state (now : instant) (st : pystr)
  : M (option pystr) :=
  let key := state_prefix ++ st in
  value <- redis_get (seconds now) key ;;
  match value with
  | Some (c :: v) => ret (Some (c :: v))
  | _ => ret None
  end.

Definition _delete_realm_by_state (st : pystr) : M unit :=
  let key := state_prefix ++ st in
  redis_delete key.

Definition store_realm_by_client_id (now : instant) (client_id : pystr)
    (realm_id refresh_token : PyVal) : M unit :=
  let key := client_prefix ++ client_id in
  let data := PDict [ (py "realm_id", realm_id);
                      (py "refresh_token", refresh_token);
                      (py "updated_at", PStr (isoformat now)) ] in
  redis_set key (Json.dumps data).

(** Returns [PNone] for Python's [None]. *)
Definition get_realm_data_by_client_id (now : instant) (client_id : pystr)
  : M PyVal :=
  let key := client_prefix ++ client_id in
  value <- redis_get (seconds now) key ;;
  match value with
  | Some (c :: v) => json_loads (c :: v)
  | _ => ret PNone
  end.

Definition _handle_idp_callback {R} (now : instant) (request : Request)
    (parent : parent_result R) : M R :=
  let realm_id := realmId request in
  let st := state request in
  let cd := code request in
  (if present realm_id && present st
   then match realm_id, st with
        | Some r, Some s => _store_realm_by_state now s r
        | _, _ => ret tt
        end
   else ret tt) ;;;
  (if present realm_id && present cd
   then match realm_id, cd with
        | Some r, Some c =>
            let code_key := code_prefix ++ c in
            redis_setex (seconds now) code_key 600 r
        | _, _ => ret tt
        end
   else ret tt) ;;;
  call_parent parent.

(** Method 1, the body of [async for key in scan_iter("qbo:realm:state:*")]:
    [realm_id] is the variable as the loop left it so far. *)
Fixpoint scan_state_entries (now : instant) (keys : list pystr)
    (realm_id : PyVal) : M PyVal :=
  match keys with
  | [] => ret realm_id
  | key :: keys' =>
      value <- redis_get (seconds now) key ;;
      match value with
      | Some (c :: v) =>
          let data := c :: v in
          match Json.loads data with
          | Json.Loaded (PDict d) =>
              let realm_id :=
                match dict_get d (py "realm_id") with
                | Some x => x
                | None => PNone
                end in
              if truthy realm_id
              then redis_delete key ;;; ret realm_id
              else scan_state_entries now keys' realm_id
          | Json.Loaded realm_data =>
              match py_str realm_data with
              | Some t =>
                  let realm_id := PStr t in
                  if truthy realm_id
                  then redis_delete key ;;; ret realm_id
                  else scan_state_entries now keys' realm_id
              | None => unmodelled
              end
          | Json.JSONDecodeError =>
              redis_delete key ;;; ret (PStr data)
          | Json.OutsideModel => unmodelled
          end
      | _ => scan_state_entries now keys' realm_id
      end
  end.

(** Method 2, the body of [async for key in scan_iter("qbo:realm:code:*")]. *)
Fixpoint scan_code_entries (now : instant) (keys : list pystr)
    (realm_id : PyVal) : M PyVal :=
  match keys with
  | [] => ret realm_id
  | key :: keys' =>
      value <- redis_get (seconds now) key ;;
      match value with
      | Some (c :: v) => redis_delete key ;;; ret (PStr (c :: v))
      | _ => scan_code_entries now keys' realm_id
      end
  end.

(** Method 1: scan the state entries; [realm_id] starts as [None]. *)
Definition method_1 (now : instant) : M PyVal :=
  keys <- redis_scan_iter (seconds now) state_prefix ;;
  scan_state_entries now keys PNone.

(** Method 2: scan the code entries. *)
Definition method_2 (now : instant) (realm_id : PyVal) : M PyVal :=
  keys <- redis_scan_iter (seconds now) code_prefix ;;
  scan_code_entries now keys realm_id.

(** The part of [exchange_authorization_code] that looks the realm up:
    method 1, then method 2 [if not realm_id]. *)
Definition resolve_realm (now : instant) : M PyVal :=
  realm_id <- method_1 now ;;
  if negb (truthy realm_id)
  then method_2 now realm_id
  else ret realm_id.

(** The refresh token kept with the code: [idp_tokens.get("refresh_token")]
    when [code_model] has a non-empty [idp_tokens], else [None]. *)
Definition idp_refresh_token (code_model : option CodeModel) : PyVal :=
  match code_model with
  | Some {| idp_tokens := Some (kv :: toks) |} =>
      match dict_get (kv :: toks) (py "refresh_token") with
      | Some x => x
      | None => PNone
      end
  | _ => PNone
  end.

(** [code_store] is the code record store of the wrapped proxy, read with
    [self._code_store.get(key=authorization_code.code)]. *)
Definition exchange_authorization_code {R} (now : instant)
    (code_store : pystr -> option CodeModel)
    (client_id : option pystr) (authorization_code : pystr)
    (parent : parent_result R) : M R :=
  let code_model := code_store authorization_code in
  realm_id <- resolve_realm now ;;
  result <- call_parent parent ;;
  let refresh_token := idp_refresh_token code_model in
  (if truthy realm_id && present client_id
   then match client_id with
        | Some c => store_realm_by_client_id now c realm_id refresh_token
        | None => ret tt
        end
   else ret tt) ;;;
  ret result.

End QuickBooksOAuthProxy.

Module QBOTokenVerifier.

Import QuickBooksOAuthProxy.

Record AccessToken : Type :=
  { token : pystr;
    client_id : pystr;
    scopes : list pystr;
    claims : list (pystr * PyVal) }.

(** [required_scopes or []] *)
Definition or_empty (l : list pystr) : list pystr :=
  match l with
  | [] => []
  | _ => l
  end.

(** [data.get(k)], which a value that is no dict does not have. *)
Definition attr_get (data : PyVal) (k : pystr) (default : PyVal) : M PyVal :=
  match data with
  | PDict d =>
      match dict_get d k with
      | Some x => ret x
      | None => ret default
      end
  | _ => raise AttributeError
  end.

Definition _refresh_token (now : instant) (upstream : http_outcome)
    (refresh_token : pystr) (realm_id : pystr) (client_id : pystr)
  : M (option (PyVal * PyVal)) :=
  try_except
    (emit (HTTP_POST QBO_TOKEN_ENDPOINT refresh_token) ;;;
     response <- http_result upstream ;;
     let (status_code, text) := response in
     if negb (N.eqb status_code 200)
     then ret None
     else
       data <- response_json text ;;
       new_access <- attr_get data (py "access_token") PNone ;;
       new_refresh <- attr_get data (py "refresh_token") (PStr refresh_token) ;;
       store_realm_by_client_id now client_id (PStr realm_id) new_refresh ;;;
       ret (Some (new_access, new_refresh)))
    (fun _ => ret None).

(** [key_str.split(":")[-1]] *)
Fixpoint last_segment (s acc : pystr) : pystr :=
  match s with
  | [] => List.rev acc
  | c :: r => if N.eqb c 58 then last_segment r [] else last_segment r (c :: acc)
  end.

Definition verify_token (now : instant) (required_scopes : list pystr)
    (upstream : http_outcome) (tok : pystr) : M (option AccessToken) :=
  try_except
    (emit (HTTP_GET QBO_USERINFO_ENDPOINT tok) ;;;
     response <- http_result upstream ;;
     let (status_code, _) := response in
     if N.eqb status_code 401
     then ret None
     else
       keys <- redis_scan_iter (seconds now) client_prefix ;;
       found <-
         match keys with
         | [] => ret (py "default", PNone)
         | key :: _ =>
             let cid := last_segment key [] in
             realm_data <- get_realm_data_by_client_id now cid ;;
             if truthy realm_data
             then realm_id <- attr_get realm_data (py "realm_id") PNone ;;
                  ret (cid, realm_id)
             else ret (cid, PNone)
         end ;;
       let (cid, realm_id) := found in
       ret (Some {| token := tok;
                    client_id := cid;
                    scopes := or_empty required_scopes;
                    claims := [ (py "upstream_access_token", PStr tok);
                                (py "realm_id", realm_id);
                                (py "validated_at", PStr (isoformat now)) ] |}))
    (fun e =>
       match e with
       | TimeoutException =>
           ret (Some {| token := tok;
                        client_id := py "timeout-fallback";
                        scopes := or_empty required_scopes;
                        claims := [ (py "upstream_access_token", PStr tok);
                                    (py "realm_id", PNone);
                                    (py "validated_at", PStr (isoformat now));
                                    (py "timeout", PBool true) ] |})
       | _ => ret None
       end).

End QBOTokenVerifier.

(* ===================================================================== *)
(** ** Vocabulary of the statements *)
(* ===================================================================== *)

(** A text of ASCII decimal digits. *)
Definition all_digits (s : pystr) : bool := forallb Json.is_digit s.

(** A Unicode scalar value: a code point that is no surrogate. *)
Definition scalar (c : N) : bool :=
  (c <? 1114112)%N && negb ((55296 <=? c)%N && (c <=? 57343)%N).

(** Text as UTF-8 can carry it. *)
Definition well_formed (s : pystr) : bool := forallb scalar s.

(** A realm text that the state scan hands on as it stands: text that is
    no JSON at all, or a run of at most [Json.max_int_digits] digits. *)
Definition kept_by_state_scan (t : pystr) : Prop :=
  Json.loads t = Json.JSONDecodeError \/
  (all_digits t = true /\ (List.length t <= Json.max_int_digits)%nat).

(** No live key under [prefix] at [now]. *)
Definition no_live_key (now : N) (d : Redis.db) (prefix : pystr) : Prop :=
  Redis.scan_iter now d prefix = [].

(** The writes the callback is to make, in the words of its description:
    the state-keyed entry when [realmId] and [state] are both there, then
    the code-keyed entry when [realmId] and [code] are both there, each
    with a life of 600 seconds. *)
Definition callback_writes (request : QuickBooksOAuthProxy.Request)
  : list event :=
  match QuickBooksOAuthProxy.realmId request with
  | Some (c :: r) =>
      let realm := c :: r in
      match QuickBooksOAuthProxy.state request with
      | Some (x :: s) => [SETEX (state_prefix ++ x :: s) 600 realm]
      | _ => []
      end ++
      match QuickBooksOAuthProxy.code request with
      | Some (x :: s) => [SETEX (code_prefix ++ x :: s) 600 realm]
      | _ => []
      end
  | _ => []
  end.

(** The database after a list of writes, applied in order. *)
Fixpoint apply_writes (now : N) (d : Redis.db) (l : list event) : Redis.db :=
  match l with
  | [] => d
  | SETEX k ttl v :: l' => apply_writes now (Redis.setex now d k ttl v) l'
  | SET k v :: l' => apply_writes now (Redis.set d k v) l'
  | DEL k :: l' => apply_writes now (Redis.delete d k) l'
  | _ :: l' => apply_writes now d l'
  end.

(** The binding record that [store_realm_by_client_id] serialises. *)
Definition binding_record (now : instant) (realm_id refresh_token : PyVal)
  : PyVal :=
  PDict [ (py "realm_id", realm_id);
          (py "refresh_token", refresh_token);
          (py "updated_at", PStr (isoformat now)) ].

(** The text of the binding that [verify_token] reads: the one under the
    last segment of the first client key the scan yields. *)
Definition first_binding_text (now : instant) (d : Redis.db) : option pystr :=
  match Redis.scan_iter (seconds now) d client_prefix with
  | [] => None
  | key :: _ =>
      match Redis.get (seconds now) d
              (client_prefix ++ QBOTokenVerifier.last_segment key []) with
      | Some (c :: v) => Some (c :: v)
      | _ => None
      end
  end.

(** A binding text on which [verify_token] raises: no JSON, or JSON for a
    value that is true and has no [get]. *)
Definition unreadable (t : pystr) : Prop :=
  match Json.loads t with
  | Json.Loaded (PDict _) => False
  | Json.Loaded v => truthy v = true
  | Json.JSONDecodeError => True
  | Json.OutsideModel => False
  end.

(** A binding text that [verify_token] gets past: JSON for an object, or
    for a value that is false (which it does not look into). *)
Definition readable (t : pystr) : Prop :=
  match Json.loads t with
  | Json.Loaded (PDict _) => True
  | Json.Loaded v => truthy v = false
  | Json.JSONDecodeError => False
  | Json.OutsideModel => False
  end.

(** How the wrapped method ends, as the caller sees it. *)
Definition parent_outcome {R} (p : parent_result R) : outcome R :=
  match p with
  | ParentReturns r => Returns r
  | ParentRaises => Raises ParentError
  end.

(** The first of [keys] that holds a non-empty text, with that text. *)
Fixpoint first_nonempty (now : N) (d : Redis.db) (keys : list pystr)
  : option (pystr * pystr) :=
  match keys with
  | [] => None
  | k :: ks =>
      match Redis.get now d k with
      | Some (c :: v) => Some (k, c :: v)
      | _ => first_nonempty now d ks
      end
  end.

(** The text between the braces of an object whose values are all text,
    as [json.dumps] lays it out. *)
Fixpoint members_text (fs : list (pystr * pystr)) : pystr :=
  match fs with
  | [] => []
  | (k, v) :: fs' =>
      Json.encode_str k ++ py ": " ++ Json.encode_str v
      ++ match fs' with [] => [] | _ => py ", " end ++ members_text fs'
  end.

Definition fields_ok (fs : list (pystr * pystr)) : bool :=
  forallb (fun kv => well_formed (fst kv) && well_formed (snd kv)) fs.

(** The refresh call did not succeed: a status other than 200, a timeout
    or another transport error. *)
Definition refresh_failed (upstream : http_outcome) : Prop :=
  match upstream with
  | HttpResponse status_code _ => status_code <> 200%N
  | HttpTimeout => True
  | HttpFailure => True
  end.

(** [data.get(k, default)] on a dict. *)
Definition get_or (d : list (pystr * PyVal)) (k : pystr) (default : PyVal)
  : PyVal :=
  match dict_get d k with
  | Some x => x
  | None => default
  end.

(** A fresh database and two instants thirty seconds apart, for the
    scenarios. *)
Definition empty_world : world := {| store := []; trace := [] |}.
Definition callback_time : instant :=
  {| seconds := 1000; isoformat := py "2024-01-01T00:16:40" |}.
Definition exchange_time : instant :=
  {| seconds := 1030; isoformat := py "2024-01-01T00:17:10" |}.

(* ===================================================================== *)
(** ** [storage.py]: the idempotency store *)
(* ===================================================================== *)

Module IdempotencyStore.

Definition KEY_PREFIX : pystr := py "qbo:idempotency:".
Definition DEFAULT_TTL_DAYS : Z := 30.

Definition _key (idempotency_key : pystr) : pystr :=
  KEY_PREFIX ++ idempotency_key.

(** Returns [PNone] for Python's [None].  Only [json.JSONDecodeError] is
    caught; what [parsed.get] raises goes on to the caller. *)
Definition check (now : instant) (idempotency_key : pystr) : M PyVal :=
  let key := _key idempotency_key in
  data <- redis_get (seconds now) key ;;
  match data with
  | Some (c :: v) =>
      try_except
        (parsed <- json_loads (c :: v) ;;
         QBOTokenVerifier.attr_get parsed (py "expense_id") PNone)
        (fun e =>
           match e with
           | JSONDecodeError => ret PNone
           | _ => raise e
           end)
  | _ => ret PNone
  end.

(** [(ttl_days or self.DEFAULT_TTL_DAYS) * 86400] *)
Definition ttl_seconds (ttl_days : option Z) : Z :=
  (match ttl_days with
   | Some d => if Z.eqb d 0 then DEFAULT_TTL_DAYS else d
   | None => DEFAULT_TTL_DAYS
   end * 86400)%Z.

(** Redis refuses a [SETEX] whose time is not positive; that error is not
    followed here. *)
Definition store (now : instant) (idempotency_key expense_id : pystr)
    (ttl_days : option Z) : M unit :=
  let key := _key idempotency_key in
  let ttl := ttl_seconds ttl_days in
  let data := PDict [ (py "expense_id", PStr expense_id);
                      (py "created_at", PStr (isoformat now)) ] in
  if Z.ltb 0 ttl
  then redis_setex (seconds now) key (Z.to_N ttl) (Json.dumps data)
  else unmodelled.

End IdempotencyStore.

(* ===================================================================== *)
(** ** [errors.py], [client.py] and [tools.py]: from claims to a client *)
(* ===================================================================== *)

Module Errors.

Record QBOError : Type :=
  { code : pystr; message : pystr; details : list (pystr * PyVal) }.

(** [details or {}] *)
Definition or_empty_dict (details : option (list (pystr * PyVal)))
  : list (pystr * PyVal) :=
  match details with
  | Some d => d
  | None => []
  end.

Definition ValidationError (msg : pystr)
    (details : option (list (pystr * PyVal))) : QBOError :=
  {| code := py "VALIDATION_ERROR"; message := msg;
     details := or_empty_dict details |}.

Definition AuthenticationError (msg : pystr)
    (details : option (list (pystr * PyVal))) : QBOError :=
  {| code := py "AUTHENTICATION_ERROR"; message := msg;
     details := or_empty_dict details |}.

End Errors.

Module Client.

(** The process environment read by [os.getenv]. *)
Definition environ := pystr -> option pystr.

(** [os.getenv(name)] *)
Definition getenv (env : environ) (name : pystr) : PyVal :=
  match env name with
  | Some v => PStr v
  | None => PNone
  end.

(** [os.getenv(name, default)] *)
Definition getenv_default (env : environ) (name default : pystr) : PyVal :=
  match env name with
  | Some v => PStr v
  | None => PStr default
  end.

(** [a or b] *)
Definition py_or (a b : PyVal) : PyVal := if truthy a then a else b.

(** [sep.join(l)] *)
Fixpoint join (sep : pystr) (l : list pystr) : pystr :=
  match l with
  | [] => []
  | [x] => x
  | x :: l' => x ++ sep ++ join sep l'
  end.

(** The attributes [QBOClient.__init__] sets from its arguments and the
    environment; the two callbacks are kept as whether they were given. *)
Record QBOClient : Type :=
  { client_id : PyVal;
    client_secret : PyVal;
    realm_id : PyVal;
    refresh_token : PyVal;
    _access_token : PyVal;
    environment : PyVal;
    _idempotency_checker : bool;
    _idempotency_storer : bool }.

(** The names [_validate_config] collects in [missing]. *)
Definition missing_config (c : QBOClient) : list pystr :=
  (if truthy (client_id c) then [] else [py "QBO_CLIENT_ID or CLIENT_ID"]) ++
  (if truthy (client_secret c) then []
   else [py "QBO_CLIENT_SECRET or CLIENT_SECRET"]) ++
  (if truthy (realm_id c) then [] else [py "realm_id"]) ++
  (if truthy (_access_token c) then [] else [py "access_token"]).

(** [None] when nothing is missing, else the error raised. *)
Definition _validate_config (c : QBOClient) : option Errors.QBOError :=
  match missing_config c with
  | [] => None
  | missing =>
      Some (Errors.AuthenticationError
              (py "Missing required configuration: " ++ join (py ", ") missing)
              (Some [(py "missing_vars", PList (map PStr missing))]))
  end.

Definition __init__ (env : environ)
    (client_id client_secret realm_id access_token refresh_token
       environment : PyVal)
    (idempotency_checker idempotency_storer : bool)
  : Errors.QBOError + QBOClient :=
  let self :=
    {| client_id := py_or (py_or client_id (getenv env (py "QBO_CLIENT_ID")))
                      (getenv env (py "CLIENT_ID"));
       client_secret :=
         py_or (py_or client_secret (getenv env (py "QBO_CLIENT_SECRET")))
           (getenv env (py "CLIENT_SECRET"));
       realm_id := realm_id;
       refresh_token := refresh_token;
       _access_token := access_token;
       environment :=
         py_or (py_or environment (getenv env (py "QBO_ENVIRONMENT")))
           (getenv_default env (py "ENVIRONMENT") (py "sandbox"));
       _idempotency_checker := idempotency_checker;
       _idempotency_storer := idempotency_storer |} in
  match _validate_config self with
  | Some e => inl e
  | None => inr self
  end.

(** [create_qbo_client] as [tools.py] calls it: the other arguments keep
    their default [None]. *)
Definition create_qbo_client (env : environ) (realm_id access_token : PyVal)
    (idempotency_checker idempotency_storer : bool)
  : Errors.QBOError + QBOClient :=
  __init__ env PNone PNone realm_id access_token PNone PNone
    idempotency_checker idempotency_storer.

End Client.

Module Tools.

(** [token] is what [get_access_token()] hands over: the result of
    [verify_token] for the request, or [None].  [idempotency_store] says
    whether a store was passed. *)
Definition _get_qbo_client (env : Client.environ)
    (token : option QBOTokenVerifier.AccessToken) (idempotency_store : bool)
  : Errors.QBOError + Client.QBOClient :=
  match token with
  | None =>
      inl (Errors.ValidationError
             (py "Not authenticated. Please authenticate with QuickBooks first.")
             (Some [(py "error", PStr (py "no_access_token"))]))
  | Some token =>
      let claims := QBOTokenVerifier.claims token in
      let upstream_token :=
        match dict_get claims (py "upstream_access_token") with
        | Some x => x | None => PNone end in
      let realm_id :=
        match dict_get claims (py "realm_id") with
        | Some x => x | None => PNone end in
      if negb (truthy upstream_token)
      then inl (Errors.ValidationError
                  (py "No QuickBooks access token found. Please re-authenticate.")
                  (Some [(py "error", PStr (py "missing_upstream_token"))]))
      else if negb (truthy realm_id)
      then inl (Errors.ValidationError
                  (py "No QuickBooks company (realm_id) found. Please re-authenticate.")
                  (Some [(py "error", PStr (py "missing_realm_id"))]))
      else Client.create_qbo_client env realm_id upstream_token
             idempotency_store idempotency_store
  end.

End Tools.

(* ===================================================================== *)
(** ** Further vocabulary *)
(* ===================================================================== *)

(** A body that [response.json()] finds to be no JSON, or the JSON of a
    value that is no object.  Bodies outside the model (a float, an
    integer of more than 4300 digits, nesting deeper than 100, bytes read
    as UTF-16 or UTF-32) are set apart. *)
Definition not_an_object (body : pystr) : Prop :=
  match Json.loads_utf8 body with
  | Json.Loaded (PDict _) => False
  | Json.Loaded _ => True
  | Json.JSONDecodeError => True
  | Json.OutsideModel => False
  end.

(** What the state scan makes of the text of a state entry: [r] is the
    value it takes for the realm id from that text. *)
Definition state_reading (text : pystr) (r : PyVal) : Prop :=
  match Json.loads text with
  | Json.Loaded (PDict d) => r = get_or d (py "realm_id") PNone
  | Json.Loaded v => option_map PStr (py_str v) = Some r
  | Json.JSONDecodeError => r = PStr text
  | Json.OutsideModel => False
  end.

(** Text without a colon. *)
Definition colon_free (s : pystr) : bool :=
  forallb (fun c => negb (N.eqb c 58)) s.

(** A refresh token as a binding gives it back: none, or text as UTF-8
    can carry it. *)
Definition storable_token (v : PyVal) : bool :=
  match v with
  | PNone => true
  | PStr s => well_formed s
  | _ => false
  end.

(** Whom a verification result speaks for: the client id and the
    [realm_id] claim of the access token, if there is one. *)
Definition identity_of (o : outcome (option QBOTokenVerifier.AccessToken))
  : outcome (option (pystr * option PyVal)) :=
  match o with
  | Returns (Some a) =>
      Returns (Some (QBOTokenVerifier.client_id a,
                     dict_get (QBOTokenVerifier.claims a) (py "realm_id")))
  | Returns None => Returns None
  | Raises e => Raises e
  | Unmodelled => Unmodelled
  end.

(** An environment with the credentials of the OAuth app, and the access
    token of a verified request, for the scenarios. *)
Definition example_env : Client.environ :=
  fun name =>
    if pystr_eqb name (py "QBO_CLIENT_ID") then Some (py "app-id")
    else if pystr_eqb name (py "QBO_CLIENT_SECRET") then Some (py "app-secret")
    else None.

Definition example_token : QBOTokenVerifier.AccessToken :=
  {| QBOTokenVerifier.token := py "tok";
     QBOTokenVerifier.client_id := py "c1";
     QBOTokenVerifier.scopes := [QBO_ACCOUNTING_SCOPE];
     QBOTokenVerifier.claims :=
       [ (py "upstream_access_token", PStr (py "tok"));
         (py "realm_id", PStr (py "123"));
         (py "validated_at", PStr (isoformat exchange_time)) ] |}.

(* ===================================================================== *)
(** ** Text *)
(* ===================================================================== *)

Lemma pystr_eqb_eq (a b : pystr) : pystr_eqb a b = true <-> a = b.
Proof.
  revert b; induction a as [|x a IH]; intros [|y b]; simpl;
    try (split; [discriminate | congruence]); try tauto.
  rewrite andb_true_iff, N.eqb_eq, IH. split.
  - intros [-> ->]; reflexivity.
  - intros H; inversion H; auto.
Qed.

Lemma pystr_eqb_refl (s : pystr) : pystr_eqb s s = true.
Proof. apply pystr_eqb_eq; reflexivity. Qed.

Lemma pystr_eqb_neq (a b : pystr) : a <> b -> pystr_eqb a b = false.
Proof.
  intros H. destruct (pystr_eqb a b) eqn:E; [|reflexivity].
  apply pystr_eqb_eq in E. contradiction.
Qed.

Lemma startswith_app (p s : pystr) : startswith p (p ++ s) = true.
Proof.
  induction p as [|x p IH]; simpl; [reflexivity|].
  rewrite N.eqb_refl, IH. reflexivity.
Qed.

Lemma state_key_not_code (s : pystr) :
  startswith code_prefix (state_prefix ++ s) = false.
Proof. reflexivity. Qed.

Lemma code_key_not_state (s : pystr) :
  startswith state_prefix (code_prefix ++ s) = false.
Proof. reflexivity. Qed.

Lemma client_key_not_state (s : pystr) :
  startswith state_prefix (client_prefix ++ s) = false.
Proof. reflexivity. Qed.

Lemma client_key_not_code (s : pystr) :
  startswith code_prefix (client_prefix ++ s) = false.
Proof. reflexivity. Qed.

(* ===================================================================== *)
(** ** The database *)
(* ===================================================================== *)

Section RedisFacts.

Variable now : N.

Lemma lookup_put_same d k e : Redis.lookup (Redis.put d k e) k = Some e.
Proof.
  induction d as [|[k' e'] d IH]; simpl.
  - rewrite pystr_eqb_refl. reflexivity.
  - destruct (pystr_eqb k' k) eqn:E; simpl; rewrite E; auto.
Qed.

Lemma lookup_put_other d k k' e :
  k' <> k -> Redis.lookup (Redis.put d k e) k' = Redis.lookup d k'.
Proof.
  intros Hne. induction d as [|[k0 e0] d IH]; simpl.
  - rewrite pystr_eqb_neq by congruence. reflexivity.
  - destruct (pystr_eqb k0 k) eqn:E; simpl.
    + apply pystr_eqb_eq in E. subst k0.
      rewrite (pystr_eqb_neq (a:=k) (b:=k')) by congruence. reflexivity.
    + rewrite IH. reflexivity.
Qed.

Lemma lookup_delete_same d k : Redis.lookup (Redis.delete d k) k = None.
Proof.
  induction d as [|[k' e'] d IH]; simpl; [reflexivity|].
  destruct (pystr_eqb k' k) eqn:E; simpl; [assumption|].
  rewrite E. assumption.
Qed.

Lemma lookup_delete_other d k k' :
  k' <> k -> Redis.lookup (Redis.delete d k) k' = Redis.lookup d k'.
Proof.
  intros Hne. induction d as [|[k0 e0] d IH]; simpl; [reflexivity|].
  destruct (pystr_eqb k0 k) eqn:E; simpl.
  - apply pystr_eqb_eq in E. subst k0.
    rewrite (pystr_eqb_neq (a:=k) (b:=k')) by congruence. assumption.
  - rewrite IH. reflexivity.
Qed.

Lemma keys_put_in d k e x :
  In x (map fst (Redis.put d k e)) -> x = k \/ In x (map fst d).
Proof.
  induction d as [|[k' e'] d IH]; simpl.
  - intros [H|[]]; auto.
  - destruct (pystr_eqb k' k) eqn:E; simpl; intros [H|H]; auto.
    destruct (IH H); auto.
Qed.

Lemma wf_put d k e : Redis.wf d -> Redis.wf (Redis.put d k e).
Proof.
  unfold Redis.wf. induction d as [|[k' e'] d IH]; simpl; intros H.
  - constructor; [intros []|constructor].
  - inversion H as [|? ? Hnin Hnd]; subst.
    destruct (pystr_eqb k' k) eqn:E; simpl.
    + constructor; assumption.
    + constructor; [|auto].
      intros Hin. apply keys_put_in in Hin. destruct Hin as [->|Hin].
      * rewrite pystr_eqb_refl in E. discriminate.
      * contradiction.
Qed.

Lemma wf_delete d k : Redis.wf d -> Redis.wf (Redis.delete d k).
Proof.
  unfold Redis.wf, Redis.delete. induction d as [|[k' e'] d IH]; simpl; intros H.
  - constructor.
  - inversion H as [|? ? Hnin Hnd]; subst.
    destruct (pystr_eqb k' k); simpl; [auto|].
    constructor; [|auto].
    intros Hin. apply Hnin.
    apply in_map_iff in Hin. destruct Hin as [[k0 e0] [Hk Hin]].
    apply filter_In in Hin. destruct Hin as [Hin _].
    apply in_map_iff. exists (k0, e0). auto.
Qed.

Lemma count_absent d k : ~ In k (map fst d) -> Redis.count d k = 0%nat.
Proof.
  unfold Redis.count. induction d as [|[k' e'] d IH]; simpl; intros H.
  - reflexivity.
  - destruct (pystr_eqb k' k) eqn:E.
    + apply pystr_eqb_eq in E. subst. exfalso. apply H. auto.
    + apply IH. intros Hin. apply H. auto.
Qed.

Lemma count_put d k e : Redis.wf d -> Redis.count (Redis.put d k e) k = 1%nat.
Proof.
  unfold Redis.wf. induction d as [|[k' e'] d IH]; simpl; intros H.
  - unfold Redis.count. simpl. rewrite pystr_eqb_refl. reflexivity.
  - inversion H as [|? ? Hnin Hnd]; subst.
    destruct (pystr_eqb k' k) eqn:E.
    + apply pystr_eqb_eq in E. subst k'.
      unfold Redis.count. simpl. rewrite pystr_eqb_refl. simpl.
      f_equal. apply count_absent. assumption.
    + unfold Redis.count. simpl. rewrite E. apply (IH Hnd).
Qed.

Lemma scan_cons d prefix k e :
  Redis.scan_iter now ((k, e) :: d) prefix =
  if startswith prefix k && Redis.live now e
  then k :: Redis.scan_iter now d prefix
  else Redis.scan_iter now d prefix.
Proof.
  unfold Redis.scan_iter. simpl.
  destruct (startswith prefix k && Redis.live now e); reflexivity.
Qed.

Lemma scan_nil_inv d prefix k e :
  Redis.scan_iter now ((k, e) :: d) prefix = [] ->
  startswith prefix k && Redis.live now e = false /\
  Redis.scan_iter now d prefix = [].
Proof.
  rewrite scan_cons.
  destruct (startswith prefix k && Redis.live now e).
  - discriminate.
  - auto.
Qed.

Lemma scan_put_fresh d prefix k e :
  Redis.scan_iter now d prefix = [] ->
  startswith prefix k = true -> Redis.live now e = true ->
  Redis.scan_iter now (Redis.put d k e) prefix = [k].
Proof.
  intros Hnil Hp Hl. induction d as [|[k' e'] d IH]; simpl.
  - rewrite scan_cons, Hp, Hl. reflexivity.
  - apply scan_nil_inv in Hnil. destruct Hnil as [Hc Hnil].
    destruct (pystr_eqb k' k) eqn:E.
    + apply pystr_eqb_eq in E. subst k'.
      rewrite scan_cons, Hp, Hl, Hnil. reflexivity.
    + rewrite scan_cons, Hc. apply IH. assumption.
Qed.

Lemma scan_put_other d prefix k e :
  startswith prefix k = false ->
  Redis.scan_iter now (Redis.put d k e) prefix = Redis.scan_iter now d prefix.
Proof.
  intros Hp. induction d as [|[k' e'] d IH]; simpl.
  - rewrite scan_cons, Hp. reflexivity.
  - destruct (pystr_eqb k' k) eqn:E.
    + apply pystr_eqb_eq in E. subst k'.
      rewrite !scan_cons, Hp. reflexivity.
    + rewrite !scan_cons, IH. reflexivity.
Qed.

Lemma scan_in_get d prefix k :
  In k (Redis.scan_iter now d prefix) ->
  startswith prefix k = true /\ exists e, In (k, e) d.
Proof.
  unfold Redis.scan_iter. intros Hin.
  apply in_map_iff in Hin. destruct Hin as [[k0 e0] [Hk Hin]].
  simpl in Hk. subst k0. apply filter_In in Hin. destruct Hin as [Hin Hc].
  simpl in Hc. apply andb_true_iff in Hc. split; [tauto|]. eauto.
Qed.

End RedisFacts.

(* ===================================================================== *)
(** ** Decimal text and [json.loads] on digits *)
(* ===================================================================== *)

Arguments Json.match_number : simpl never.
Arguments Json.scanstring : simpl never.
Arguments Json.skip_ws : simpl never.
Arguments Redis.scan_iter : simpl never.

Lemma digit_cases (c : N) :
  Json.is_digit c = true ->
  (c = 48 \/ c = 49 \/ c = 50 \/ c = 51 \/ c = 52 \/
   c = 53 \/ c = 54 \/ c = 55 \/ c = 56 \/ c = 57)%N.
Proof.
  unfold Json.is_digit. rewrite andb_true_iff, !N.leb_le. lia.
Qed.

Ltac digit_split c H :=
  destruct (digit_cases c H)
    as [->|[->|[->|[->|[->|[->|[->|[->|[->| ->]]]]]]]]].

Lemma digits_of_uint_of_digits (ds : pystr) :
  all_digits ds = true -> digits_of_uint (uint_of_digits ds) = ds.
Proof.
  induction ds as [|c ds IH]; simpl; [reflexivity|].
  rewrite andb_true_iff. intros [Hc Hds].
  digit_split c Hc; simpl; rewrite IH by assumption; reflexivity.
Qed.

Lemma unorm_no_leading_zero (c : N) (ds : pystr) :
  Json.is_digit c = true -> c <> 48%N ->
  Decimal.unorm (uint_of_digits (c :: ds)) = uint_of_digits (c :: ds).
Proof.
  intros Hc Hz. digit_split c Hc; try reflexivity. congruence.
Qed.

Lemma str_of_Z_of_N (n : N) :
  str_of_Z (Z.of_N n) = digits_of_uint (N.to_uint n).
Proof. destruct n; reflexivity. Qed.

(** Printing the integer read from a digit text without a leading zero
    gives the text back. *)
Lemma str_of_int_of_digits (c : N) (ds : pystr) :
  all_digits (c :: ds) = true -> c <> 48%N ->
  str_of_Z (int_of_digits false (c :: ds)) = c :: ds.
Proof.
  intros Hall Hz. unfold int_of_digits.
  rewrite str_of_Z_of_N, DecimalN.Unsigned.to_of.
  assert (Hc : Json.is_digit c = true).
  { simpl in Hall. apply andb_true_iff in Hall. tauto. }
  rewrite unorm_no_leading_zero by assumption.
  apply digits_of_uint_of_digits. assumption.
Qed.

Lemma span_digits_all (ds : pystr) :
  all_digits ds = true -> Json.span_digits ds = (ds, []).
Proof.
  induction ds as [|c ds IH]; simpl; [reflexivity|].
  rewrite andb_true_iff. intros [Hc Hds].
  rewrite Hc, IH by assumption. reflexivity.
Qed.

Lemma has_frac_digits (ds : pystr) :
  all_digits ds = true -> Json.has_frac ds = false.
Proof.
  destruct ds as [|c [|d ds]]; simpl; try reflexivity.
  rewrite !andb_true_iff. intros [Hc _].
  digit_split c Hc; reflexivity.
Qed.

Lemma has_exp_digits (ds : pystr) :
  all_digits ds = true -> Json.has_exp ds = false.
Proof.
  destruct ds as [|c ds]; simpl; try reflexivity.
  rewrite !andb_true_iff. intros [Hc _].
  digit_split c Hc; reflexivity.
Qed.

Lemma skip_ws_digit (c : N) (r : pystr) :
  Json.is_digit c = true -> Json.skip_ws (c :: r) = c :: r.
Proof.
  intros Hc. digit_split c Hc; reflexivity.
Qed.

Lemma match_number_digits (c : N) (ds : pystr) :
  all_digits (c :: ds) = true -> c <> 48%N ->
  Json.match_number (c :: ds) = Json.NumInt false (c :: ds) [].
Proof.
  simpl. rewrite andb_true_iff. intros [Hc Hds] Hz.
  unfold Json.match_number, Json.match_integer.
  assert (H45 : (c =? 45)%N = false) by (digit_split c Hc; reflexivity).
  rewrite H45. apply N.eqb_neq in Hz. rewrite Hz, Hc.
  rewrite span_digits_all by assumption. reflexivity.
Qed.

Lemma match_number_zero (ds : pystr) :
  all_digits ds = true ->
  Json.match_number (48%N :: ds) = Json.NumInt false [48%N] ds.
Proof.
  intros Hds. unfold Json.match_number, Json.match_integer. simpl.
  rewrite has_frac_digits, has_exp_digits by assumption. reflexivity.
Qed.

(** A value that starts with a digit is a number. *)
Lemma parse_value_number fuel depth c r neg ds rest :
  Json.is_digit c = true ->
  Json.match_number (c :: r) = Json.NumInt neg ds rest ->
  Json.parse_value (S fuel) depth (c :: r) =
  if Nat.leb (List.length ds) Json.max_int_digits
  then Json.Parsed (PInt (int_of_digits neg ds)) rest
  else Json.Beyond.
Proof.
  intros Hc Hm.
  digit_split c Hc; simpl; rewrite Hm; reflexivity.
Qed.

Lemma loads_fuel (s : pystr) :
  exists fuel, (2 * List.length s + 2 = S fuel)%nat.
Proof. exists (2 * List.length s + 1)%nat. lia. Qed.

Lemma loads_digits (c : N) (ds : pystr) :
  all_digits (c :: ds) = true -> c <> 48%N ->
  (List.length (c :: ds) <= Json.max_int_digits)%nat ->
  Json.loads (c :: ds) = Json.Loaded (PInt (int_of_digits false (c :: ds))).
Proof.
  intros Hall Hz Hlen. unfold Json.loads.
  assert (Hc : Json.is_digit c = true).
  { simpl in Hall. apply andb_true_iff in Hall. tauto. }
  rewrite skip_ws_digit by assumption.
  destruct (loads_fuel (c :: ds)) as [fuel ->].
  erewrite parse_value_number;
    [| assumption | apply match_number_digits; assumption].
  apply Nat.leb_le in Hlen. rewrite Hlen. reflexivity.
Qed.

Lemma loads_zero : Json.loads [48%N] = Json.Loaded (PInt 0).
Proof. reflexivity. Qed.

Lemma loads_leading_zero (d : N) (ds : pystr) :
  all_digits (d :: ds) = true ->
  Json.loads (48%N :: d :: ds) = Json.JSONDecodeError.
Proof.
  intros Hall. unfold Json.loads.
  rewrite skip_ws_digit by reflexivity.
  destruct (loads_fuel (48%N :: d :: ds)) as [fuel ->].
  erewrite parse_value_number;
    [| reflexivity | apply match_number_zero; assumption].
  simpl Nat.leb.
  assert (Hd : Json.is_digit d = true).
  { simpl in Hall. apply andb_true_iff in Hall. tauto. }
  change (Nat.leb 1 Json.max_int_digits) with true. cbv iota.
  rewrite skip_ws_digit by assumption. reflexivity.
Qed.

(* ===================================================================== *)
(** ** The callback handler *)
(* ===================================================================== *)

Import QuickBooksOAuthProxy.
Arguments str_of_Z : simpl never.

Lemma call_parent_run {R} (p : parent_result R) (w : world) :
  call_parent p w = (parent_outcome p, w).
Proof. destruct p; reflexivity. Qed.

Lemma world_eta (w : world) : {| store := store w; trace := trace w |} = w.
Proof. destruct w; reflexivity. Qed.

(** The handler makes the writes of [callback_writes], in that order, and
    hands over to the wrapped method. *)
Lemma callback_run {R} (now : instant) (request : Request)
    (parent : parent_result R) (w : world) :
  _handle_idp_callback now request parent w =
  (parent_outcome parent,
   {| store := apply_writes (seconds now) (store w) (callback_writes request);
      trace := trace w ++ callback_writes request |}).
Proof.
  destruct request as [[[|c1 r1]|] [[|c2 r2]|] [[|c3 r3]|]];
    unfold _handle_idp_callback, callback_writes, bind, ret,
      _store_realm_by_state, redis_setex;
    simpl; rewrite call_parent_run; simpl;
    rewrite <- ?app_assoc, ?app_nil_r, ?world_eta; reflexivity.
Qed.

Lemma callback_writes_length (request : Request) :
  (List.length (callback_writes request) <= 2)%nat.
Proof.
  destruct request as [[[|c1 r1]|] [[|c2 r2]|] [[|c3 r3]|]]; simpl; lia.
Qed.

(* ===================================================================== *)
(** ** The code exchange *)
(* ===================================================================== *)

Lemma all_digits_tail (c : N) (ds : pystr) :
  all_digits (c :: ds) = true ->
  Json.is_digit c = true /\ all_digits ds = true.
Proof. simpl. rewrite andb_true_iff. tauto. Qed.

(** A digit text is either no JSON (a leading zero) or the JSON of the
    integer that prints as that text. *)
Lemma loads_all_digits (t : pystr) :
  all_digits t = true -> t <> [] ->
  (List.length t <= Json.max_int_digits)%nat ->
  Json.loads t = Json.JSONDecodeError \/
  exists z, Json.loads t = Json.Loaded (PInt z) /\ str_of_Z z = t.
Proof.
  intros Hall Hne Hlen. destruct t as [|c ds]; [congruence|].
  destruct (N.eq_dec c 48) as [->|Hz].
  - destruct ds as [|d ds].
    + right. exists 0%Z. split; reflexivity.
    + left. apply loads_leading_zero.
      apply all_digits_tail in Hall. tauto.
  - right. exists (int_of_digits false (c :: ds)). split.
    + apply loads_digits; assumption.
    + apply str_of_int_of_digits; assumption.
Qed.

Lemma loads_kept (t : pystr) :
  kept_by_state_scan t -> t <> [] ->
  Json.loads t = Json.JSONDecodeError \/
  exists z, Json.loads t = Json.Loaded (PInt z) /\ str_of_Z z = t.
Proof.
  intros [H|[Hall Hlen]] Hne; [left; assumption|].
  apply loads_all_digits; assumption.
Qed.

(** The state scan takes such a text as it stands and deletes its key. *)
Lemma scan_state_entries_kept now key keys r0 t w :
  Redis.get (seconds now) (store w) key = Some t ->
  kept_by_state_scan t -> t <> [] ->
  scan_state_entries now (key :: keys) r0 w =
  (Returns (PStr t),
   {| store := Redis.delete (store w) key;
      trace := trace w ++ [GET key; DEL key] |}).
Proof.
  intros Hget Hkept Hne.
  cbn [scan_state_entries]. unfold bind at 1. unfold redis_get.
  rewrite Hget. destruct t as [|c v]; [congruence|].
  destruct (loads_kept Hkept Hne) as [E|[z [E Hz]]]; rewrite E.
  - unfold bind, redis_delete, ret. cbn [store trace].
    rewrite <- app_assoc. reflexivity.
  - cbn [py_str py_repr]. rewrite Hz. cbn [truthy].
    unfold bind, redis_delete, ret. cbn [store trace].
    rewrite <- app_assoc. reflexivity.
Qed.

(** With one live state key that holds such a text, the exchange resolves
    that text and stops before the code scan. *)
Lemma resolve_realm_single_state now key t w :
  Redis.scan_iter (seconds now) (store w) state_prefix = [key] ->
  Redis.get (seconds now) (store w) key = Some t ->
  kept_by_state_scan t -> t <> [] ->
  resolve_realm now w =
  (Returns (PStr t),
   {| store := Redis.delete (store w) key;
      trace := trace w ++ [SCAN state_prefix; GET key; DEL key] |}).
Proof.
  intros Hscan Hget Hkept Hne.
  unfold resolve_realm, method_1. unfold bind at 1. unfold bind at 1.
  unfold redis_scan_iter. rewrite Hscan.
  erewrite scan_state_entries_kept; try eassumption.
  cbn [store trace]. destruct t as [|c v]; [congruence|].
  cbn [truthy negb]. unfold ret. rewrite <- app_assoc. reflexivity.
Qed.

Lemma state_key_neq_code_key (s c : pystr) :
  state_prefix ++ s <> code_prefix ++ c.
Proof.
  intros H. pose proof (startswith_app code_prefix c) as Hc.
  rewrite <- H, state_key_not_code in Hc. discriminate.
Qed.


Lemma client_key_neq_code_key (c s : pystr) :
  code_prefix ++ s <> client_prefix ++ c.
Proof.
  intros H. pose proof (startswith_app code_prefix s) as Hc.
  rewrite H, client_key_not_code in Hc. discriminate.
Qed.

Lemma get_put_same now d k v t :
  Redis.live now {| Redis.value := v; Redis.expires_at := t |} = true ->
  Redis.get now (Redis.put d k {| Redis.value := v; Redis.expires_at := t |}) k
  = Some v.
Proof.
  intros Hl. unfold Redis.get. rewrite lookup_put_same, Hl. reflexivity.
Qed.

Lemma get_put_other now d k k' e :
  k' <> k -> Redis.get now (Redis.put d k e) k' = Redis.get now d k'.
Proof.
  intros Hne. unfold Redis.get. rewrite lookup_put_other by assumption.
  reflexivity.
Qed.

Lemma live_within (t0 t1 ttl : N) (v : pystr) :
  (t1 < t0 + ttl)%N ->
  Redis.live t1 {| Redis.value := v; Redis.expires_at := Some (t0 + ttl)%N |}
  = true.
Proof. intros H. unfold Redis.live. simpl. apply N.leb_le. lia. Qed.

(** After a callback with [state] and [realmId], into a database without
    a live state key, the state scan sees the one key of the callback. *)
Lemma callback_state_entry {R} (t0 : instant) (t1 : N) (st tenant : pystr)
    (cd : option pystr) (pc : parent_result R) (w0 : world) :
  st <> [] -> tenant <> [] ->
  (t1 < seconds t0 + 600)%N ->
  no_live_key t1 (store w0) state_prefix ->
  let w1 := snd (_handle_idp_callback t0
                   {| realmId := Some tenant; state := Some st; code := cd |}
                   pc w0) in
  Redis.scan_iter t1 (store w1) state_prefix = [state_prefix ++ st] /\
  Redis.get t1 (store w1) (state_prefix ++ st) = Some tenant.
Proof.
  intros Hst Hten Ht Hno. rewrite callback_run. cbn [snd store].
  destruct st as [|x s]; [congruence|]. destruct tenant as [|c r]; [congruence|].
  unfold callback_writes. cbn [realmId state code].
  assert (Hscan : Redis.scan_iter t1
            (Redis.setex (seconds t0) (store w0) (state_prefix ++ x :: s) 600
               (c :: r)) state_prefix = [state_prefix ++ x :: s]).
  { apply scan_put_fresh; auto using startswith_app, live_within. }
  assert (Hget : Redis.get t1
            (Redis.setex (seconds t0) (store w0) (state_prefix ++ x :: s) 600
               (c :: r)) (state_prefix ++ x :: s) = Some (c :: r)).
  { apply get_put_same. apply live_within. assumption. }
  destruct cd as [[|y z]|]; cbn [app apply_writes]; auto.
  unfold Redis.setex at 1 3. split.
  - rewrite scan_put_other by apply code_key_not_state. assumption.
  - rewrite get_put_other by apply state_key_neq_code_key. assumption.
Qed.

(** The whole exchange, given what [resolve_realm] does. *)
Lemma exchange_run {R} (now : instant) code_store (client : pystr)
    (authorization_code : pystr) (r : R) (realm : PyVal) (w w' : world) :
  client <> [] -> truthy realm = true ->
  resolve_realm now w = (Returns realm, w') ->
  exchange_authorization_code now code_store (Some client)
    authorization_code (ParentReturns r) w =
  (Returns r,
   {| store := Redis.set (store w') (client_prefix ++ client)
                 (Json.dumps
                    (binding_record now realm
                       (idp_refresh_token (code_store authorization_code))));
      trace := trace w' ++
               [SET (client_prefix ++ client)
                  (Json.dumps
                     (binding_record now realm
                        (idp_refresh_token (code_store authorization_code))))]
   |}).
Proof.
  intros Hc Htr Hres. unfold exchange_authorization_code.
  unfold bind at 1. rewrite Hres.
  unfold bind at 1. cbn [call_parent ret]. rewrite Htr.
  destruct client as [|x c]; [congruence|]. cbn [present andb].
  reflexivity.
Qed.




(** C9: the handler makes exactly the writes listed for the callback, in
    that order and each with a life of 600 seconds: the state-keyed entry
    when [realmId] and [state] are both there (given and not empty), then
    the code-keyed entry when [realmId] and [code] are both there; nothing
    without [realmId]; two writes at most; and the call always ends as the
    wrapped handler ends. *)
Theorem callback_writes_exact {R} (now : instant) (request : Request)
    (parent : parent_result R) (w : world) :
  let res := _handle_idp_callback now request parent w in
  let writes := callback_writes request in
  fst res = parent_outcome parent /\
  trace (snd res) = trace w ++ writes /\
  store (snd res) = apply_writes (seconds now) (store w) writes /\
  (List.length writes <= 2)%nat /\
  writes =
    (if present (realmId request) && present (state request)
     then [SETEX (state_prefix ++ match state request with
                                  | Some s => s | None => [] end)
             600 (match realmId request with Some t => t | None => [] end)]
     else []) ++
    (if present (realmId request) && present (code request)
     then [SETEX (code_prefix ++ match code request with
                                 | Some c => c | None => [] end)
             600 (match realmId request with Some t => t | None => [] end)]
     else []) /\
  (if present (realmId request) then True else writes = []).
Proof.
  cbv zeta. rewrite callback_run. cbn [fst snd store trace].
  repeat split.
  - apply callback_writes_length.
  - destruct request as [[[|c1 r1]|] [[|c2 r2]|] [[|c3 r3]|]]; reflexivity.
  - destruct request as [[[|c1 r1]|] [[|c2 r2]|] [[|c3 r3]|]];
      simpl; auto.
Qed.

(** What one pass of the state scan can have done: deleted the key it
    resolved from, or left the database as it was and no realm id that
    counts. *)
Lemma scan_state_entries_inv now keys :
  forall r0 w r w',
    scan_state_entries now keys r0 w = (Returns r, w') ->
    (exists key, In key keys /\
                 store w' = Redis.delete (store w) key /\ truthy r = true) \/
    (store w' = store w /\ (r = r0 \/ truthy r = false)).
Proof.
  induction keys as [|key keys IH]; intros r0 w r w' H.
  - cbn in H. inversion H; subst. right. auto.
  - cbn [scan_state_entries] in H. unfold bind at 1 in H.
    unfold redis_get in H.
    assert (Hcont : forall r1,
               scan_state_entries now keys r1
                 {| store := store w; trace := trace w ++ [GET key] |}
               = (Returns r, w') ->
               (r1 = r0 \/ truthy r1 = false) ->
               (exists k, In k (key :: keys) /\
                          store w' = Redis.delete (store w) k /\
                          truthy r = true) \/
               (store w' = store w /\ (r = r0 \/ truthy r = false))).
    { intros r1 H1 Hr1. apply IH in H1. cbn [store] in H1.
      destruct H1 as [[k [Hin [Hs Ht]]]|[Hs Hr]].
      - left. exists k. simpl. auto.
      - right. split; [assumption|].
        destruct Hr as [->|Hr]; [|auto].
        destruct Hr1 as [->|Hr1]; auto. }
    assert (Hdel : forall r1,
               (redis_delete key ;;; ret r1)
                 {| store := store w; trace := trace w ++ [GET key] |}
               = (Returns r, w') ->
               truthy r1 = true ->
               (exists k, In k (key :: keys) /\
                          store w' = Redis.delete (store w) k /\
                          truthy r = true) \/
               (store w' = store w /\ (r = r0 \/ truthy r = false))).
    { intros r1 H1 Hr1. unfold bind, redis_delete, ret in H1.
      cbn [store trace] in H1. inversion H1; subst.
      left. exists key. simpl. auto. }
    destruct (Redis.get (seconds now) (store w) key) as [[|c v]|].
    + apply (Hcont r0); auto.
    + destruct (Json.loads (c :: v)) as [rv| |].
      * destruct rv as [|b|z|s|l|d].
        all: try (cbn [py_str py_repr] in H;
                  match type of H with
                  | context [match ?o with Some _ => _ | None => _ end] =>
                      destruct o as [t|] eqn:Eo; [|discriminate H]
                  | _ => idtac
                  end;
                  match type of H with
                  | context [truthy ?x] =>
                      destruct (truthy x) eqn:Et;
                      [apply (Hdel x); assumption
                      |apply (Hcont x); auto]
                  end).
      * apply (Hdel (PStr (c :: v))); [assumption|reflexivity].
      * discriminate H.
    + apply (Hcont r0); auto.
Qed.

Lemma scan_code_entries_inv now keys :
  forall r0 w r w',
    scan_code_entries now keys r0 w = (Returns r, w') ->
    (exists key, In key keys /\
                 store w' = Redis.delete (store w) key /\ truthy r = true) \/
    (store w' = store w /\ r = r0).
Proof.
  induction keys as [|key keys IH]; intros r0 w r w' H.
  - cbn in H. inversion H; subst. right. auto.
  - cbn [scan_code_entries] in H. unfold bind at 1 in H.
    unfold redis_get in H.
    destruct (Redis.get (seconds now) (store w) key) as [[|c v]|].
    + apply IH in H. cbn [store] in H.
      destruct H as [[k [Hin [Hs Ht]]]|[Hs Hr]]; [left|right; auto].
      exists k. simpl. auto.
    + unfold bind, redis_delete, ret in H. cbn [store trace] in H.
      inversion H; subst. left. exists key. simpl. auto.
    + apply IH in H. cbn [store] in H.
      destruct H as [[k [Hin [Hs Ht]]]|[Hs Hr]]; [left|right; auto].
      exists k. simpl. auto.
Qed.

Lemma method_1_inv now w r w' :
  method_1 now w = (Returns r, w') ->
  (exists key, In key (Redis.scan_iter (seconds now) (store w) state_prefix) /\
               store w' = Redis.delete (store w) key /\ truthy r = true) \/
  (store w' = store w /\ truthy r = false).
Proof.
  unfold method_1. unfold bind at 1. unfold redis_scan_iter.
  intros H. apply scan_state_entries_inv in H. cbn [store] in H.
  destruct H as [H|[Hs [->|Hr]]]; auto.
Qed.

Lemma method_2_inv now r0 w r w' :
  method_2 now r0 w = (Returns r, w') ->
  (exists key, In key (Redis.scan_iter (seconds now) (store w) code_prefix) /\
               store w' = Redis.delete (store w) key /\ truthy r = true) \/
  (store w' = store w /\ r = r0).
Proof.
  unfold method_2. unfold bind at 1. unfold redis_scan_iter.
  intros H. apply scan_code_entries_inv in H. cbn [store] in H. assumption.
Qed.

Lemma scan_code_entries_first now keys :
  forall r0 w key v,
    first_nonempty (seconds now) (store w) keys = Some (key, v) ->
    exists w2, scan_code_entries now keys r0 w = (Returns (PStr v), w2) /\
               store w2 = Redis.delete (store w) key.
Proof.
  induction keys as [|k keys IH]; intros r0 w key v H.
  - discriminate H.
  - cbn [first_nonempty] in H. cbn [scan_code_entries].
    unfold bind at 1. unfold redis_get.
    destruct (Redis.get (seconds now) (store w) k) as [[|c t]|].
    + apply (IH r0 {| store := store w; trace := trace w ++ [GET k] |}).
      assumption.
    + inversion H; subst. eexists. split; reflexivity.
    + apply (IH r0 {| store := store w; trace := trace w ++ [GET k] |}).
      assumption.
Qed.

Lemma scan_key_in now d prefix k :
  In k (Redis.scan_iter now d prefix) ->
  startswith prefix k = true /\ In k (map fst d).
Proof.
  intros H. apply scan_in_get in H. destruct H as [Hp [e He]].
  split; [assumption|]. apply in_map_iff. exists (k, e). auto.
Qed.

Lemma first_nonempty_in now d keys key v :
  first_nonempty now d keys = Some (key, v) -> In key keys /\ v <> [].
Proof.
  induction keys as [|k keys IH]; simpl; [discriminate|].
  destruct (Redis.get now d k) as [[|c t]|]; intros H.
  - destruct (IH H). auto.
  - inversion H; subst. split; [auto|discriminate].
  - destruct (IH H). auto.
Qed.

(** C2, as stated, fails: the code scan does not look the authorization
    code up.  An exchange for the code ["abc123"] takes the entry that a
    callback wrote under the code ["zzz"], the only one there is. *)
Lemma exchange_takes_foreign_code_entry :
  let w1 := snd (_handle_idp_callback callback_time
                   {| realmId := Some (py "999"); state := None;
                      code := Some (py "zzz") |}
                   (ParentReturns tt) empty_world) in
  let res := exchange_authorization_code exchange_time (fun _ => None)
               (Some (py "c1")) (py "abc123") (ParentReturns tt) w1 in
  Redis.lookup (store w1) (code_prefix ++ py "abc123") = None /\
  Redis.get (seconds exchange_time) (store w1) (code_prefix ++ py "zzz")
    = Some (py "999") /\
  fst (resolve_realm exchange_time w1) = Returns (PStr (py "999")) /\
  Redis.lookup (store (snd res)) (code_prefix ++ py "zzz") = None /\
  Redis.get (seconds exchange_time) (store (snd res))
    (client_prefix ++ py "c1")
  = Some (Json.dumps (binding_record exchange_time (PStr (py "999")) PNone)).
Proof. vm_compute. repeat split; reflexivity. Qed.

(** C2 (amended): when the state scan resolves no realm id, the exchange
    takes the first live code-prefixed entry with a non-empty text in scan
    order, whichever code it is keyed by and whichever authorization code
    is exchanged, deletes that entry and binds its text to the client. *)
Theorem code_fallback_takes_first_entry
    {R} (now : instant) (w w1 : world) (r1 : PyVal) (key v : pystr)
    (code_store : pystr -> option CodeModel)
    (client authorization_code : pystr) (r : R) :
  method_1 now w = (Returns r1, w1) ->
  truthy r1 = false ->
  first_nonempty (seconds now) (store w)
    (Redis.scan_iter (seconds now) (store w) code_prefix) = Some (key, v) ->
  client <> [] ->
  let res := exchange_authorization_code now code_store (Some client)
               authorization_code (ParentReturns r) w in
  startswith code_prefix key = true /\
  fst (resolve_realm now w) = Returns (PStr v) /\
  store (snd (resolve_realm now w)) = Redis.delete (store w) key /\
  fst res = Returns r /\
  Redis.lookup (store (snd res)) key = None /\
  Redis.get (seconds now) (store (snd res)) (client_prefix ++ client)
  = Some (Json.dumps
            (binding_record now (PStr v)
               (idp_refresh_token (code_store authorization_code)))).
Proof.
  intros Hm1 Hr1 Hfirst Hcl res.
  pose proof Hfirst as Hin. apply first_nonempty_in in Hin.
  destruct Hin as [Hin Hv].
  pose proof Hin as Hpre. apply scan_key_in in Hpre.
  destruct Hpre as [Hpre _].
  assert (Hs1 : store w1 = store w).
  { pose proof Hm1 as Hx. apply method_1_inv in Hx.
    destruct Hx as [[k [_ [_ Ht]]]|[Hs _]]; [congruence|auto]. }
  assert (Hres : exists w2, resolve_realm now w = (Returns (PStr v), w2) /\
                            store w2 = Redis.delete (store w) key).
  { unfold resolve_realm. unfold bind at 1. rewrite Hm1, Hr1. cbn [negb].
    unfold method_2. unfold bind at 1. unfold redis_scan_iter.
    rewrite Hs1.
    destruct (@scan_code_entries_first now
                (Redis.scan_iter (seconds now) (store w) code_prefix) r1
                {| store := store w;
                   trace := trace w1 ++ [SCAN code_prefix] |} key v)
      as [w2 [Hf Hs]]; [assumption|].
    exists w2. auto. }
  destruct Hres as [w2 [Hres Hs2]].
  assert (Htr : truthy (PStr v) = true).
  { destruct v; [congruence|reflexivity]. }
  subst res.
  rewrite (@exchange_run R now code_store client authorization_code r
             (PStr v) w w2 Hcl Htr Hres).
  rewrite Hres. cbn [fst snd store]. repeat split; try assumption.
  - unfold Redis.set. rewrite lookup_put_other.
    + rewrite Hs2. apply lookup_delete_same.
    + intros E. pose proof (startswith_app client_prefix client) as Hc.
      rewrite <- E in Hc.
      assert (Hx : startswith code_prefix (client_prefix ++ client) = true)
        by (rewrite <- E; assumption).
      rewrite client_key_not_code in Hx. discriminate.
  - unfold Redis.set. apply get_put_same. reflexivity.
Qed.

Lemma code_fallback_takes_first_entry_witness :
  let w1 := snd (_handle_idp_callback callback_time
                   {| realmId := Some (py "456"); state := None;
                      code := Some (py "abc123") |}
                   (ParentReturns tt) empty_world) in
  let res := exchange_authorization_code exchange_time (fun _ => None)
               (Some (py "c1")) (py "abc123") (ParentReturns tt) w1 in
  startswith code_prefix (code_prefix ++ py "abc123") = true /\
  fst (resolve_realm exchange_time w1) = Returns (PStr (py "456")) /\
  store (snd (resolve_realm exchange_time w1))
    = Redis.delete (store w1) (code_prefix ++ py "abc123") /\
  fst res = Returns tt /\
  Redis.lookup (store (snd res)) (code_prefix ++ py "abc123") = None /\
  Redis.get (seconds exchange_time) (store (snd res))
    (client_prefix ++ py "c1")
  = Some (Json.dumps (binding_record exchange_time (PStr (py "456")) PNone)).
Proof.
  intros w1 res.
  apply (@code_fallback_takes_first_entry unit exchange_time w1
           {| store := store w1; trace := trace w1 ++ [SCAN state_prefix] |}
           PNone (code_prefix ++ py "abc123") (py "456")
           (fun _ => None) (py "c1") (py "abc123") tt).
  - reflexivity.
  - reflexivity.
  - reflexivity.
  - discriminate.
Defined.

(** C6, as stated, fails: a callback with [state] and [code] writes two
    entries; the exchange resolves from the state entry, deletes that one
    and stops, and the code entry is still live afterwards. *)
Lemma exchange_leaves_code_entry :
  let w1 := snd (_handle_idp_callback callback_time
                   {| realmId := Some (py "123"); state := Some (py "s1");
                      code := Some (py "abc") |}
                   (ParentReturns tt) empty_world) in
  let res := exchange_authorization_code exchange_time (fun _ => None)
               (Some (py "c1")) (py "code-1") (ParentReturns tt) w1 in
  fst (resolve_realm exchange_time w1) = Returns (PStr (py "123")) /\
  fst res = Returns tt /\
  Redis.get (seconds exchange_time) (store (snd res))
    (state_prefix ++ py "s1") = None /\
  Redis.get (seconds exchange_time) (store (snd res))
    (code_prefix ++ py "abc") = Some (py "123").
Proof. vm_compute. repeat split; reflexivity. Qed.

(** The database after the whole exchange is the one after the lookup,
    plus at most the binding under a client key. *)
Lemma exchange_store {R} (now : instant) code_store (client_id : option pystr)
    (authorization_code : pystr) (parent : parent_result R) (w w1 : world)
    (r : PyVal) :
  resolve_realm now w = (Returns r, w1) ->
  exists o w2,
    exchange_authorization_code now code_store client_id
      authorization_code parent w = (o, w2) /\
    (store w2 = store w1 \/
     exists c text, store w2 = Redis.set (store w1) (client_prefix ++ c) text).
Proof.
  intros H. unfold exchange_authorization_code.
  unfold bind at 1. rewrite H. destruct parent as [x|].
  - unfold bind at 1. cbn [call_parent ret].
    destruct (truthy r && present client_id).
    + destruct client_id as [c|].
      * eexists. eexists. split; [reflexivity|]. right.
        eexists. eexists. reflexivity.
      * eexists. eexists. split; [reflexivity|]. left. reflexivity.
    + eexists. eexists. split; [reflexivity|]. left. reflexivity.
  - eexists. eexists. split; [reflexivity|]. left. reflexivity.
Qed.

(** The state scan that returns a true realm id read it from the text of
    one of its keys, and deleted that key. *)
Lemma scan_state_entries_source now keys :
  forall r0 w r w',
    scan_state_entries now keys r0 w = (Returns r, w') ->
    (exists key text,
        In key keys /\
        Redis.get (seconds now) (store w) key = Some text /\
        state_reading text r /\ truthy r = true /\
        store w' = Redis.delete (store w) key) \/
    (store w' = store w /\ (r = r0 \/ truthy r = false)).
Proof.
  induction keys as [|key keys IH]; intros r0 w r w' H.
  - cbn in H. inversion H; subst. right. auto.
  - cbn [scan_state_entries] in H. unfold bind at 1 in H.
    unfold redis_get in H.
    assert (Hcont : forall r1,
               scan_state_entries now keys r1
                 {| store := store w; trace := trace w ++ [GET key] |}
               = (Returns r, w') ->
               (r1 = r0 \/ truthy r1 = false) ->
               (exists k text,
                   In k (key :: keys) /\
                   Redis.get (seconds now) (store w) k = Some text /\
                   state_reading text r /\ truthy r = true /\
                   store w' = Redis.delete (store w) k) \/
               (store w' = store w /\ (r = r0 \/ truthy r = false))).
    { intros r1 H1 Hr1. apply IH in H1. cbn [store] in H1.
      destruct H1 as [[k [text [Hin [Hg [Hrd [Ht Hs]]]]]]|[Hs Hr]].
      - left. exists k, text. simpl. auto 10.
      - right. split; [assumption|].
        destruct Hr as [->|Hr]; [|auto].
        destruct Hr1 as [->|Hr1]; auto. }
    assert (Hdel : forall text r1,
               Redis.get (seconds now) (store w) key = Some text ->
               state_reading text r1 -> truthy r1 = true ->
               (redis_delete key ;;; ret r1)
                 {| store := store w; trace := trace w ++ [GET key] |}
               = (Returns r, w') ->
               (exists k text,
                   In k (key :: keys) /\
                   Redis.get (seconds now) (store w) k = Some text /\
                   state_reading text r /\ truthy r = true /\
                   store w' = Redis.delete (store w) k) \/
               (store w' = store w /\ (r = r0 \/ truthy r = false))).
    { intros text r1 Hg Hrd Ht H1. unfold bind, redis_delete, ret in H1.
      cbn [store trace] in H1. inversion H1; subst.
      left. exists key, text. simpl. auto 10. }
    destruct (Redis.get (seconds now) (store w) key) as [[|c v]|] eqn:Hget.
    + apply (Hcont r0); auto.
    + destruct (Json.loads (c :: v)) as [rv| |] eqn:El.
      * assert (Hother : forall t,
                   py_str rv = Some t -> (forall d, rv <> PDict d) ->
                   state_reading (c :: v) (PStr t)).
        { intros t Ep Hnd. unfold state_reading. rewrite El.
          destruct rv as [|b|z|s0|l|d]; try (rewrite Ep; reflexivity).
          exfalso. apply (Hnd d). reflexivity. }
        destruct rv as [|b|z|s0|l|d].
        6: { set (x := match dict_get d (py "realm_id") with
                       | Some x => x
                       | None => PNone
                       end) in H.
             destruct (truthy x) eqn:Et.
             - apply (Hdel (c :: v) x); auto.
               unfold state_reading. rewrite El. reflexivity.
             - apply (Hcont x); auto. }
        all: match type of H with
             | context [py_str ?rv] =>
                 destruct (py_str rv) as [t|] eqn:Ep; [|discriminate H];
                 destruct (truthy (PStr t)) eqn:Et;
                 [ apply (Hdel (c :: v) (PStr t)); auto;
                   apply Hother; [reflexivity|intros d0; discriminate]
                 | apply (Hcont (PStr t)); auto ]
             end.
      * apply (Hdel (c :: v) (PStr (c :: v))); auto.
        unfold state_reading. rewrite El. reflexivity.
      * discriminate H.
    + apply (Hcont r0); auto.
Qed.

(** The code scan that returns another value than it was given read the
    text of one of its keys, and deleted that key. *)
Lemma scan_code_entries_source now keys :
  forall r0 w r w',
    scan_code_entries now keys r0 w = (Returns r, w') ->
    (exists key text,
        In key keys /\
        Redis.get (seconds now) (store w) key = Some text /\
        r = PStr text /\ truthy r = true /\
        store w' = Redis.delete (store w) key) \/
    (store w' = store w /\ r = r0).
Proof.
  induction keys as [|key keys IH]; intros r0 w r w' H.
  - cbn in H. inversion H; subst. right. auto.
  - cbn [scan_code_entries] in H. unfold bind at 1 in H.
    unfold redis_get in H.
    destruct (Redis.get (seconds now) (store w) key) as [[|c v]|] eqn:Hget.
    + apply IH in H. cbn [store] in H.
      destruct H as [[k [text [Hin [Hg [Hr [Ht Hs]]]]]]|[Hs Hr]];
        [left|right; auto].
      exists k, text. simpl. auto 10.
    + unfold bind, redis_delete, ret in H. cbn [store trace] in H.
      inversion H; subst. left. exists key, (c :: v). simpl. auto 10.
    + apply IH in H. cbn [store] in H.
      destruct H as [[k [text [Hin [Hg [Hr [Ht Hs]]]]]]|[Hs Hr]];
        [left|right; auto].
      exists k, text. simpl. auto 10.
Qed.

(** C6 (amended): when an exchange resolves a realm id, the one entry it
    resolved from is gone after the call, however the wrapped exchange
    ends: there is a live key, under the state prefix or under the code
    prefix, whose text is the text the realm id was read from (as the
    state scan reads it, or as it stands for a code entry); that key is
    the one key the lookup deleted and it is not in the database after the
    call.  Every other key outside the client bindings is as it was, so
    the code-keyed entry of a flow that was resolved from its state entry
    stays. *)
Theorem resolved_entry_deleted {R} (now : instant)
    (code_store : pystr -> option CodeModel) (client_id : option pystr)
    (authorization_code : pystr) (parent : parent_result R)
    (w w1 : world) (r : PyVal) :
  resolve_realm now w = (Returns r, w1) ->
  truthy r = true ->
  let res := exchange_authorization_code now code_store client_id
               authorization_code parent w in
  exists key text,
    Redis.get (seconds now) (store w) key = Some text /\
    ((startswith state_prefix key = true /\ state_reading text r) \/
     (startswith code_prefix key = true /\ r = PStr text)) /\
    In key (map fst (store w)) /\
    store w1 = Redis.delete (store w) key /\
    Redis.lookup (store (snd res)) key = None /\
    (forall k, k <> key -> startswith client_prefix k = false ->
               Redis.lookup (store (snd res)) k = Redis.lookup (store w) k).
Proof.
  intros H Htr res.
  destruct (@exchange_store R now code_store client_id authorization_code
              parent w w1 r H) as [o [w2 [Hres Hst]]].
  subst res. rewrite Hres. cbn [snd].
  unfold resolve_realm in H. unfold bind at 1 in H.
  destruct (method_1 now w) as [[r1| |] w0] eqn:E1; try discriminate H.
  unfold method_1 in E1. unfold bind at 1 in E1.
  unfold redis_scan_iter in E1.
  apply scan_state_entries_source in E1. cbn [store] in E1.
  assert (Hkey : exists key text,
             Redis.get (seconds now) (store w) key = Some text /\
             ((startswith state_prefix key = true /\ state_reading text r) \/
              (startswith code_prefix key = true /\ r = PStr text)) /\
             In key (map fst (store w)) /\
             store w1 = Redis.delete (store w) key).
  { destruct E1 as [[key [text [Hin [Hg [Hrd [Ht Hs]]]]]]|[Hs Hf]].
    - rewrite Ht in H. cbn [negb] in H. inversion H; subst.
      apply scan_key_in in Hin. destruct Hin as [Hp Hin].
      exists key, text. auto 10.
    - assert (Hf1 : truthy r1 = false).
      { destruct Hf as [->|Hf]; [reflexivity|assumption]. }
      rewrite Hf1 in H. cbn [negb] in H.
      unfold method_2 in H. unfold bind at 1 in H.
      unfold redis_scan_iter in H.
      apply scan_code_entries_source in H. cbn [store] in H.
      rewrite Hs in H.
      destruct H as [[key [text [Hin [Hg [Hr [Ht Hs']]]]]]|[_ ->]];
        [|congruence].
      apply scan_key_in in Hin. destruct Hin as [Hp Hin].
      exists key, text. auto 10. }
  destruct Hkey as [key [text [Hg [Hpre [Hin Hs1]]]]].
  assert (Hnc : forall c, key <> client_prefix ++ c).
  { intros c E. subst key.
    destruct Hpre as [[Hp _]|[Hp _]].
    - rewrite client_key_not_state in Hp. discriminate.
    - rewrite client_key_not_code in Hp. discriminate. }
  exists key, text. split; [assumption|]. split; [assumption|].
  split; [assumption|]. split; [assumption|].
  destruct Hst as [Hst|[c [text' Hst]]]; rewrite Hst, Hs1.
  - split; [apply lookup_delete_same|].
    intros k Hk _. apply lookup_delete_other. assumption.
  - unfold Redis.set. split.
    + rewrite lookup_put_other by apply Hnc. apply lookup_delete_same.
    + intros k Hk Hkc. rewrite lookup_put_other.
      * apply lookup_delete_other. assumption.
      * intros E. subst k. rewrite startswith_app in Hkc. discriminate.
Qed.

Lemma resolved_entry_deleted_witness :
  let w := snd (_handle_idp_callback callback_time
                  {| realmId := Some (py "123"); state := Some (py "s1");
                     code := Some (py "abc") |}
                  (ParentReturns tt) empty_world) in
  let res := exchange_authorization_code exchange_time (fun _ => None)
               (Some (py "c1")) (py "code-1") (ParentReturns tt) w in
  exists key text,
    Redis.get (seconds exchange_time) (store w) key = Some text /\
    ((startswith state_prefix key = true /\
      state_reading text (PStr (py "123"))) \/
     (startswith code_prefix key = true /\ PStr (py "123") = PStr text)) /\
    In key (map fst (store w)) /\
    store (snd (resolve_realm exchange_time w))
    = Redis.delete (store w) key /\
    Redis.lookup (store (snd res)) key = None /\
    (forall k, k <> key -> startswith client_prefix k = false ->
               Redis.lookup (store (snd res)) k = Redis.lookup (store w) k).
Proof.
  intros w res.
  apply (@resolved_entry_deleted unit exchange_time (fun _ => None)
           (Some (py "c1")) (py "code-1") (ParentReturns tt) w
           (snd (resolve_realm exchange_time w)) (PStr (py "123"))).
  - reflexivity.
  - reflexivity.
Defined.

(* ===================================================================== *)
(** ** [json.loads] undoes [json.dumps] on records of text *)
(* ===================================================================== *)

Section JsonRoundTrip.

Local Open Scope N_scope.

Ltac Zify.zify_post_hook ::= Z.to_euclidean_division_equations.

Lemma hexval_hex_digit d : d < 16 -> Json.hexval (Json.hex_digit d) = Some d.
Proof.
  intros H. unfold Json.hex_digit, Json.hexval.
  destruct (d <? 10) eqn:E.
  - apply N.ltb_lt in E.
    replace ((48 <=? 48 + d) && (48 + d <=? 57)) with true.
    + f_equal. lia.
    + symmetry. apply andb_true_iff. rewrite !N.leb_le. lia.
  - apply N.ltb_ge in E.
    replace ((48 <=? 87 + d) && (87 + d <=? 57)) with false.
    + replace ((97 <=? 87 + d) && (87 + d <=? 102)) with true.
      * f_equal. lia.
      * symmetry. apply andb_true_iff. rewrite !N.leb_le. lia.
    + symmetry. apply andb_false_iff. right. apply N.leb_gt. lia.
Qed.

Lemma hex4_u c : c < 65536 ->
  Json.hex4 (Json.hex_digit (c / 4096)) (Json.hex_digit ((c / 256) mod 16))
            (Json.hex_digit ((c / 16) mod 16)) (Json.hex_digit (c mod 16)) = Some c.
Proof.
  intros H. unfold Json.hex4.
  rewrite !hexval_hex_digit by lia.
  f_equal. lia.
Qed.

Lemma join_split c : 65536 <= c -> c < 1114112 ->
  Json.join_surrogates (55296 + (c - 65536) / 1024) (56320 + (c - 65536) mod 1024) = c.
Proof. intros. unfold Json.join_surrogates. lia. Qed.

Lemma scanstring_plain c r acc :
  (c =? 34) = false -> (c =? 92) = false -> (c <? 32) = false ->
  Json.scanstring (c :: r) acc = Json.scanstring r (c :: acc).
Proof.
  intros H1 H2 H3. unfold Json.scanstring at 1. fold Json.scanstring.
  rewrite H1, H2, H3. reflexivity.
Qed.

Lemma scanstring_simple e x r acc :
  (e =? 117) = false -> Json.simple_escape e = Some x ->
  Json.scanstring (92 :: e :: r) acc = Json.scanstring r (x :: acc).
Proof.
  intros H1 H2. unfold Json.scanstring at 1. fold Json.scanstring.
  cbn [N.eqb Pos.eqb]. rewrite H1, H2. reflexivity.
Qed.

Lemma scanstring_u_single h1 h2 h3 h4 u1 r acc :
  Json.hex4 h1 h2 h3 h4 = Some u1 -> Json.is_high_surrogate u1 = false ->
  Json.scanstring (92 :: 117 :: h1 :: h2 :: h3 :: h4 :: r) acc =
  Json.scanstring r (u1 :: acc).
Proof.
  intros H1 H2. unfold Json.scanstring at 1. fold Json.scanstring.
  cbn [N.eqb Pos.eqb]. rewrite H1, H2.
  destruct r as [|? [|? [|? [|? [|? [|? ?]]]]]]; reflexivity.
Qed.

Lemma scanstring_u_pair h1 h2 h3 h4 g1 g2 g3 g4 u1 u2 r acc :
  Json.hex4 h1 h2 h3 h4 = Some u1 -> Json.is_high_surrogate u1 = true ->
  Json.hex4 g1 g2 g3 g4 = Some u2 -> Json.is_low_surrogate u2 = true ->
  Json.scanstring
    (92 :: 117 :: h1 :: h2 :: h3 :: h4 :: 92 :: 117 :: g1 :: g2 :: g3 :: g4 :: r)
    acc =
  Json.scanstring r (Json.join_surrogates u1 u2 :: acc).
Proof.
  intros H1 H2 H3 H4. unfold Json.scanstring at 1. fold Json.scanstring.
  cbn [N.eqb Pos.eqb]. rewrite H1, H2. cbn [andb N.eqb Pos.eqb].
  rewrite H3, H4. reflexivity.
Qed.

Lemma scanstring_quote r acc :
  Json.scanstring (34 :: r) acc = Json.Parsed (List.rev acc) r.
Proof. reflexivity. Qed.

Lemma scalar_bounds c :
  scalar c = true -> c < 1114112 /\ (c < 55296 \/ 57343 < c).
Proof.
  unfold scalar. rewrite andb_true_iff, negb_true_iff, andb_false_iff.
  rewrite N.ltb_lt, !N.leb_gt. lia.
Qed.

Lemma scanstring_escape_char c r acc :
  scalar c = true ->
  Json.scanstring (Json.escape_char c ++ r) acc = Json.scanstring r (c :: acc).
Proof.
  intros Hs. apply scalar_bounds in Hs. destruct Hs as [Hmax Hsur].
  unfold Json.escape_char.
  destruct (c =? 34) eqn:E34; [apply N.eqb_eq in E34; subst; reflexivity|].
  destruct (c =? 92) eqn:E92; [apply N.eqb_eq in E92; subst; reflexivity|].
  destruct (c =? 10) eqn:E10; [apply N.eqb_eq in E10; subst; reflexivity|].
  destruct (c =? 13) eqn:E13; [apply N.eqb_eq in E13; subst; reflexivity|].
  destruct (c =? 9) eqn:E9; [apply N.eqb_eq in E9; subst; reflexivity|].
  destruct (c =? 8) eqn:E8; [apply N.eqb_eq in E8; subst; reflexivity|].
  destruct (c =? 12) eqn:E12; [apply N.eqb_eq in E12; subst; reflexivity|].
  destruct ((32 <=? c) && (c <=? 126)) eqn:Ep.
  - apply andb_true_iff in Ep. destruct Ep as [Hlo Hhi].
    apply N.leb_le in Hlo. cbn [app].
    apply scanstring_plain; auto. apply N.ltb_ge. assumption.
  - destruct (c <? 65536) eqn:Eb.
    + apply N.ltb_lt in Eb. unfold Json.u_escape. cbn [app].
      apply scanstring_u_single.
      * apply hex4_u. assumption.
      * unfold Json.is_high_surrogate. apply andb_false_iff.
        rewrite !N.leb_gt. lia.
    + apply N.ltb_ge in Eb. unfold Json.u_escape. cbn [app].
      rewrite (@scanstring_u_pair _ _ _ _ _ _ _ _
                 (55296 + (c - 65536) / 1024) (56320 + (c - 65536) mod 1024)).
      * rewrite join_split by assumption. reflexivity.
      * apply hex4_u. lia.
      * unfold Json.is_high_surrogate. apply andb_true_iff.
        rewrite !N.leb_le. lia.
      * apply hex4_u. lia.
      * unfold Json.is_low_surrogate. apply andb_true_iff.
        rewrite !N.leb_le. lia.
Qed.

Lemma scanstring_escape s : forall r acc,
  well_formed s = true ->
  Json.scanstring (flat_map Json.escape_char s ++ 34 :: r) acc =
  Json.Parsed (List.rev acc ++ s) r.
Proof.
  induction s as [|c s IH]; intros r acc H.
  - cbn [flat_map app]. rewrite scanstring_quote, app_nil_r. reflexivity.
  - cbn [well_formed forallb] in H. apply andb_true_iff in H.
    destruct H as [Hc Hs]. cbn [flat_map]. rewrite <- app_assoc.
    rewrite scanstring_escape_char by assumption.
    rewrite IH by assumption. cbn [List.rev]. rewrite <- app_assoc.
    reflexivity.
Qed.

Lemma skip_ws_nonws c r : Json.is_ws c = false -> Json.skip_ws (c :: r) = c :: r.
Proof. intros H. unfold Json.skip_ws. rewrite H. reflexivity. Qed.

Lemma skip_ws_space r : Json.skip_ws (32 :: r) = Json.skip_ws r.
Proof. reflexivity. Qed.

Lemma members_text_cons k v fs r :
  members_text ((k, v) :: fs) ++ r =
  34 :: flat_map Json.escape_char k ++
  34 :: 58 :: 32 :: 34 :: flat_map Json.escape_char v ++
  34 :: (match fs with [] => [] | _ => [44; 32] end ++ members_text fs ++ r).
Proof.
  cbn [members_text]. unfold Json.encode_str.
  change (py ": ") with [58; 32]. change (py ", ") with [44; 32].
  repeat (cbn [app]; rewrite <- ?app_assoc).
  reflexivity.
Qed.

Lemma parse_value_string fuel depth s r :
  well_formed s = true ->
  Json.parse_value (S fuel) depth (34 :: flat_map Json.escape_char s ++ 34 :: r)
  = Json.Parsed (PStr s) r.
Proof.
  intros H. simpl. rewrite scanstring_escape by assumption. reflexivity.
Qed.

Lemma parse_members_step fuel depth k r1 acc :
  well_formed k = true ->
  Json.parse_members (S fuel) depth
    (34 :: flat_map Json.escape_char k ++ 34 :: 58 :: 32 :: r1) acc =
  match Json.parse_value fuel depth (Json.skip_ws r1) with
  | Json.Parsed v r3 =>
      match Json.skip_ws r3 with
      | d :: r4 =>
          if d =? 125 then Json.Parsed (PDict (dict_set acc k v)) r4
          else if d =? 44
               then Json.parse_members fuel depth (Json.skip_ws r4)
                      (dict_set acc k v)
               else Json.BadJSON
      | [] => Json.BadJSON
      end
  | Json.BadJSON => Json.BadJSON
  | Json.Beyond => Json.Beyond
  end.
Proof.
  intros H. simpl. rewrite scanstring_escape by assumption.
  cbn [List.rev app].
  rewrite (@skip_ws_nonws 58) by reflexivity. cbn [N.eqb Pos.eqb].
  rewrite skip_ws_space. reflexivity.
Qed.

Lemma members_text_head k v fs r :
  Json.skip_ws (members_text ((k, v) :: fs) ++ r)
  = members_text ((k, v) :: fs) ++ r.
Proof.
  rewrite members_text_cons. apply skip_ws_nonws. reflexivity.
Qed.

Lemma parse_members_text fs : forall fuel depth acc r,
  fs <> [] -> fields_ok fs = true ->
  (List.length fs < fuel)%nat ->
  Json.parse_members fuel depth (members_text fs ++ 125 :: r) acc =
  Json.Parsed
    (PDict (fold_left (fun a kv => dict_set a (fst kv) (PStr (snd kv))) fs acc))
    r.
Proof.
  induction fs as [|[k v] fs IH]; intros fuel depth acc r Hne Hok Hfuel.
  - congruence.
  - cbn [fields_ok forallb fst snd] in Hok.
    apply andb_true_iff in Hok. destruct Hok as [Hkv Hok].
    apply andb_true_iff in Hkv. destruct Hkv as [Hk Hv].
    rewrite members_text_cons.
    destruct fuel as [|fuel]; [simpl in Hfuel; lia|].
    rewrite parse_members_step by assumption.
    rewrite (@skip_ws_nonws 34) by reflexivity.
    destruct fuel as [|fuel]; [simpl in Hfuel; lia|].
    rewrite parse_value_string by assumption.
    cbn [fold_left fst snd].
    destruct fs as [|[k' v'] fs].
    + cbn [app members_text].
      rewrite (@skip_ws_nonws 125) by reflexivity. reflexivity.
    + cbn [app]. rewrite (@skip_ws_nonws 44) by reflexivity.
      cbn [N.eqb Pos.eqb]. rewrite skip_ws_space, members_text_head.
      apply IH.
      * discriminate.
      * assumption.
      * simpl in Hfuel |- *. lia.
Qed.

Lemma parse_value_object fuel depth q r :
  Json.is_ws q = false -> (q =? 125) = false ->
  Json.parse_value (S fuel) (S depth) (123 :: q :: r) =
  Json.parse_members fuel depth (q :: r) [].
Proof.
  intros Hq H. simpl. rewrite skip_ws_nonws by assumption.
  rewrite H. reflexivity.
Qed.

Lemma members_text_length fs :
  (List.length fs <= List.length (members_text fs))%nat.
Proof.
  induction fs as [|[k v] fs IH]; [simpl; lia|].
  cbn [members_text]. unfold Json.encode_str.
  rewrite !length_app. simpl List.length. simpl in IH |- *. lia.
Qed.

Lemma loads_string_record fs :
  fs <> [] -> fields_ok fs = true ->
  Json.loads (123 :: members_text fs ++ [125]) =
  Json.Loaded
    (PDict (fold_left (fun a kv => dict_set a (fst kv) (PStr (snd kv))) fs [])).
Proof.
  intros Hne Hok. unfold Json.loads.
  rewrite (@skip_ws_nonws 123) by reflexivity.
  set (text := 123 :: members_text fs ++ [125]).
  assert (Hf : exists fuel,
             (2 * List.length text + 2 = S fuel)%nat /\
             (List.length fs < fuel)%nat).
  { exists (2 * List.length text + 1)%nat.
    split; [lia|]. pose proof (members_text_length fs).
    subst text. simpl List.length. rewrite length_app. simpl. lia. }
  destruct Hf as [fuel [-> Hfuel]]. subst text.
  destruct fs as [|[k v] fs]; [congruence|].
  unfold Json.max_nesting.
  rewrite members_text_cons, parse_value_object by reflexivity.
  rewrite <- members_text_cons.
  rewrite parse_members_text by assumption.
  reflexivity.
Qed.

End JsonRoundTrip.

(* ===================================================================== *)
(** ** The binding record, written and read back *)
(* ===================================================================== *)

Import QBOTokenVerifier.

Lemma dumps_binding_text now realm rt :
  Json.dumps (binding_record now (PStr realm) (PStr rt)) =
  123%N :: members_text [ (py "realm_id", realm); (py "refresh_token", rt);
                          (py "updated_at", isoformat now) ] ++ [125%N].
Proof. reflexivity. Qed.

Lemma loads_dumps_binding now realm rt :
  well_formed realm = true -> well_formed rt = true ->
  well_formed (isoformat now) = true ->
  Json.loads (Json.dumps (binding_record now (PStr realm) (PStr rt))) =
  Json.Loaded (binding_record now (PStr realm) (PStr rt)).
Proof.
  intros Hr Ht Hn. rewrite dumps_binding_text, loads_string_record.
  - reflexivity.
  - discriminate.
  - cbn [fields_ok forallb fst snd]. rewrite Hr, Ht, Hn. reflexivity.
Qed.

Lemma store_realm_run now cid realm rt w :
  store_realm_by_client_id now cid realm rt w =
  (Returns tt,
   {| store := Redis.set (store w) (client_prefix ++ cid)
                 (Json.dumps (binding_record now realm rt));
      trace := trace w ++ [SET (client_prefix ++ cid)
                             (Json.dumps (binding_record now realm rt))] |}).
Proof. reflexivity. Qed.

(* ===================================================================== *)
(** ** The body of a response: text that parses to an object is UTF-8 *)
(* ===================================================================== *)

Lemma skip_ws_ws c r : Json.is_ws c = true -> Json.skip_ws (c :: r) = Json.skip_ws r.
Proof. intros H. unfold Json.skip_ws at 1. rewrite H. reflexivity. Qed.

(** The items of an array parse to a list. *)
Lemma parse_items_list fuel : forall depth s acc v rest,
  Json.parse_items fuel depth s acc = Json.Parsed v rest ->
  exists l, v = PList l.
Proof.
  induction fuel as [|fuel IH]; intros depth s acc v rest H;
    [discriminate H|].
  cbn [Json.parse_items] in H.
  destruct (Json.parse_value fuel depth s) as [x r1| |]; try discriminate H.
  destruct (Json.skip_ws r1) as [|c r2]; [discriminate H|].
  destruct (N.eqb c 93).
  - inversion H; subst. eexists. reflexivity.
  - destruct (N.eqb c 44); [|discriminate H]. eapply IH. exact H.
Qed.

(** A value that parses to an object starts with a brace, and what
    follows the brace, white space apart, is a closing brace or a quote. *)
Lemma parse_value_object_start fuel depth s d rest :
  Json.parse_value fuel depth s = Json.Parsed (PDict d) rest ->
  exists r1, s = 123%N :: r1 /\
    match Json.skip_ws r1 with
    | q :: _ => q = 125%N \/ q = 34%N
    | [] => False
    end.
Proof.
  intros H. destruct fuel as [|fuel]; [discriminate H|].
  destruct s as [|c r]; [discriminate H|].
  cbn [Json.parse_value] in H.
  destruct (N.eqb c 34).
  { destruct (Json.scanstring r []); discriminate H. }
  destruct (N.eqb_spec c 123) as [->|Hc].
  { exists r. split; [reflexivity|].
    destruct depth as [|depth]; [discriminate H|].
    destruct (Json.skip_ws r) as [|q r1]; [discriminate H|].
    destruct (N.eqb_spec q 125) as [->|Hq]; [left; reflexivity|].
    right. destruct fuel as [|fuel]; [discriminate H|].
    cbn [Json.parse_members] in H.
    destruct (N.eqb_spec q 34) as [->|Hq']; [reflexivity|discriminate H]. }
  destruct (N.eqb c 91).
  { destruct depth as [|depth]; [discriminate H|].
    destruct (Json.skip_ws r) as [|q r1]; [discriminate H|].
    destruct (N.eqb q 93); [discriminate H|].
    apply parse_items_list in H. destruct H as [l H]. discriminate H. }
  repeat match type of H with
         | context [match ?x with _ => _ end] => destruct x
         end; discriminate H.
Qed.

(** Text that [json.loads] reads as an object is read the same way from
    its UTF-8 bytes: it starts with no byte order mark and has no zero
    among its first two bytes. *)
Lemma loads_object_utf8 (s : pystr) d :
  Json.loads s = Json.Loaded (PDict d) ->
  Json.loads_utf8 s = Json.Loaded (PDict d).
Proof.
  intros H. pose proof H as H0. unfold Json.loads in H.
  destruct (Json.parse_value (2 * List.length s + 2) Json.max_nesting
              (Json.skip_ws s)) as [v rest| |] eqn:E; try discriminate H.
  destruct (Json.skip_ws rest); [|discriminate H].
  inversion H; subst v. clear H.
  apply parse_value_object_start in E. destruct E as [r1 [Hs Hq]].
  unfold Json.loads_utf8.
  assert (Henc : Json.detect_encoding s = Json.Utf8); [|rewrite Henc; exact H0].
  destruct s as [|c r]; [reflexivity|].
  unfold Json.detect_encoding.
  destruct (Json.is_ws c) eqn:Ews.
  - rewrite skip_ws_ws in Hs by assumption.
    unfold Json.is_ws in Ews.
    assert (Hc : c = 32%N \/ c = 9%N \/ c = 10%N \/ c = 13%N).
    { rewrite !orb_true_iff, !N.eqb_eq in Ews. tauto. }
    assert (Hr : match r with c' :: _ => N.eqb c' 0 | [] => false end = false).
    { destruct r as [|c' r']; [reflexivity|].
      destruct (N.eqb_spec c' 0) as [->|]; [|reflexivity].
      rewrite (@skip_ws_nonws 0%N) in Hs by reflexivity. discriminate Hs. }
    rewrite Hr, andb_false_r.
    destruct Hc as [->|[->|[->| ->]]]; reflexivity.
  - rewrite skip_ws_nonws in Hs by assumption. inversion Hs; subst c r.
    assert (Hr : match r1 with c' :: _ => N.eqb c' 0 | [] => false end = false).
    { destruct r1 as [|c' r']; [reflexivity|].
      destruct (N.eqb_spec c' 0) as [->|]; [|reflexivity].
      rewrite (@skip_ws_nonws 0%N) in Hq by reflexivity.
      destruct Hq; discriminate. }
    rewrite Hr. reflexivity.
Qed.

(** A refresh that comes back with 200 and a body that [response.json()]
    reads as a JSON object. *)
Lemma refresh_run_utf8 now body d rt realm cid w :
  Json.loads_utf8 body = Json.Loaded (PDict d) ->
  _refresh_token now (HttpResponse 200 body) rt realm cid w =
  (Returns (Some (get_or d (py "access_token") PNone,
                  get_or d (py "refresh_token") (PStr rt))),
   {| store := Redis.set (store w) (client_prefix ++ cid)
                 (Json.dumps
                    (binding_record now (PStr realm)
                       (get_or d (py "refresh_token") (PStr rt))));
      trace := trace w ++
               [HTTP_POST QBO_TOKEN_ENDPOINT rt;
                SET (client_prefix ++ cid)
                  (Json.dumps
                     (binding_record now (PStr realm)
                        (get_or d (py "refresh_token") (PStr rt))))] |}).
Proof.
  intros H.
  unfold _refresh_token, try_except, bind, emit, http_result, response_json,
    attr_get, store_realm_by_client_id, redis_set, get_or, ret, raise.
  cbn [N.eqb Pos.eqb negb]. rewrite H.
  destruct (dict_get d (py "access_token")) as [a|];
    destruct (dict_get d (py "refresh_token")) as [f|];
    cbn [store trace]; rewrite <- app_assoc; reflexivity.
Qed.

(** A refresh that comes back with 200 and a JSON object. *)
Lemma refresh_run now body d rt realm cid w :
  Json.loads body = Json.Loaded (PDict d) ->
  _refresh_token now (HttpResponse 200 body) rt realm cid w =
  (Returns (Some (get_or d (py "access_token") PNone,
                  get_or d (py "refresh_token") (PStr rt))),
   {| store := Redis.set (store w) (client_prefix ++ cid)
                 (Json.dumps
                    (binding_record now (PStr realm)
                       (get_or d (py "refresh_token") (PStr rt))));
      trace := trace w ++
               [HTTP_POST QBO_TOKEN_ENDPOINT rt;
                SET (client_prefix ++ cid)
                  (Json.dumps
                     (binding_record now (PStr realm)
                        (get_or d (py "refresh_token") (PStr rt))))] |}).
Proof.
  intros H. apply refresh_run_utf8. apply loads_object_utf8. exact H.
Qed.

Lemma dumps_binding_nonempty now realm rt :
  exists c v, Json.dumps (binding_record now realm rt) = c :: v.
Proof. eexists. eexists. reflexivity. Qed.

(** Reading a binding back after [store_realm_by_client_id] wrote it. *)
Lemma get_realm_data_after_set later now cid realm rt d tr :
  well_formed realm = true -> well_formed rt = true ->
  well_formed (isoformat now) = true ->
  fst (get_realm_data_by_client_id later cid
         {| store := Redis.set d (client_prefix ++ cid)
                       (Json.dumps (binding_record now (PStr realm) (PStr rt)));
            trace := tr |})
  = Returns (binding_record now (PStr realm) (PStr rt)).
Proof.
  intros Hr Ht Hn. unfold get_realm_data_by_client_id, bind, redis_get.
  cbn [store]. unfold Redis.set. rewrite get_put_same by reflexivity.
  destruct (dumps_binding_nonempty now (PStr realm) (PStr rt)) as [c [v E]].
  rewrite E, <- E. unfold json_loads.
  rewrite loads_dumps_binding by assumption. reflexivity.
Qed.

(** C7, as stated, fails in its second half: [_refresh_token] posts the
    refresh token it is called with and never reads the binding.  A
    refresh rotates R1 to R2 and the binding holds R2; a second refresh
    that its caller hands R1 posts R1, the stale token. *)
Lemma refresh_posts_the_token_it_is_handed :
  let body := Json.dumps (PDict [ (py "access_token", PStr (py "A2"));
                                  (py "refresh_token", PStr (py "R2")) ]) in
  let first := _refresh_token callback_time (HttpResponse 200 body)
                 (py "R1") (py "123") (py "c1") empty_world in
  let second := _refresh_token exchange_time
                  (HttpResponse 400 (py "invalid_grant"))
                  (py "R1") (py "123") (py "c1") (snd first) in
  fst first = Returns (Some (PStr (py "A2"), PStr (py "R2"))) /\
  fst (get_realm_data_by_client_id exchange_time (py "c1") (snd first))
  = Returns (binding_record callback_time (PStr (py "123")) (PStr (py "R2")))
  /\
  trace (snd second)
  = trace (snd first) ++ [HTTP_POST QBO_TOKEN_ENDPOINT (py "R1")].
Proof. vm_compute. repeat split; reflexivity. Qed.

(** C7 (amended): a refresh that comes back with 200 and a body that
    [response.json()] reads as a JSON object with a text under
    [refresh_token] has written the rotated token into the client binding
    when it returns: it posts the token it was called with, sets the
    binding to the record of the realm id, the new token and the time, and
    returns the new pair; the binding read back at any later instant
    carries the new token and the realm id, whatever token was there
    before.  The new token, the realm id and the time stamp are text as
    UTF-8 can carry it. *)
Theorem refresh_persists_rotated_token
    (now later : instant) (body : pystr) (d : list (pystr * PyVal))
    (rt fresh realm cid : pystr) (w : world) :
  Json.loads_utf8 body = Json.Loaded (PDict d) ->
  dict_get d (py "refresh_token") = Some (PStr fresh) ->
  well_formed fresh = true -> well_formed realm = true ->
  well_formed (isoformat now) = true ->
  let res := _refresh_token now (HttpResponse 200 body) rt realm cid w in
  fst res = Returns (Some (get_or d (py "access_token") PNone, PStr fresh)) /\
  trace (snd res)
  = trace w ++
    [HTTP_POST QBO_TOKEN_ENDPOINT rt;
     SET (client_prefix ++ cid)
       (Json.dumps (binding_record now (PStr realm) (PStr fresh)))] /\
  Redis.lookup (store (snd res)) (client_prefix ++ cid)
  = Some {| Redis.value :=
              Json.dumps (binding_record now (PStr realm) (PStr fresh));
            Redis.expires_at := None |} /\
  exists data,
    fst (get_realm_data_by_client_id later cid (snd res))
    = Returns (PDict data) /\
    dict_get data (py "refresh_token") = Some (PStr fresh) /\
    dict_get data (py "realm_id") = Some (PStr realm).
Proof.
  intros Hbody Hfresh Hwf Hwr Hwn res. subst res.
  rewrite (@refresh_run_utf8 now body d rt realm cid w Hbody).
  assert (E : get_or d (py "refresh_token") (PStr rt) = PStr fresh)
    by (unfold get_or; rewrite Hfresh; reflexivity).
  rewrite !E. cbn [fst snd store trace].
  split; [reflexivity|]. split; [reflexivity|]. split.
  - unfold Redis.set. apply lookup_put_same.
  - eexists. split.
    + apply get_realm_data_after_set; assumption.
    + split; reflexivity.
Qed.

Lemma refresh_persists_rotated_token_witness :
  let body := 65279%N ::
              Json.dumps (PDict [ (py "access_token", PStr (py "A2"));
                                  (py "refresh_token", PStr (py "R2")) ]) in
  let w := {| store := Redis.set [] (client_prefix ++ py "c1")
                         (Json.dumps (binding_record callback_time
                                        (PStr (py "123")) (PStr (py "R1"))));
              trace := [] |} in
  let res := _refresh_token exchange_time (HttpResponse 200 body)
               (py "R1") (py "123") (py "c1") w in
  fst res = Returns (Some (PStr (py "A2"), PStr (py "R2"))) /\
  trace (snd res)
  = trace w ++
    [HTTP_POST QBO_TOKEN_ENDPOINT (py "R1");
     SET (client_prefix ++ py "c1")
       (Json.dumps (binding_record exchange_time
                      (PStr (py "123")) (PStr (py "R2"))))] /\
  Redis.lookup (store (snd res)) (client_prefix ++ py "c1")
  = Some {| Redis.value :=
              Json.dumps (binding_record exchange_time
                            (PStr (py "123")) (PStr (py "R2")));
            Redis.expires_at := None |} /\
  exists data,
    fst (get_realm_data_by_client_id exchange_time (py "c1") (snd res))
    = Returns (PDict data) /\
    dict_get data (py "refresh_token") = Some (PStr (py "R2")) /\
    dict_get data (py "realm_id") = Some (PStr (py "123")).
Proof.
  intros body w.
  apply (@refresh_persists_rotated_token exchange_time exchange_time body
           [(py "access_token", PStr (py "A2"));
            (py "refresh_token", PStr (py "R2"))]
           (py "R1") (py "R2") (py "123") (py "c1") w).
  - vm_compute. reflexivity.
  - reflexivity.
  - reflexivity.
  - reflexivity.
  - reflexivity.
Defined.

(** C8: when the token endpoint answers with a status other than 200, or
    the request times out or fails in transport, the refresher returns
    [None] after its one request and issues no Redis command: the database,
    and with it the client binding, is as it was. *)
Theorem refresh_failure_leaves_binding
    (now : instant) (upstream : http_outcome) (rt realm cid : pystr)
    (w : world) :
  refresh_failed upstream ->
  _refresh_token now upstream rt realm cid w =
  (Returns None,
   {| store := store w;
      trace := trace w ++ [HTTP_POST QBO_TOKEN_ENDPOINT rt] |}).
Proof.
  intros H. destruct upstream as [status_code body| |]; try reflexivity.
  cbn [refresh_failed] in H. apply N.eqb_neq in H.
  unfold _refresh_token, try_except, bind, emit, http_result, ret.
  rewrite H. reflexivity.
Qed.

Lemma refresh_failure_leaves_binding_witness :
  let w := {| store := Redis.set [] (client_prefix ++ py "c1")
                         (Json.dumps (binding_record callback_time
                                        (PStr (py "123")) (PStr (py "R1"))));
              trace := [] |} in
  refresh_failed (HttpResponse 400 (py "invalid_grant")) /\
  _refresh_token exchange_time (HttpResponse 400 (py "invalid_grant"))
    (py "R1") (py "123") (py "c1") w =
  (Returns None,
   {| store := store w;
      trace := trace w ++ [HTTP_POST QBO_TOKEN_ENDPOINT (py "R1")] |}).
Proof.
  intros w.
  assert (H : refresh_failed (HttpResponse 400 (py "invalid_grant")))
    by (cbn; discriminate).
  split; [exact H|].
  apply (@refresh_failure_leaves_binding exchange_time
           (HttpResponse 400 (py "invalid_grant"))
           (py "R1") (py "123") (py "c1") w H).
Defined.

(** C3: when introspection answers 401, [verify_token] returns [None] for
    every token and every database, after its one request and without a
    Redis command: no binding is read and nothing else is tried. *)
Theorem verify_token_401_unauthenticated
    (now : instant) (required_scopes : list pystr) (tok body : pystr)
    (w : world) :
  verify_token now required_scopes (HttpResponse 401 body) tok w =
  (Returns None,
   {| store := store w;
      trace := trace w ++ [HTTP_GET QBO_USERINFO_ENDPOINT tok] |}).
Proof. reflexivity. Qed.

Lemma or_empty_id (l : list pystr) : or_empty l = l.
Proof. destruct l; reflexivity. Qed.

(** C4: when introspection times out, [verify_token] fails open for every
    token: it returns an access token for the presented token whose claims
    carry a null [realm_id] and [timeout] set to true. *)
Theorem verify_token_timeout_fails_open
    (now : instant) (required_scopes : list pystr) (tok : pystr) (w : world) :
  exists a,
    verify_token now required_scopes HttpTimeout tok w =
    (Returns (Some a),
     {| store := store w;
        trace := trace w ++ [HTTP_GET QBO_USERINFO_ENDPOINT tok] |}) /\
    token a = tok /\
    client_id a = py "timeout-fallback" /\
    scopes a = required_scopes /\
    claims a = [ (py "upstream_access_token", PStr tok);
                 (py "realm_id", PNone);
                 (py "validated_at", PStr (isoformat now));
                 (py "timeout", PBool true) ] /\
    dict_get (claims a) (py "realm_id") = Some PNone /\
    dict_get (claims a) (py "timeout") = Some (PBool true).
Proof.
  eexists. split; [reflexivity|].
  cbn [token client_id scopes claims]. rewrite or_empty_id.
  repeat split.
Qed.

(** C10, as stated, fails: with a client key that holds the realm id as a
    bare scalar, or a text that is no JSON, a 200 from introspection ends
    in [None], not in an authenticated result. *)
Lemma verify_token_unreadable_binding :
  let bare := {| store := [(client_prefix ++ py "c1",
                            {| Redis.value := py "123";
                               Redis.expires_at := None |})];
                 trace := [] |} in
  let broken := {| store := [(client_prefix ++ py "c1",
                              {| Redis.value := py "not json";
                                 Redis.expires_at := None |})];
                   trace := [] |} in
  fst (verify_token exchange_time [QBO_ACCOUNTING_SCOPE]
         (HttpResponse 200 []) (py "token-1") bare) = Returns None /\
  fst (verify_token exchange_time [QBO_ACCOUNTING_SCOPE]
         (HttpResponse 200 []) (py "token-1") broken) = Returns None.
Proof. vm_compute. split; reflexivity. Qed.

(** What [verify_token] ends in, read back from its result. *)
Lemma verify_token_outcomes
    (now : instant) (required_scopes : list pystr) (upstream : http_outcome)
    (tok : pystr) (w : world) :
  match fst (verify_token now required_scopes upstream tok w) with
  | Returns (Some a) =>
      token a = tok /\ scopes a = required_scopes /\
      dict_get (claims a) (py "upstream_access_token") = Some (PStr tok) /\
      exists realm, dict_get (claims a) (py "realm_id") = Some realm
  | Returns None =>
      (exists body, upstream = HttpResponse 401 body) \/
      upstream = HttpFailure \/
      (exists t, first_binding_text now (store w) = Some t /\ unreadable t)
  | Raises _ => False
  | Unmodelled =>
      exists t, first_binding_text now (store w) = Some t /\
                Json.loads t = Json.OutsideModel
  end.
Proof.
  assert (Hsome : forall cid realm_id,
             token {| token := tok; client_id := cid;
                      scopes := or_empty required_scopes;
                      claims := [ (py "upstream_access_token", PStr tok);
                                  (py "realm_id", realm_id);
                                  (py "validated_at", PStr (isoformat now)) ]
                   |} = tok /\
             or_empty required_scopes = required_scopes /\
             Some (PStr tok) = Some (PStr tok) /\
             exists realm, Some realm_id = Some realm).
  { intros. rewrite or_empty_id. repeat split. eexists. reflexivity. }
  destruct upstream as [status_code body| |].
  - unfold verify_token, get_realm_data_by_client_id, first_binding_text,
      unreadable, json_loads, attr_get, redis_scan_iter, redis_get, emit,
      http_result, try_except, bind, ret, raise.
    cbv beta iota. cbn [store].
    destruct (N.eqb status_code 401) eqn:E401.
    + apply N.eqb_eq in E401. subst. simpl. left. eauto.
    + cbv beta iota. cbn [store trace].
      destruct (Redis.scan_iter (seconds now) (store w) client_prefix)
        as [|key keys].
      * simpl. apply (Hsome (py "default") PNone).
      * cbv beta iota. cbn [store].
        destruct (Redis.get (seconds now) (store w)
                    (client_prefix ++ last_segment key [])) as [[|c v]|].
        -- simpl. apply (Hsome (last_segment key []) PNone).
        -- destruct (Json.loads (c :: v)) as [rv| |] eqn:El.
           ++ destruct rv as [|b|z|s|l|d];
                try (destruct (truthy _) eqn:Et;
                     [ simpl; right; right; eexists;
                       split; [reflexivity|]; rewrite El; exact Et
                     | simpl; apply (Hsome (last_segment key []) PNone) ]).
              destruct (truthy (PDict d)) eqn:Et;
                [destruct (dict_get d (py "realm_id")) as [x|]|];
                simpl; apply (Hsome (last_segment key [])).
           ++ simpl. right. right. eexists.
              split; [reflexivity|]. rewrite El. exact I.
           ++ simpl. eexists. split; [reflexivity|assumption].
        -- simpl. apply (Hsome (last_segment key []) PNone).
  - simpl. rewrite or_empty_id. repeat split. eexists. reflexivity.
  - simpl. right. left. reflexivity.
Qed.

(** On an answer other than 401, a binding text that is no JSON, or JSON
    for a true value that is no object, ends in [None]. *)
Lemma verify_token_unreadable now required_scopes status body tok w t :
  status <> 401%N ->
  first_binding_text now (store w) = Some t -> unreadable t ->
  fst (verify_token now required_scopes (HttpResponse status body) tok w)
  = Returns None.
Proof.
  intros Hst Hfb Hu. apply N.eqb_neq in Hst.
  unfold first_binding_text in Hfb. unfold unreadable in Hu.
  unfold verify_token, get_realm_data_by_client_id,
    json_loads, attr_get, redis_scan_iter, redis_get, emit,
    http_result, try_except, bind, ret, raise, unmodelled.
  cbv beta iota. cbn [store trace]. rewrite Hst.
  cbv beta iota. cbn [store trace].
  destruct (Redis.scan_iter (seconds now) (store w) client_prefix)
    as [|key keys]; [discriminate Hfb|].
  cbv beta iota. cbn [store trace].
  destruct (Redis.get (seconds now) (store w)
              (client_prefix ++ last_segment key [])) as [[|c v]|];
    try discriminate Hfb.
  inversion Hfb; subst t.
  destruct (Json.loads (c :: v)) as [rv| |];
    [|reflexivity|contradiction].
  destruct rv as [|b|z|s|l|d]; try (rewrite Hu; reflexivity).
  contradiction.
Qed.

(** C10 (amended): every authenticated result of [verify_token], on the
    normal path and on the timeout path, is for the presented token,
    carries it as [upstream_access_token], has the required scopes and a
    [realm_id] claim that may be null; and [verify_token] never raises.  It
    returns [None] only on a 401, on a transport error that is no timeout,
    or when the binding text it reads (under the last segment of the first
    client key scanned) is no JSON or is JSON for a true value that is no
    object.  On every answer other than 401: with no binding text, an empty
    one, a JSON object or JSON for a false value, the result is
    authenticated; with a text that is no JSON, or JSON for a true value
    that is no object, the result is [None]. *)
Theorem verify_token_claims
    (now : instant) (required_scopes : list pystr) (upstream : http_outcome)
    (tok : pystr) (w : world) :
  match fst (verify_token now required_scopes upstream tok w) with
  | Returns (Some a) =>
      token a = tok /\ scopes a = required_scopes /\
      dict_get (claims a) (py "upstream_access_token") = Some (PStr tok) /\
      exists realm, dict_get (claims a) (py "realm_id") = Some realm
  | Returns None =>
      (exists body, upstream = HttpResponse 401 body) \/
      upstream = HttpFailure \/
      (exists t, first_binding_text now (store w) = Some t /\ unreadable t)
  | Raises _ => False
  | Unmodelled =>
      exists t, first_binding_text now (store w) = Some t /\
                Json.loads t = Json.OutsideModel
  end /\
  (forall status body,
     upstream = HttpResponse status body -> status <> 401%N ->
     match first_binding_text now (store w) with
     | Some t => readable t
     | None => True
     end ->
     exists a,
       fst (verify_token now required_scopes upstream tok w)
       = Returns (Some a)) /\
  (forall status body t,
     upstream = HttpResponse status body -> status <> 401%N ->
     first_binding_text now (store w) = Some t -> unreadable t ->
     fst (verify_token now required_scopes upstream tok w) = Returns None).
Proof.
  pose proof (verify_token_outcomes now required_scopes upstream tok w) as Ho.
  split; [exact Ho|]. split.
  - intros status body Hup Hst Hread.
    destruct (fst (verify_token now required_scopes upstream tok w))
      as [[a|]| |].
    + exists a. reflexivity.
    + exfalso. destruct Ho as [[b Hb]|[Hf|[t [Ht Hu]]]].
      * rewrite Hup in Hb. inversion Hb. contradiction.
      * rewrite Hup in Hf. discriminate Hf.
      * rewrite Ht in Hread. unfold readable in Hread.
        unfold unreadable in Hu.
        destruct (Json.loads t) as [rv| |]; try contradiction.
        destruct rv as [|b|z|s|l|d]; try contradiction; congruence.
    + contradiction.
    + exfalso. destruct Ho as [t [Ht Hl]]. rewrite Ht in Hread.
      unfold readable in Hread. rewrite Hl in Hread. contradiction.
  - intros status body t Hup Hst Hfb Hu. subst upstream.
    apply (@verify_token_unreadable now required_scopes status body tok w t);
      assumption.
Qed.

Lemma verify_token_claims_witness :
  let bare := {| store := [(client_prefix ++ py "c1",
                            {| Redis.value := py "123";
                               Redis.expires_at := None |})];
                 trace := [] |} in
  (exists a,
     fst (verify_token exchange_time [QBO_ACCOUNTING_SCOPE]
            (HttpResponse 200 []) (py "token-1") empty_world)
     = Returns (Some a)) /\
  fst (verify_token exchange_time [QBO_ACCOUNTING_SCOPE]
         (HttpResponse 200 []) (py "token-1") bare) = Returns None.
Proof.
  intros bare. split.
  - apply (proj1 (proj2 (@verify_token_claims exchange_time
                           [QBO_ACCOUNTING_SCOPE] (HttpResponse 200 [])
                           (py "token-1") empty_world))
             200%N []).
    + reflexivity.
    + discriminate.
    + exact I.
  - apply (proj2 (proj2 (@verify_token_claims exchange_time
                           [QBO_ACCOUNTING_SCOPE] (HttpResponse 200 [])
                           (py "token-1") bare))
             200%N [] (py "123")).
    + reflexivity.
    + discriminate.
    + reflexivity.
    + reflexivity.
Defined.

Lemma resolve_realm_wf now w r w' :
  resolve_realm now w = (Returns r, w') ->
  Redis.wf (store w) -> Redis.wf (store w').
Proof.
  intros H Hwf. unfold resolve_realm in H. unfold bind at 1 in H.
  destruct (method_1 now w) as [[r1| |] w1] eqn:E1; try discriminate H.
  apply method_1_inv in E1.
  assert (Hwf1 : Redis.wf (store w1)).
  { destruct E1 as [[key [_ [Hs _]]]|[Hs _]]; rewrite Hs;
      auto using wf_delete. }
  destruct (negb (truthy r1)).
  - apply method_2_inv in H.
    destruct H as [[key [_ [Hs _]]]|[Hs _]]; rewrite Hs;
      auto using wf_delete.
  - inversion H; subst. assumption.
Qed.

(** What one binding write leaves in the database. *)
Lemma binding_set_replaces d key text :
  Redis.wf d ->
  Redis.lookup (Redis.set d key text) key
  = Some {| Redis.value := text; Redis.expires_at := None |} /\
  Redis.count (Redis.set d key text) key = 1%nat /\
  Redis.wf (Redis.set d key text) /\
  (forall k, k <> key ->
             Redis.lookup (Redis.set d key text) k = Redis.lookup d k).
Proof.
  intros Hwf. unfold Redis.set. repeat split.
  - apply lookup_put_same.
  - apply count_put. assumption.
  - apply wf_put. assumption.
  - intros k Hk. apply lookup_put_other. assumption.
Qed.

(** C5: a binding write for a client id puts the whole record (realm id,
    refresh token, time of writing) under the client key, whatever was
    there before: the key then holds exactly that record, once, and the
    other keys are untouched.  The code exchange that resolved a realm id
    and the refresh that got a 200 with a JSON object each end with the
    database that this one write gives. *)
Theorem binding_write_replaces {R} (now : instant) (w : world) :
  Redis.wf (store w) ->
  (forall (cid : pystr) (realm rt : PyVal),
     let key := client_prefix ++ cid in
     let text := Json.dumps (binding_record now realm rt) in
     let w' := snd (store_realm_by_client_id now cid realm rt w) in
     Redis.lookup (store w') key
     = Some {| Redis.value := text; Redis.expires_at := None |} /\
     Redis.count (store w') key = 1%nat /\
     Redis.wf (store w') /\
     (forall k, k <> key ->
                Redis.lookup (store w') k = Redis.lookup (store w) k) /\
     trace w' = trace w ++ [SET key text]) /\
  (forall code_store (client authorization_code : pystr) (r : R) realm w1,
     client <> [] -> truthy realm = true ->
     resolve_realm now w = (Returns realm, w1) ->
     let key := client_prefix ++ client in
     let text := Json.dumps
                   (binding_record now realm
                      (idp_refresh_token (code_store authorization_code))) in
     let res := exchange_authorization_code now code_store (Some client)
                  authorization_code (ParentReturns r) w in
     store (snd res) = Redis.set (store w1) key text /\
     Redis.lookup (store (snd res)) key
     = Some {| Redis.value := text; Redis.expires_at := None |} /\
     Redis.count (store (snd res)) key = 1%nat) /\
  (forall (body : pystr) d (rt realm cid : pystr),
     Json.loads body = Json.Loaded (PDict d) ->
     let key := client_prefix ++ cid in
     let text := Json.dumps
                   (binding_record now (PStr realm)
                      (get_or d (py "refresh_token") (PStr rt))) in
     let res := _refresh_token now (HttpResponse 200 body) rt realm cid w in
     store (snd res) = Redis.set (store w) key text /\
     Redis.lookup (store (snd res)) key
     = Some {| Redis.value := text; Redis.expires_at := None |} /\
     Redis.count (store (snd res)) key = 1%nat).
Proof.
  intros Hwf. split; [|split].
  - intros cid realm rt key text w'. subst w'.
    rewrite store_realm_run. cbn [snd store trace].
    destruct (@binding_set_replaces (store w) key text Hwf)
      as [H1 [H2 [H3 H4]]].
    repeat split; assumption.
  - intros code_store client authorization_code r realm w1 Hc Ht Hres
      key text res. subst res.
    rewrite (@exchange_run R now code_store client authorization_code r
               realm w w1 Hc Ht Hres). cbn [snd store].
    destruct (@binding_set_replaces (store w1) key text
                (resolve_realm_wf now w Hres Hwf)) as [H1 [H2 _]].
    repeat split; assumption.
  - intros body d rt realm cid Hbody key text res. subst res.
    rewrite (@refresh_run now body d rt realm cid w Hbody). cbn [snd store].
    destruct (@binding_set_replaces (store w) key text Hwf) as [H1 [H2 _]].
    repeat split; assumption.
Qed.

Lemma binding_write_replaces_witness :
  let w := {| store := Redis.set [] (client_prefix ++ py "c1")
                         (Json.dumps (binding_record callback_time
                                        (PStr (py "111")) (PStr (py "R1"))));
              trace := [] |} in
  let w' := snd (store_realm_by_client_id exchange_time (py "c1")
                   (PStr (py "123")) (PStr (py "R2")) w) in
  Redis.wf (store w) /\
  Redis.lookup (store w') (client_prefix ++ py "c1")
  = Some {| Redis.value :=
              Json.dumps (binding_record exchange_time
                            (PStr (py "123")) (PStr (py "R2")));
            Redis.expires_at := None |} /\
  Redis.count (store w') (client_prefix ++ py "c1") = 1%nat.
Proof.
  intros w w'.
  assert (Hwf : Redis.wf (store w)).
  { apply wf_put. constructor. }
  split; [exact Hwf|].
  destruct (@binding_write_replaces unit exchange_time w Hwf) as [Hset _].
  destruct (Hset (py "c1") (PStr (py "123")) (PStr (py "R2")))
    as [Hl [Hc _]].
  split; [exact Hl|exact Hc].
Defined.

(* ===================================================================== *)
(** ** Beyond the claims: the state helpers *)
(* ===================================================================== *)

Lemma app_neq_nil_r (p s : pystr) : s <> [] -> p ++ s <> [].
Proof. intros H E. apply app_eq_nil in E. tauto. Qed.

(** X1: a non-empty realm id stored for a state is read back for that
    state up to and including the 600th second after the write, and is
    gone once more than 600 seconds have passed, whatever the state key
    held before. *)
Theorem state_realm_round_trip (t0 t1 : instant) (st realm : pystr)
    (w : world) :
  realm <> [] ->
  fst (_get_realm_by_state t1 st (snd (_store_realm_by_state t0 st realm w)))
  = Returns (if (seconds t1 <=? seconds t0 + 600)%N
             then Some realm else None).
Proof.
  intros Hr. unfold _get_realm_by_state, _store_realm_by_state, bind,
    redis_get, redis_setex, ret. cbn [snd store fst].
  unfold Redis.get, Redis.setex. rewrite lookup_put_same.
  unfold Redis.live. cbn [Redis.expires_at Redis.value].
  destruct (seconds t1 <=? seconds t0 + 600)%N; [|reflexivity].
  destruct realm; [congruence|reflexivity].
Qed.

Lemma state_realm_round_trip_witness :
  fst (_get_realm_by_state exchange_time (py "s1")
         (snd (_store_realm_by_state callback_time (py "s1") (py "123")
                 empty_world)))
  = Returns (Some (py "123")).
Proof.
  apply (@state_realm_round_trip callback_time exchange_time (py "s1")
           (py "123") empty_world).
  discriminate.
Defined.

(** X2: after [_delete_realm_by_state] the state has no realm id, at any
    instant, and every other key is as it was. *)
Theorem state_realm_deleted (now : instant) (st : pystr) (w : world) :
  let w' := snd (_delete_realm_by_state st w) in
  fst (_get_realm_by_state now st w') = Returns None /\
  (forall k, k <> state_prefix ++ st ->
             Redis.lookup (store w') k = Redis.lookup (store w) k).
Proof.
  unfold _get_realm_by_state, _delete_realm_by_state, bind, redis_get,
    redis_delete, ret. cbn [snd store fst]. split.
  - unfold Redis.get. rewrite lookup_delete_same. reflexivity.
  - intros k Hk. apply lookup_delete_other. assumption.
Qed.

Lemma state_realm_deleted_witness :
  let w := snd (_store_realm_by_state callback_time (py "s1") (py "123")
                  empty_world) in
  let w' := snd (_delete_realm_by_state (py "s1") w) in
  fst (_get_realm_by_state exchange_time (py "s1") w') = Returns None /\
  Redis.lookup (store w') (code_prefix ++ py "abc")
  = Redis.lookup (store w) (code_prefix ++ py "abc").
Proof.
  intros w w'.
  destruct (@state_realm_deleted exchange_time (py "s1") w) as [H1 H2].
  split; [exact H1|]. apply H2. discriminate.
Defined.

(* ===================================================================== *)
(** ** Beyond the claims: exchanges that find nothing, or fail *)
(* ===================================================================== *)

Lemma scan_put_dead now d prefix k e :
  Redis.scan_iter now d prefix = [] -> Redis.live now e = false ->
  Redis.scan_iter now (Redis.put d k e) prefix = [].
Proof.
  intros Hnil Hl. induction d as [|[k' e'] d IH]; simpl.
  - rewrite scan_cons, Hl, andb_false_r. reflexivity.
  - apply scan_nil_inv in Hnil. destruct Hnil as [Hc Hnil].
    destruct (pystr_eqb k' k) eqn:E.
    + rewrite scan_cons, Hl, andb_false_r. assumption.
    + rewrite scan_cons, Hc. apply IH. assumption.
Qed.

Lemma scan_delete_nil now d prefix k :
  Redis.scan_iter now d prefix = [] ->
  Redis.scan_iter now (Redis.delete d k) prefix = [].
Proof.
  intros Hnil. induction d as [|[k' e'] d IH]; simpl; [assumption|].
  apply scan_nil_inv in Hnil. destruct Hnil as [Hc Hnil].
  destruct (pystr_eqb k' k); simpl; [auto|].
  rewrite scan_cons, Hc. auto.
Qed.

Lemma resolve_realm_nothing now w :
  no_live_key (seconds now) (store w) state_prefix ->
  no_live_key (seconds now) (store w) code_prefix ->
  resolve_realm now w =
  (Returns PNone,
   {| store := store w;
      trace := trace w ++ [SCAN state_prefix; SCAN code_prefix] |}).
Proof.
  unfold no_live_key. intros Hs Hc.
  unfold resolve_realm, method_1, method_2, bind, redis_scan_iter.
  cbn [store trace]. rewrite Hs. cbn [scan_state_entries ret truthy negb].
  cbn [store trace]. rewrite Hc. cbn [scan_code_entries ret].
  rewrite <- app_assoc. reflexivity.
Qed.

(** The exchange when the lookup of the realm id comes back with a value
    that is not true: no binding is written. *)
Lemma exchange_unresolved {R} (now : instant)
    (code_store : pystr -> option CodeModel) (client_id : option pystr)
    (authorization_code : pystr) (parent : parent_result R) (w w' : world)
    (realm : PyVal) :
  resolve_realm now w = (Returns realm, w') -> truthy realm = false ->
  exchange_authorization_code now code_store client_id authorization_code
    parent w = (parent_outcome parent, w').
Proof.
  intros Hres Hr. unfold exchange_authorization_code.
  unfold bind at 1. rewrite Hres.
  destruct parent as [r|]; [|reflexivity].
  unfold bind at 1. cbn [call_parent ret]. rewrite Hr. cbn [andb].
  unfold bind, ret. cbn [parent_outcome]. reflexivity.
Qed.

(** X3: with no live state-prefixed and no live code-prefixed key, the
    exchange ends as the wrapped exchange ends, whatever the client and
    the authorization code: it scans twice, writes no binding and leaves
    the database as it was. *)
Theorem exchange_without_correlation {R} (now : instant)
    (code_store : pystr -> option CodeModel) (client_id : option pystr)
    (authorization_code : pystr) (parent : parent_result R) (w : world) :
  no_live_key (seconds now) (store w) state_prefix ->
  no_live_key (seconds now) (store w) code_prefix ->
  exchange_authorization_code now code_store client_id authorization_code
    parent w =
  (parent_outcome parent,
   {| store := store w;
      trace := trace w ++ [SCAN state_prefix; SCAN code_prefix] |}).
Proof.
  intros Hs Hc.
  eapply exchange_unresolved;
    [apply resolve_realm_nothing; assumption|reflexivity].
Qed.

Lemma exchange_without_correlation_witness :
  let w := snd (_handle_idp_callback callback_time
                  {| realmId := None; state := Some (py "s1");
                     code := Some (py "abc") |}
                  (ParentReturns tt) empty_world) in
  exchange_authorization_code exchange_time (fun _ => None)
    (Some (py "c1")) (py "code-1") (ParentReturns tt) w =
  (Returns tt,
   {| store := store w;
      trace := trace w ++ [SCAN state_prefix; SCAN code_prefix] |}).
Proof.
  intros w.
  apply (@exchange_without_correlation unit exchange_time (fun _ => None)
           (Some (py "c1")) (py "code-1") (ParentReturns tt) w).
  - reflexivity.
  - reflexivity.
Defined.

Lemma live_expired (t0 t1 ttl : N) (v : pystr) :
  (t0 + ttl < t1)%N ->
  Redis.live t1 {| Redis.value := v; Redis.expires_at := Some (t0 + ttl)%N |}
  = false.
Proof. intros H. unfold Redis.live. simpl. apply N.leb_gt. assumption. Qed.

Lemma apply_callback_writes_dead (t0 t1 : N) request d prefix :
  (t0 + 600 < t1)%N ->
  Redis.scan_iter t1 d prefix = [] ->
  Redis.scan_iter t1 (apply_writes t0 d (callback_writes request)) prefix = [].
Proof.
  intros Ht Hnil.
  destruct request as [[[|c1 r1]|] [[|c2 r2]|] [[|c3 r3]|]];
    cbn [callback_writes realmId state code app apply_writes];
    unfold Redis.setex;
    auto using scan_put_dead, live_expired.
Qed.

(** X4: the entries of a callback die after 600 seconds: an exchange made
    more than 600 seconds after the callback, with no other live state or
    code key, resolves nothing, writes no binding and leaves the database
    as the callback left it. *)
Theorem exchange_after_expiry {R S} (t0 t1 : instant) (request : Request)
    (pc : parent_result S) (w0 : world)
    (code_store : pystr -> option CodeModel) (client_id : option pystr)
    (authorization_code : pystr) (parent : parent_result R) :
  (seconds t0 + 600 < seconds t1)%N ->
  no_live_key (seconds t1) (store w0) state_prefix ->
  no_live_key (seconds t1) (store w0) code_prefix ->
  let w1 := snd (_handle_idp_callback t0 request pc w0) in
  exchange_authorization_code t1 code_store client_id authorization_code
    parent w1 =
  (parent_outcome parent,
   {| store := store w1;
      trace := trace w1 ++ [SCAN state_prefix; SCAN code_prefix] |}).
Proof.
  intros Ht Hs Hc w1. subst w1. rewrite callback_run. cbn [snd].
  eapply exchange_unresolved;
    [apply resolve_realm_nothing; cbn [store]; unfold no_live_key;
     apply apply_callback_writes_dead; assumption
    |reflexivity].
Qed.

Lemma exchange_after_expiry_witness :
  let late := {| seconds := 1601; isoformat := py "2024-01-01T00:26:41" |} in
  let w1 := snd (_handle_idp_callback callback_time
                   {| realmId := Some (py "123"); state := Some (py "s1");
                      code := Some (py "abc") |}
                   (ParentReturns tt) empty_world) in
  exchange_authorization_code late (fun _ => None) (Some (py "c1"))
    (py "code-1") (ParentReturns tt) w1 =
  (Returns tt,
   {| store := store w1;
      trace := trace w1 ++ [SCAN state_prefix; SCAN code_prefix] |}).
Proof.
  intros late w1.
  apply (@exchange_after_expiry unit unit callback_time late
           {| realmId := Some (py "123"); state := Some (py "s1");
              code := Some (py "abc") |}
           (ParentReturns tt) empty_world (fun _ => None) (Some (py "c1"))
           (py "code-1") (ParentReturns tt)).
  - reflexivity.
  - reflexivity.
  - reflexivity.
Defined.

Lemma delete_put d k e : Redis.delete (Redis.put d k e) k = Redis.delete d k.
Proof.
  unfold Redis.delete. induction d as [|[k' e'] d IH]; simpl.
  - rewrite pystr_eqb_refl. reflexivity.
  - destruct (pystr_eqb k' k) eqn:E; simpl; rewrite E; simpl.
    + reflexivity.
    + rewrite IH. reflexivity.
Qed.

Lemma scan_delete now d prefix k :
  Redis.scan_iter now (Redis.delete d k) prefix =
  filter (fun x => negb (pystr_eqb x k)) (Redis.scan_iter now d prefix).
Proof.
  induction d as [|[k' e'] d IH]; [reflexivity|].
  rewrite scan_cons. unfold Redis.delete in *. simpl.
  destruct (pystr_eqb k' k) eqn:E; simpl.
  - rewrite IH. destruct (startswith prefix k' && Redis.live now e');
      simpl; rewrite ?E; reflexivity.
  - rewrite scan_cons, IH.
    destruct (startswith prefix k' && Redis.live now e');
      simpl; rewrite ?E; reflexivity.
Qed.

Lemma get_delete_other now d k k' :
  k' <> k -> Redis.get now (Redis.delete d k) k' = Redis.get now d k'.
Proof.
  intros H. unfold Redis.get. rewrite lookup_delete_other by assumption.
  reflexivity.
Qed.

Lemma exchange_parent_raises {R} (now : instant) code_store
    (client_id : option pystr) (authorization_code : pystr)
    (w w1 : world) (r : PyVal) :
  resolve_realm now w = (Returns r, w1) ->
  exchange_authorization_code (R:=R) now code_store client_id
    authorization_code ParentRaises w = (Raises ParentError, w1).
Proof.
  intros H. unfold exchange_authorization_code.
  unfold bind at 1. rewrite H. reflexivity.
Qed.

(** X5: the realm id is consumed before the wrapped exchange runs.  A
    callback carries a non-empty [state], no [code], and a realm id that
    is non-empty text which the state scan hands on as it stands (at most
    4300 decimal digits, or text that is no JSON).  An exchange less than
    600 seconds later, with no other live state key, whose wrapped
    exchange raises, raises too; the state entry is gone and nothing is
    bound.  A later exchange, at an instant with no other live state or
    code key, finds nothing and binds nothing, however its wrapped
    exchange ends. *)
Theorem failed_exchange_loses_realm {R} (t0 t1 t2 : instant)
    (st tenant : pystr) (pc : parent_result R) (w0 : world)
    (code_store : pystr -> option CodeModel) (client_id : option pystr)
    (authorization_code : pystr) (parent : parent_result R) :
  st <> [] -> tenant <> [] -> kept_by_state_scan tenant ->
  (seconds t1 < seconds t0 + 600)%N ->
  no_live_key (seconds t1) (store w0) state_prefix ->
  no_live_key (seconds t2) (store w0) state_prefix ->
  no_live_key (seconds t2) (store w0) code_prefix ->
  let w1 := snd (_handle_idp_callback t0
                   {| realmId := Some tenant; state := Some st;
                      code := None |} pc w0) in
  let first := exchange_authorization_code (R:=R) t1 code_store client_id
                 authorization_code ParentRaises w1 in
  let second := exchange_authorization_code t2 code_store client_id
                  authorization_code parent (snd first) in
  fst first = Raises ParentError /\
  store (snd first) = Redis.delete (store w0) (state_prefix ++ st) /\
  second =
  (parent_outcome parent,
   {| store := store (snd first);
      trace := trace (snd first) ++ [SCAN state_prefix; SCAN code_prefix] |}).
Proof.
  intros Hst Hten Hkept Ht Hno1 Hs2 Hc2 w1 first second.
  destruct (@callback_state_entry R t0 (seconds t1) st tenant None pc w0
              Hst Hten Ht Hno1) as [Hscan Hget].
  fold w1 in Hscan, Hget.
  pose proof (@resolve_realm_single_state t1 _ _ w1 Hscan Hget Hkept Hten)
    as Hres.
  assert (Hw1 : store w1 = Redis.setex (seconds t0) (store w0)
                             (state_prefix ++ st) 600 tenant).
  { subst w1. rewrite callback_run. cbn [snd store].
    destruct st; [congruence|]. destruct tenant; [congruence|]. reflexivity. }
  assert (Hfirst : first =
            (Raises ParentError,
             {| store := Redis.delete (store w1) (state_prefix ++ st);
                trace := trace w1 ++
                         [SCAN state_prefix; GET (state_prefix ++ st);
                          DEL (state_prefix ++ st)] |})).
  { subst first. eapply exchange_parent_raises. exact Hres. }
  assert (Hstore : Redis.delete (store w1) (state_prefix ++ st)
                   = Redis.delete (store w0) (state_prefix ++ st)).
  { rewrite Hw1. unfold Redis.setex. apply delete_put. }
  subst second. rewrite Hfirst. cbn [fst snd store trace].
  split; [reflexivity|]. split; [assumption|].
  eapply exchange_unresolved;
    [apply resolve_realm_nothing; cbn [store]; rewrite Hstore;
     unfold no_live_key; apply scan_delete_nil; assumption
    |reflexivity].
Qed.

Lemma failed_exchange_loses_realm_witness :
  let w1 := snd (_handle_idp_callback callback_time
                   {| realmId := Some (py "123"); state := Some (py "s1");
                      code := None |} (ParentReturns tt) empty_world) in
  let first := exchange_authorization_code (R:=unit) exchange_time
                 (fun _ => None) (Some (py "c1")) (py "code-1")
                 ParentRaises w1 in
  let second := exchange_authorization_code exchange_time (fun _ => None)
                  (Some (py "c1")) (py "code-1") (ParentReturns tt)
                  (snd first) in
  fst first = Raises ParentError /\
  store (snd first) = Redis.delete (store empty_world) (state_prefix ++ py "s1") /\
  second =
  (Returns tt,
   {| store := store (snd first);
      trace := trace (snd first) ++ [SCAN state_prefix; SCAN code_prefix] |}).
Proof.
  apply (@failed_exchange_loses_realm unit callback_time exchange_time
           exchange_time (py "s1") (py "123") (ParentReturns tt) empty_world
           (fun _ => None) (Some (py "c1")) (py "code-1") (ParentReturns tt)).
  - discriminate.
  - discriminate.
  - right. split; [reflexivity|]. unfold Json.max_int_digits. simpl. lia.
  - reflexivity.
  - reflexivity.
  - reflexivity.
  - reflexivity.
Defined.

Lemma resolve_realm_single_code now key t w :
  no_live_key (seconds now) (store w) state_prefix ->
  Redis.scan_iter (seconds now) (store w) code_prefix = [key] ->
  Redis.get (seconds now) (store w) key = Some t -> t <> [] ->
  resolve_realm now w =
  (Returns (PStr t),
   {| store := Redis.delete (store w) key;
      trace := trace w ++
               [SCAN state_prefix; SCAN code_prefix; GET key; DEL key] |}).
Proof.
  unfold no_live_key. intros Hs Hc Hget Hne.
  unfold resolve_realm, method_1, method_2, bind, redis_scan_iter.
  cbn [store trace]. rewrite Hs. cbn [scan_state_entries ret truthy negb].
  cbn [store trace]. rewrite Hc. cbn [scan_code_entries].
  unfold bind, redis_get, redis_delete, ret. cbn [store trace].
  rewrite Hget. destruct t as [|c v]; [congruence|].
  cbn [store trace]. rewrite <- !app_assoc. reflexivity.
Qed.

(** X6: when the callback carried a [code] as well, its code-keyed entry
    outlives an exchange whose wrapped call raised.  The callback carries
    a non-empty [state], a non-empty [code] and a realm id that is
    non-empty text which the state scan hands on as it stands (at most
    4300 decimal digits, or text that is no JSON); the client id is not
    empty.  A first exchange less than 600 seconds after the callback,
    with no other live state key, raises with its wrapped exchange; a
    second exchange, also less than 600 seconds after the callback, with
    no other live state or code key and a wrapped exchange that returns,
    resolves the realm id from the code-keyed entry, deletes that entry
    and binds the realm id to the client. *)
Theorem retry_resolves_from_code_entry {R} (t0 t1 t2 : instant)
    (st tenant cd client : pystr) (pc : parent_result R) (w0 : world)
    (code_store : pystr -> option CodeModel)
    (authorization_code : pystr) (r : R) :
  st <> [] -> tenant <> [] -> cd <> [] -> client <> [] ->
  kept_by_state_scan tenant ->
  (seconds t1 < seconds t0 + 600)%N ->
  (seconds t2 < seconds t0 + 600)%N ->
  no_live_key (seconds t1) (store w0) state_prefix ->
  no_live_key (seconds t2) (store w0) state_prefix ->
  no_live_key (seconds t2) (store w0) code_prefix ->
  let w1 := snd (_handle_idp_callback t0
                   {| realmId := Some tenant; state := Some st;
                      code := Some cd |} pc w0) in
  let first := exchange_authorization_code (R:=R) t1 code_store (Some client)
                 authorization_code ParentRaises w1 in
  let second := exchange_authorization_code t2 code_store (Some client)
                  authorization_code (ParentReturns r) (snd first) in
  fst first = Raises ParentError /\
  fst second = Returns r /\
  Redis.lookup (store (snd second)) (code_prefix ++ cd) = None /\
  Redis.get (seconds t2) (store (snd second)) (client_prefix ++ client)
  = Some (Json.dumps
            (binding_record t2 (PStr tenant)
               (idp_refresh_token (code_store authorization_code)))).
Proof.
  intros Hst Hten Hcd Hcl Hkept Ht1 Ht2 Hno1 Hs2 Hc2 w1 first second.
  destruct (@callback_state_entry R t0 (seconds t1) st tenant (Some cd) pc w0
              Hst Hten Ht1 Hno1) as [Hscan Hget].
  fold w1 in Hscan, Hget.
  pose proof (@resolve_realm_single_state t1 _ _ w1 Hscan Hget Hkept Hten)
    as Hres.
  set (sk := state_prefix ++ st) in *. set (ck := code_prefix ++ cd) in *.
  assert (Hw1 : store w1 =
                Redis.setex (seconds t0)
                  (Redis.setex (seconds t0) (store w0) sk 600 tenant)
                  ck 600 tenant).
  { subst w1 sk ck. rewrite callback_run. cbn [snd store].
    destruct st; [congruence|]. destruct tenant; [congruence|].
    destruct cd; [congruence|]. reflexivity. }
  assert (Hfirst : first =
            (Raises ParentError,
             {| store := Redis.delete (store w1) sk;
                trace := trace w1 ++ [SCAN state_prefix; GET sk; DEL sk] |})).
  { subst first. eapply exchange_parent_raises. exact Hres. }
  assert (Hne : ck <> sk).
  { subst sk ck. intros E. symmetry in E. revert E.
    apply state_key_neq_code_key. }
  assert (Hstate2 : no_live_key (seconds t2)
                      (Redis.delete (store w1) sk) state_prefix).
  { unfold no_live_key. rewrite scan_delete, Hw1. unfold Redis.setex.
    rewrite scan_put_other by apply code_key_not_state.
    rewrite scan_put_fresh;
      [|assumption|apply startswith_app|apply live_within; assumption].
    cbn [filter]. rewrite pystr_eqb_refl. reflexivity. }
  assert (Hcode2 : Redis.scan_iter (seconds t2)
                     (Redis.delete (store w1) sk) code_prefix = [ck]).
  { rewrite scan_delete, Hw1. unfold Redis.setex.
    rewrite scan_put_fresh;
      [|rewrite scan_put_other by apply state_key_not_code; assumption
       |apply startswith_app|apply live_within; assumption].
    cbn [filter]. rewrite (pystr_eqb_neq Hne). reflexivity. }
  assert (Hget2 : Redis.get (seconds t2) (Redis.delete (store w1) sk) ck
                  = Some tenant).
  { rewrite get_delete_other by assumption. rewrite Hw1.
    unfold Redis.setex. apply get_put_same. apply live_within. assumption. }
  assert (Htr : truthy (PStr tenant) = true).
  { destruct tenant; [congruence|reflexivity]. }
  subst second. rewrite Hfirst. cbn [fst snd].
  split; [reflexivity|].
  erewrite exchange_run;
    [|assumption|exact Htr
     |apply resolve_realm_single_code; cbn [store]; eassumption].
  cbn [fst snd store]. repeat split.
  - unfold Redis.set. rewrite lookup_put_other
      by apply client_key_neq_code_key.
    apply lookup_delete_same.
  - unfold Redis.set. apply get_put_same. reflexivity.
Qed.

Lemma retry_resolves_from_code_entry_witness :
  let w1 := snd (_handle_idp_callback callback_time
                   {| realmId := Some (py "123"); state := Some (py "s1");
                      code := Some (py "abc") |}
                   (ParentReturns tt) empty_world) in
  let first := exchange_authorization_code (R:=unit) exchange_time
                 (fun _ => None) (Some (py "c1")) (py "code-1")
                 ParentRaises w1 in
  let second := exchange_authorization_code exchange_time (fun _ => None)
                  (Some (py "c1")) (py "code-1") (ParentReturns tt)
                  (snd first) in
  fst first = Raises ParentError /\
  fst second = Returns tt /\
  Redis.lookup (store (snd second)) (code_prefix ++ py "abc") = None /\
  Redis.get (seconds exchange_time) (store (snd second))
    (client_prefix ++ py "c1")
  = Some (Json.dumps (binding_record exchange_time (PStr (py "123")) PNone)).
Proof.
  apply (@retry_resolves_from_code_entry unit callback_time exchange_time
           exchange_time (py "s1") (py "123") (py "abc") (py "c1")
           (ParentReturns tt) empty_world (fun _ => None) (py "code-1") tt).
  - discriminate.
  - discriminate.
  - discriminate.
  - discriminate.
  - right. split; [reflexivity|]. unfold Json.max_int_digits. simpl. lia.
  - reflexivity.
  - reflexivity.
  - reflexivity.
  - reflexivity.
  - reflexivity.
Defined.

(* ===================================================================== *)
(** ** What the operations leave alone *)
(* ===================================================================== *)

Lemma prefixed_neq (prefix s k : pystr) :
  startswith prefix k = false -> k <> prefix ++ s.
Proof.
  intros H E. subst k. rewrite startswith_app in H. discriminate.
Qed.

(** The writes of a callback leave the keys outside the state and code
    prefixes alone. *)
Lemma callback_writes_frame (now : N) (d : Redis.db) (request : Request)
    (k : pystr) :
  startswith state_prefix k = false ->
  startswith code_prefix k = false ->
  Redis.lookup (apply_writes now d (callback_writes request)) k
  = Redis.lookup d k.
Proof.
  intros Hs Hc.
  destruct request as [[[|c1 r1]|] [[|c2 r2]|] [[|c3 r3]|]];
    cbn [callback_writes realmId state code app apply_writes];
    unfold Redis.setex;
    rewrite ?lookup_put_other by (apply prefixed_neq; assumption);
    reflexivity.
Qed.

(** X7: the callback writes under the state and code prefixes only: every
    other key (a client binding, an idempotency record) keeps the entry
    it had, whatever the request carries. *)
Theorem callback_touches_only_correlation_keys {R} (now : instant)
    (request : Request) (parent : parent_result R) (w : world) (k : pystr) :
  startswith state_prefix k = false ->
  startswith code_prefix k = false ->
  Redis.lookup (store (snd (_handle_idp_callback now request parent w))) k
  = Redis.lookup (store w) k.
Proof.
  intros Hs Hc. rewrite callback_run. cbn [snd store].
  apply callback_writes_frame; assumption.
Qed.

Lemma callback_touches_only_correlation_keys_witness :
  let w := {| store := Redis.set [] (client_prefix ++ py "c1") (py "{}");
              trace := [] |} in
  Redis.lookup
    (store (snd (_handle_idp_callback callback_time
                   {| realmId := Some (py "123"); state := Some (py "s1");
                      code := Some (py "abc") |}
                   (ParentReturns tt) w)))
    (client_prefix ++ py "c1")
  = Redis.lookup (store w) (client_prefix ++ py "c1").
Proof.
  apply (@callback_touches_only_correlation_keys unit callback_time
           {| realmId := Some (py "123"); state := Some (py "s1");
              code := Some (py "abc") |}
           (ParentReturns tt)
           {| store := Redis.set [] (client_prefix ++ py "c1") (py "{}");
              trace := [] |}
           (client_prefix ++ py "c1")).
  - reflexivity.
  - reflexivity.
Defined.

(** X8: [verify_token] never writes: whatever the introspection call
    comes back with and whatever the database holds, the database is the
    same afterwards. *)
Theorem verify_token_never_writes
    (now : instant) (required_scopes : list pystr) (upstream : http_outcome)
    (tok : pystr) (w : world) :
  store (snd (verify_token now required_scopes upstream tok w)) = store w.
Proof.
  destruct upstream as [status_code body| |]; [|reflexivity|reflexivity].
  unfold verify_token, get_realm_data_by_client_id,
    json_loads, attr_get, redis_scan_iter, redis_get, emit,
    http_result, try_except, bind, ret, raise, unmodelled.
  cbv beta iota. cbn [store trace].
  destruct (N.eqb status_code 401); [reflexivity|].
  cbv beta iota. cbn [store trace].
  destruct (Redis.scan_iter (seconds now) (store w) client_prefix)
    as [|key keys]; [reflexivity|].
  cbv beta iota. cbn [store trace].
  destruct (Redis.get (seconds now) (store w)
              (client_prefix ++ last_segment key [])) as [[|c v]|];
    [reflexivity| |reflexivity].
  destruct (Json.loads (c :: v)) as [rv| |]; [|reflexivity|reflexivity].
  destruct rv as [|b|z|s|l|d]; try (destruct (truthy _); reflexivity).
  destruct (truthy (PDict d));
    [destruct (dict_get d (py "realm_id")) as [x|]|]; reflexivity.
Qed.

(** However the state scan ends, it has deleted at most one of the keys it
    was given. *)
Lemma scan_state_entries_store now keys :
  forall r0 w o w',
    scan_state_entries now keys r0 w = (o, w') ->
    store w' = store w \/
    exists key, In key keys /\ store w' = Redis.delete (store w) key.
Proof.
  induction keys as [|key keys IH]; intros r0 w o w' H.
  - cbn in H. inversion H; subst. left. reflexivity.
  - cbn [scan_state_entries] in H. unfold bind at 1 in H.
    unfold redis_get in H.
    assert (Hcont : forall r1,
               scan_state_entries now keys r1
                 {| store := store w; trace := trace w ++ [GET key] |}
               = (o, w') ->
               store w' = store w \/
               exists k, In k (key :: keys) /\
                         store w' = Redis.delete (store w) k).
    { intros r1 H1. apply IH in H1. cbn [store] in H1.
      destruct H1 as [Hs|[k [Hin Hs]]]; [left; assumption|].
      right. exists k. simpl. auto. }
    assert (Hdel : forall r1,
               (redis_delete key ;;; ret r1)
                 {| store := store w; trace := trace w ++ [GET key] |}
               = (o, w') ->
               store w' = store w \/
               exists k, In k (key :: keys) /\
                         store w' = Redis.delete (store w) k).
    { intros r1 H1. unfold bind, redis_delete, ret in H1.
      cbn [store trace] in H1. inversion H1; subst.
      right. exists key. simpl. auto. }
    assert (Hstop : (@unmodelled PyVal)
                      {| store := store w; trace := trace w ++ [GET key] |}
                    = (o, w') ->
                    store w' = store w \/
                    exists k, In k (key :: keys) /\
                              store w' = Redis.delete (store w) k).
    { intros H1. unfold unmodelled in H1. inversion H1; subst.
      left. reflexivity. }
    destruct (Redis.get (seconds now) (store w) key) as [[|c v]|].
    + apply (Hcont r0); auto.
    + destruct (Json.loads (c :: v)) as [rv| |].
      * destruct rv as [|b|z|s|l|d].
        all: try (cbn [py_str py_repr] in H;
                  match type of H with
                  | context [match ?o with Some _ => _ | None => _ end] =>
                      destruct o as [t|] eqn:Eo; [|exact (Hstop H)]
                  | _ => idtac
                  end;
                  match type of H with
                  | context [truthy ?x] =>
                      destruct (truthy x) eqn:Et;
                      [apply (Hdel x); assumption
                      |apply (Hcont x); auto]
                  end).
      * apply (Hdel (PStr (c :: v))); assumption.
      * exact (Hstop H).
    + apply (Hcont r0); auto.
Qed.

Lemma scan_code_entries_store now keys :
  forall r0 w o w',
    scan_code_entries now keys r0 w = (o, w') ->
    store w' = store w \/
    exists key, In key keys /\ store w' = Redis.delete (store w) key.
Proof.
  induction keys as [|key keys IH]; intros r0 w o w' H.
  - cbn in H. inversion H; subst. left. reflexivity.
  - cbn [scan_code_entries] in H. unfold bind at 1 in H.
    unfold redis_get in H.
    destruct (Redis.get (seconds now) (store w) key) as [[|c v]|].
    + apply IH in H. cbn [store] in H.
      destruct H as [Hs|[k [Hin Hs]]]; [left; assumption|right].
      exists k. simpl. auto.
    + unfold bind, redis_delete, ret in H. cbn [store trace] in H.
      inversion H; subst. right. exists key. simpl. auto.
    + apply IH in H. cbn [store] in H.
      destruct H as [Hs|[k [Hin Hs]]]; [left; assumption|right].
      exists k. simpl. auto.
Qed.

(** The lookup of the realm id, however it ends, leaves every key outside
    the state and code prefixes as it was. *)
Lemma resolve_realm_frame now w k :
  startswith state_prefix k = false ->
  startswith code_prefix k = false ->
  Redis.lookup (store (snd (resolve_realm now w))) k = Redis.lookup (store w) k.
Proof.
  intros Hs Hc.
  assert (Hkeep : forall prefix d (w' : world),
             startswith prefix k = false ->
             (store w' = d \/
              exists key, In key (Redis.scan_iter (seconds now) d prefix) /\
                          store w' = Redis.delete d key) ->
             Redis.lookup (store w') k = Redis.lookup d k).
  { intros prefix d w' Hp [H|[key [Hin H]]]; rewrite H; [reflexivity|].
    apply scan_key_in in Hin. destruct Hin as [Hq _].
    apply lookup_delete_other. intros E. subst key. congruence. }
  assert (H1 : Redis.lookup (store (snd (method_1 now w))) k
               = Redis.lookup (store w) k).
  { destruct (method_1 now w) as [o w'] eqn:E. cbn [snd].
    unfold method_1 in E. unfold bind at 1 in E. unfold redis_scan_iter in E.
    apply scan_state_entries_store in E. cbn [store] in E.
    exact (Hkeep state_prefix (store w) w' Hs E). }
  assert (H2 : forall r0 w1,
             Redis.lookup (store (snd (method_2 now r0 w1))) k
             = Redis.lookup (store w1) k).
  { intros r0 w1. destruct (method_2 now r0 w1) as [o w'] eqn:E. cbn [snd].
    unfold method_2 in E. unfold bind at 1 in E. unfold redis_scan_iter in E.
    apply scan_code_entries_store in E. cbn [store] in E.
    exact (Hkeep code_prefix (store w1) w' Hc E). }
  unfold resolve_realm. unfold bind at 1.
  destruct (method_1 now w) as [[r1| |] w1]; cbn [snd] in H1;
    [|exact H1|exact H1].
  destruct (negb (truthy r1)); [rewrite H2; exact H1|exact H1].
Qed.

(** After the lookup of the realm id, an exchange writes at most the
    binding of its client. *)
Lemma exchange_after_resolve {R} (now : instant)
    (code_store : pystr -> option CodeModel) (client_id : option pystr)
    (authorization_code : pystr) (parent : parent_result R) (w : world)
    (k : pystr) :
  (forall c, client_id = Some c -> k <> client_prefix ++ c) ->
  Redis.lookup
    (store (snd (exchange_authorization_code now code_store client_id
                   authorization_code parent w))) k
  = Redis.lookup (store (snd (resolve_realm now w))) k.
Proof.
  intros Hk.
  unfold exchange_authorization_code. unfold bind at 1.
  destruct (resolve_realm now w) as [[r| |] w1]; cbn [snd];
    [|reflexivity|reflexivity].
  destruct parent as [x|]; [|reflexivity].
  unfold bind at 1. cbn [call_parent ret].
  destruct (truthy r && present client_id); [|reflexivity].
  destruct client_id as [c|]; [|reflexivity].
  unfold bind. rewrite store_realm_run. cbn [ret snd store].
  unfold Redis.set. apply lookup_put_other. apply Hk. reflexivity.
Qed.

(** X9: an exchange touches no key but those under the state and code
    prefixes and the binding of its own client: the bindings of other
    clients and the idempotency records keep their entries, whether the
    exchange returns, raises or resolves nothing. *)
Theorem exchange_touches_only_own_keys {R} (now : instant)
    (code_store : pystr -> option CodeModel) (client_id : option pystr)
    (authorization_code : pystr) (parent : parent_result R) (w : world)
    (k : pystr) :
  startswith state_prefix k = false ->
  startswith code_prefix k = false ->
  (forall c, client_id = Some c -> k <> client_prefix ++ c) ->
  Redis.lookup
    (store (snd (exchange_authorization_code now code_store client_id
                   authorization_code parent w))) k
  = Redis.lookup (store w) k.
Proof.
  intros Hs Hc Hk. rewrite exchange_after_resolve by assumption.
  apply resolve_realm_frame; assumption.
Qed.

Lemma exchange_touches_only_own_keys_witness :
  let w0 := {| store := Redis.set [] (client_prefix ++ py "c2") (py "{}");
               trace := [] |} in
  let w1 := snd (_handle_idp_callback callback_time
                   {| realmId := Some (py "123"); state := Some (py "s1");
                      code := None |}
                   (ParentReturns tt) w0) in
  Redis.lookup
    (store (snd (exchange_authorization_code exchange_time (fun _ => None)
                   (Some (py "c1")) (py "code-1") (ParentReturns tt) w1)))
    (client_prefix ++ py "c2")
  = Redis.lookup (store w1) (client_prefix ++ py "c2").
Proof.
  apply (@exchange_touches_only_own_keys unit exchange_time (fun _ => None)
           (Some (py "c1")) (py "code-1") (ParentReturns tt)
           (snd (_handle_idp_callback callback_time
                   {| realmId := Some (py "123"); state := Some (py "s1");
                      code := None |}
                   (ParentReturns tt)
                   {| store := Redis.set [] (client_prefix ++ py "c2")
                                 (py "{}");
                      trace := [] |}))
           (client_prefix ++ py "c2")).
  - reflexivity.
  - reflexivity.
  - intros c E. inversion E; subst. vm_compute. discriminate.
Defined.

(* ===================================================================== *)
(** ** The refresh, on the bodies a 200 can carry *)
(* ===================================================================== *)

(** X10: a refresh that comes back with 200 but with a body that
    [response.json()] does not read as a JSON object is swallowed: the
    call returns [None] and nothing is written, so the binding keeps the
    token it had.  [response.json()] reads the bytes of the body as UTF-8,
    a leading byte order mark dropped.  The body is no JSON at all, or
    the JSON of a list, a whole number, a text, a boolean or [null];
    bodies outside the model (a float, an integer of more than 4300
    digits, nesting deeper than 100, a zero among the first two bytes,
    which makes the bytes UTF-16 or UTF-32) are not covered. *)
Theorem refresh_unreadable_body_leaves_binding
    (now : instant) (body rt realm cid : pystr) (w : world) :
  not_an_object body ->
  _refresh_token now (HttpResponse 200 body) rt realm cid w =
  (Returns None,
   {| store := store w;
      trace := trace w ++ [HTTP_POST QBO_TOKEN_ENDPOINT rt] |}).
Proof.
  unfold not_an_object. intros H.
  unfold _refresh_token, response_json, attr_get, store_realm_by_client_id,
    emit, http_result, try_except, bind, ret, raise.
  cbv beta iota. cbn [N.eqb Pos.eqb negb store trace].
  destruct (Json.loads_utf8 body) as [rv| |]; [|reflexivity|contradiction].
  destruct rv as [|b|z|s|l|d]; try reflexivity. contradiction.
Qed.

Lemma refresh_unreadable_body_leaves_binding_witness :
  let w := {| store := Redis.set [] (client_prefix ++ py "c1")
                         (Json.dumps (binding_record callback_time
                                        (PStr (py "123")) (PStr (py "R1"))));
              trace := [] |} in
  not_an_object (py "<html>ok</html>") /\
  _refresh_token exchange_time (HttpResponse 200 (py "<html>ok</html>"))
    (py "R1") (py "123") (py "c1") w =
  (Returns None,
   {| store := store w;
      trace := trace w ++ [HTTP_POST QBO_TOKEN_ENDPOINT (py "R1")] |}).
Proof.
  split.
  - vm_compute. exact I.
  - apply (@refresh_unreadable_body_leaves_binding exchange_time
             (py "<html>ok</html>") (py "R1") (py "123") (py "c1")).
    vm_compute. exact I.
Defined.

(** X11: a refresh that comes back with 200 and a JSON object without a
    [refresh_token] writes the token it was called with back into the
    binding, and returns it as the new refresh token. *)
Theorem refresh_without_rotation_keeps_token
    (now later : instant) (body : pystr) (d : list (pystr * PyVal))
    (rt realm cid : pystr) (w : world) :
  Json.loads body = Json.Loaded (PDict d) ->
  dict_get d (py "refresh_token") = None ->
  well_formed rt = true -> well_formed realm = true ->
  well_formed (isoformat now) = true ->
  let res := _refresh_token now (HttpResponse 200 body) rt realm cid w in
  fst res = Returns (Some (get_or d (py "access_token") PNone, PStr rt)) /\
  fst (get_realm_data_by_client_id later cid (snd res))
  = Returns (binding_record now (PStr realm) (PStr rt)).
Proof.
  intros Hbody Hnone Hwt Hwr Hwn res. subst res.
  rewrite (@refresh_run now body d rt realm cid w Hbody).
  assert (E : get_or d (py "refresh_token") (PStr rt) = PStr rt)
    by (unfold get_or; rewrite Hnone; reflexivity).
  rewrite E. cbn [fst snd]. split; [reflexivity|].
  apply get_realm_data_after_set; assumption.
Qed.

Lemma refresh_without_rotation_keeps_token_witness :
  let body := Json.dumps (PDict [(py "access_token", PStr (py "A2"))]) in
  let res := _refresh_token exchange_time (HttpResponse 200 body)
               (py "R1") (py "123") (py "c1") empty_world in
  fst res = Returns (Some (get_or [(py "access_token", PStr (py "A2"))]
                             (py "access_token") PNone, PStr (py "R1"))) /\
  fst (get_realm_data_by_client_id exchange_time (py "c1") (snd res))
  = Returns (binding_record exchange_time (PStr (py "123")) (PStr (py "R1"))).
Proof.
  apply (@refresh_without_rotation_keeps_token exchange_time exchange_time
           (Json.dumps (PDict [(py "access_token", PStr (py "A2"))]))
           [(py "access_token", PStr (py "A2"))]
           (py "R1") (py "123") (py "c1") empty_world).
  - vm_compute. reflexivity.
  - reflexivity.
  - reflexivity.
  - reflexivity.
  - reflexivity.
Defined.

(* ===================================================================== *)
(** ** A binding without a refresh token, written and read back *)
(* ===================================================================== *)

Section BindingWithoutToken.

Local Open Scope N_scope.

Lemma parse_value_null fuel depth r :
  Json.parse_value (S fuel) depth (110 :: 117 :: 108 :: 108 :: r)
  = Json.Parsed PNone r.
Proof. reflexivity. Qed.

Lemma dumps_binding_null_text now realm :
  Json.dumps (binding_record now (PStr realm) PNone) =
  123 :: 34 :: flat_map Json.escape_char (py "realm_id") ++
  34 :: 58 :: 32 :: 34 :: flat_map Json.escape_char realm ++
  34 :: 44 :: 32 :: 34 :: flat_map Json.escape_char (py "refresh_token") ++
  34 :: 58 :: 32 :: 110 :: 117 :: 108 :: 108 :: 44 :: 32 ::
  34 :: flat_map Json.escape_char (py "updated_at") ++
  34 :: 58 :: 32 :: 34 :: flat_map Json.escape_char (isoformat now) ++
  [34; 125].
Proof.
  unfold binding_record. cbn [Json.dumps]. unfold Json.encode_str.
  change (py ": ") with [58; 32]. change (py ", ") with [44; 32].
  change (py "null") with [110; 117; 108; 108].
  change (py "{") with [123]. change (py "}") with [125].
  repeat (cbn [app]; rewrite <- ?app_assoc).
  reflexivity.
Qed.

Lemma loads_dumps_binding_null now realm :
  well_formed realm = true -> well_formed (isoformat now) = true ->
  Json.loads (Json.dumps (binding_record now (PStr realm) PNone)) =
  Json.Loaded (binding_record now (PStr realm) PNone).
Proof.
  intros Hr Hn. unfold Json.loads.
  set (text := Json.dumps (binding_record now (PStr realm) PNone)).
  assert (Hf : exists fuel,
             (2 * List.length text + 2 = 8 + fuel)%nat).
  { exists (2 * List.length text - 6)%nat.
    subst text. rewrite dumps_binding_null_text.
    cbn [List.length]. rewrite !length_app. cbn [List.length]. lia. }
  destruct Hf as [fuel ->]. subst text.
  rewrite dumps_binding_null_text.
  rewrite (@skip_ws_nonws 123) by reflexivity.
  unfold Json.max_nesting.
  cbn [Nat.add].
  rewrite parse_value_object by reflexivity.
  rewrite parse_members_step by reflexivity.
  rewrite (@skip_ws_nonws 34) by reflexivity.
  rewrite parse_value_string by assumption.
  rewrite (@skip_ws_nonws 44) by reflexivity.
  cbn [N.eqb Pos.eqb]. rewrite skip_ws_space.
  rewrite (@skip_ws_nonws 34) by reflexivity.
  rewrite parse_members_step by reflexivity.
  rewrite (@skip_ws_nonws 110) by reflexivity.
  rewrite parse_value_null.
  rewrite (@skip_ws_nonws 44) by reflexivity.
  cbn [N.eqb Pos.eqb]. rewrite skip_ws_space.
  rewrite (@skip_ws_nonws 34) by reflexivity.
  rewrite parse_members_step by reflexivity.
  rewrite (@skip_ws_nonws 34) by reflexivity.
  change [34; 125] with (34 :: [125]).
  rewrite parse_value_string by assumption.
  rewrite (@skip_ws_nonws 125) by reflexivity.
  reflexivity.
Qed.

End BindingWithoutToken.

Lemma loads_dumps_binding_any now realm rt :
  well_formed realm = true -> storable_token rt = true ->
  well_formed (isoformat now) = true ->
  Json.loads (Json.dumps (binding_record now (PStr realm) rt)) =
  Json.Loaded (binding_record now (PStr realm) rt).
Proof.
  intros Hr Ht Hn. destruct rt as [|b|z|s|l|d]; try discriminate Ht.
  - apply loads_dumps_binding_null; assumption.
  - apply loads_dumps_binding; assumption.
Qed.

(* ===================================================================== *)
(** ** From the callback to the claims of a request *)
(* ===================================================================== *)

Lemma last_segment_colon_free (s : pystr) : forall acc,
  colon_free s = true -> last_segment s acc = List.rev acc ++ s.
Proof.
  induction s as [|c s IH]; intros acc H.
  - cbn. rewrite app_nil_r. reflexivity.
  - cbn [colon_free forallb] in H. apply andb_true_iff in H.
    destruct H as [Hc Hs]. apply negb_true_iff in Hc.
    cbn [last_segment]. rewrite Hc. rewrite IH by assumption.
    cbn [List.rev]. rewrite <- app_assoc. reflexivity.
Qed.

Lemma last_segment_client_key (s : pystr) :
  last_segment (client_prefix ++ s) [] = last_segment s [].
Proof. reflexivity. Qed.

Lemma state_key_not_client (s : pystr) :
  startswith client_prefix (state_prefix ++ s) = false.
Proof. reflexivity. Qed.

Lemma code_key_not_client (s : pystr) :
  startswith client_prefix (code_prefix ++ s) = false.
Proof. reflexivity. Qed.

Lemma callback_client_scan now t0 d (request : Request) :
  Redis.scan_iter now (apply_writes t0 d (callback_writes request))
    client_prefix
  = Redis.scan_iter now d client_prefix.
Proof.
  destruct request as [[[|c1 r1]|] [[|c2 r2]|] [[|c3 r3]|]];
    cbn [callback_writes realmId state code app apply_writes];
    unfold Redis.setex;
    rewrite ?scan_put_other
      by (apply state_key_not_client || apply code_key_not_client);
    reflexivity.
Qed.

Lemma binding_text_nonempty now realm rt :
  Json.dumps (binding_record now realm rt) <> [].
Proof.
  destruct (dumps_binding_nonempty now realm rt) as [c [v E]].
  rewrite E. discriminate.
Qed.

(** What [verify_token] returns when introspection does not say 401 and
    the first client key the scan yields leads to a binding that is a
    JSON object. *)
Lemma verify_token_bound now required_scopes status body tok w key keys
    (text : pystr) d :
  status <> 401%N ->
  Redis.scan_iter (seconds now) (store w) client_prefix = key :: keys ->
  Redis.get (seconds now) (store w) (client_prefix ++ last_segment key [])
  = Some text ->
  text <> [] ->
  Json.loads text = Json.Loaded (PDict d) -> d <> [] ->
  fst (verify_token now required_scopes (HttpResponse status body) tok w) =
  Returns (Some {| token := tok;
                   client_id := last_segment key [];
                   scopes := or_empty required_scopes;
                   claims := [ (py "upstream_access_token", PStr tok);
                               (py "realm_id", get_or d (py "realm_id") PNone);
                               (py "validated_at", PStr (isoformat now)) ] |}).
Proof.
  intros Hst Hscan Hget Hne Hl Hd. apply N.eqb_neq in Hst.
  unfold verify_token, get_realm_data_by_client_id,
    json_loads, attr_get, redis_scan_iter, redis_get, emit,
    http_result, try_except, bind, ret, raise, unmodelled.
  cbv beta iota. cbn [store trace]. rewrite Hst.
  cbv beta iota. cbn [store trace]. rewrite Hscan.
  cbv beta iota. cbn [store trace]. rewrite Hget.
  destruct text as [|c v]; [congruence|]. rewrite Hl.
  destruct d as [|kv d]; [congruence|].
  cbn [truthy]. unfold get_or.
  destruct (dict_get (kv :: d) (py "realm_id")) as [x|]; reflexivity.
Qed.

(** After the callback and the exchange the client key is the one live
    client key, and it holds the binding that the exchange wrote. *)
Lemma flow_binding {R S} (t0 t1 : instant) (t2 : N)
    (st tenant client : pystr) (cd : option pystr) (pc : parent_result R)
    (w0 : world) (code_store : pystr -> option CodeModel)
    (authorization_code : pystr) (r : S) :
  st <> [] -> tenant <> [] -> client <> [] ->
  kept_by_state_scan tenant ->
  (seconds t1 < seconds t0 + 600)%N ->
  no_live_key (seconds t1) (store w0) state_prefix ->
  no_live_key t2 (store w0) client_prefix ->
  let w1 := snd (_handle_idp_callback t0
                   {| realmId := Some tenant; state := Some st; code := cd |}
                   pc w0) in
  let w2 := snd (exchange_authorization_code t1 code_store (Some client)
                   authorization_code (ParentReturns r) w1) in
  Redis.scan_iter t2 (store w2) client_prefix = [client_prefix ++ client] /\
  Redis.get t2 (store w2) (client_prefix ++ client)
  = Some (Json.dumps
            (binding_record t1 (PStr tenant)
               (idp_refresh_token (code_store authorization_code)))).
Proof.
  intros Hst Hten Hcl Hkept Ht1 Hno Hnc w1 w2.
  destruct (@callback_state_entry R t0 (seconds t1) st tenant cd pc w0
              Hst Hten Ht1 Hno) as [Hscan Hget].
  fold w1 in Hscan, Hget.
  pose proof (@resolve_realm_single_state t1 _ _ w1 Hscan Hget Hkept Hten)
    as Hres.
  assert (Htr : truthy (PStr tenant) = true).
  { destruct tenant; [congruence|reflexivity]. }
  set (sk := state_prefix ++ st) in *.
  set (ck := client_prefix ++ client).
  set (text := Json.dumps
                 (binding_record t1 (PStr tenant)
                    (idp_refresh_token (code_store authorization_code)))).
  assert (Hw2 : store w2 = Redis.set (Redis.delete (store w1) sk) ck text).
  { subst w2. erewrite exchange_run; [|assumption|exact Htr|exact Hres].
    reflexivity. }
  assert (Hc1 : Redis.scan_iter t2 (store w1) client_prefix = []).
  { subst w1. rewrite callback_run. cbn [snd store].
    rewrite callback_client_scan. exact Hnc. }
  rewrite Hw2. unfold Redis.set. split.
  - apply scan_put_fresh.
    + rewrite scan_delete, Hc1. reflexivity.
    + apply startswith_app.
    + reflexivity.
  - apply get_put_same. reflexivity.
Qed.

(** X12: from the callback to the claims.  A callback carries a non-empty
    [state] and a realm id that is non-empty text which the state scan
    hands on as it stands (at most 4300 decimal digits, or text that is no
    JSON) and which UTF-8 can carry.  An exchange less than 600 seconds
    later, with no other live state key, for a client whose id is not
    empty and holds no colon, has a wrapped exchange that returns; the
    refresh token of its code record is none or text that UTF-8 can carry,
    and so is its time stamp.  Then [verify_token], at an instant with no
    other live client key, for any token and any answer of introspection
    other than 401, returns an access token for that client whose
    [realm_id] claim is the realm id of the callback. *)
Theorem callback_exchange_verify {R S} (t0 t1 t2 : instant)
    (st tenant client : pystr) (cd : option pystr) (pc : parent_result R)
    (w0 : world) (code_store : pystr -> option CodeModel)
    (authorization_code : pystr) (r : S)
    (required_scopes : list pystr) (status : N) (body tok : pystr) :
  st <> [] -> tenant <> [] -> client <> [] ->
  kept_by_state_scan tenant ->
  well_formed tenant = true ->
  well_formed (isoformat t1) = true ->
  storable_token (idp_refresh_token (code_store authorization_code)) = true ->
  colon_free client = true ->
  (seconds t1 < seconds t0 + 600)%N ->
  no_live_key (seconds t1) (store w0) state_prefix ->
  no_live_key (seconds t2) (store w0) client_prefix ->
  status <> 401%N ->
  let w1 := snd (_handle_idp_callback t0
                   {| realmId := Some tenant; state := Some st; code := cd |}
                   pc w0) in
  let w2 := snd (exchange_authorization_code t1 code_store (Some client)
                   authorization_code (ParentReturns r) w1) in
  fst (verify_token t2 required_scopes (HttpResponse status body) tok w2) =
  Returns (Some {| token := tok;
                   client_id := client;
                   scopes := or_empty required_scopes;
                   claims := [ (py "upstream_access_token", PStr tok);
                               (py "realm_id", PStr tenant);
                               (py "validated_at", PStr (isoformat t2)) ] |}).
Proof.
  intros Hst Hten Hcl Hkept Hwt Hw1 Hrt Hcf Ht1 Hno Hnc Hstatus w1 w2.
  destruct (@flow_binding R S t0 t1 (seconds t2) st tenant client cd pc w0
              code_store authorization_code r Hst Hten Hcl Hkept Ht1 Hno Hnc)
    as [Hscan Hget].
  fold w1 in Hscan, Hget. fold w2 in Hscan, Hget.
  assert (Hlast : last_segment (client_prefix ++ client) [] = client).
  { rewrite last_segment_client_key.
    apply last_segment_colon_free. assumption. }
  rewrite <- Hlast in Hget at 1.
  rewrite (@verify_token_bound t2 required_scopes status body tok w2
             (client_prefix ++ client) [] _ _ Hstatus Hscan Hget
             (@binding_text_nonempty _ _ _)
             (@loads_dumps_binding_any _ _ _ Hwt Hrt Hw1)) by discriminate.
  rewrite Hlast. reflexivity.
Qed.

Lemma callback_exchange_verify_witness :
  let w1 := snd (_handle_idp_callback callback_time
                   {| realmId := Some (py "123"); state := Some (py "s1");
                      code := None |}
                   (ParentReturns tt) empty_world) in
  let w2 := snd (exchange_authorization_code exchange_time (fun _ => None)
                   (Some (py "c1")) (py "code-1") (ParentReturns tt) w1) in
  fst (verify_token exchange_time [QBO_ACCOUNTING_SCOPE]
         (HttpResponse 200 (py "{}")) (py "tok") w2) =
  Returns (Some {| token := py "tok";
                   client_id := py "c1";
                   scopes := or_empty [QBO_ACCOUNTING_SCOPE];
                   claims := [ (py "upstream_access_token", PStr (py "tok"));
                               (py "realm_id", PStr (py "123"));
                               (py "validated_at",
                                PStr (isoformat exchange_time)) ] |}).
Proof.
  apply (@callback_exchange_verify unit unit callback_time exchange_time
           exchange_time (py "s1") (py "123") (py "c1") None
           (ParentReturns tt) empty_world (fun _ => None) (py "code-1") tt
           [QBO_ACCOUNTING_SCOPE] 200%N (py "{}") (py "tok")).
  - discriminate.
  - discriminate.
  - discriminate.
  - right. split; [reflexivity|]. unfold Json.max_int_digits. simpl. lia.
  - reflexivity.
  - reflexivity.
  - reflexivity.
  - reflexivity.
  - reflexivity.
  - reflexivity.
  - reflexivity.
  - discriminate.
Defined.

(* ===================================================================== *)
(** ** What [verify_token] does not look at *)
(* ===================================================================== *)

Lemma last_segment_app_colon (a b : pystr) : forall acc,
  last_segment (a ++ 58%N :: b) acc = last_segment b [].
Proof.
  induction a as [|c a IH]; intros acc; [reflexivity|].
  cbn [app last_segment]. destruct (N.eqb c 58); apply IH.
Qed.

Lemma get_none_of_scan_nil now d prefix k :
  Redis.scan_iter now d prefix = [] -> startswith prefix k = true ->
  Redis.get now d k = None.
Proof.
  intros Hnil Hp. unfold Redis.get.
  induction d as [|[k' e'] d IH]; [reflexivity|].
  apply scan_nil_inv in Hnil. destruct Hnil as [Hc Hnil].
  cbn [Redis.lookup]. destruct (pystr_eqb k' k) eqn:E.
  - apply pystr_eqb_eq in E. subst k'. rewrite Hp in Hc.
    cbn [andb] in Hc. rewrite Hc. reflexivity.
  - apply IH. assumption.
Qed.

(** What [verify_token] returns when introspection does not say 401 and
    the first client key the scan yields leads to no binding. *)
Lemma verify_token_unbound now required_scopes status body tok w key keys :
  status <> 401%N ->
  Redis.scan_iter (seconds now) (store w) client_prefix = key :: keys ->
  Redis.get (seconds now) (store w) (client_prefix ++ last_segment key [])
  = None ->
  fst (verify_token now required_scopes (HttpResponse status body) tok w) =
  Returns (Some {| token := tok;
                   client_id := last_segment key [];
                   scopes := or_empty required_scopes;
                   claims := [ (py "upstream_access_token", PStr tok);
                               (py "realm_id", PNone);
                               (py "validated_at", PStr (isoformat now)) ] |}).
Proof.
  intros Hst Hscan Hget. apply N.eqb_neq in Hst.
  unfold verify_token, get_realm_data_by_client_id,
    json_loads, attr_get, redis_scan_iter, redis_get, emit,
    http_result, try_except, bind, ret, raise, unmodelled.
  cbv beta iota. cbn [store trace]. rewrite Hst.
  cbv beta iota. cbn [store trace]. rewrite Hscan.
  cbv beta iota. cbn [store trace]. rewrite Hget.
  reflexivity.
Qed.

Lemma app_colon_neq (a b : pystr) : a ++ 58%N :: b <> b.
Proof.
  intros E. apply (f_equal (@List.length N)) in E.
  rewrite length_app in E. cbn [List.length] in E. lia.
Qed.

(** X13: the binding of a client whose id holds a colon is not found.
    [verify_token] takes the text after the last colon of the scanned key
    for the client id and reads the binding under that: with the binding
    of the client [a:b] the only live client key, the access token names
    the client [b] and carries a null [realm_id]. *)
Theorem verify_token_colon_client_unbound (t1 t2 : instant) (a b : pystr)
    (realm rt : PyVal) (required_scopes : list pystr) (status : N)
    (body tok : pystr) (w : world) :
  colon_free b = true ->
  no_live_key (seconds t2) (store w) client_prefix ->
  status <> 401%N ->
  let w1 := snd (store_realm_by_client_id t1 (a ++ 58%N :: b) realm rt w) in
  fst (verify_token t2 required_scopes (HttpResponse status body) tok w1) =
  Returns (Some {| token := tok;
                   client_id := b;
                   scopes := or_empty required_scopes;
                   claims := [ (py "upstream_access_token", PStr tok);
                               (py "realm_id", PNone);
                               (py "validated_at", PStr (isoformat t2)) ] |}).
Proof.
  intros Hcf Hno Hstatus w1. subst w1. rewrite store_realm_run. cbn [snd].
  set (key := client_prefix ++ a ++ 58%N :: b).
  set (text := Json.dumps (binding_record t1 realm rt)).
  assert (Hlast : last_segment key [] = b).
  { subst key. rewrite last_segment_client_key, last_segment_app_colon.
    apply last_segment_colon_free. assumption. }
  assert (Hscan : Redis.scan_iter (seconds t2) (Redis.set (store w) key text)
                    client_prefix = [key]).
  { unfold Redis.set. apply scan_put_fresh;
      [exact Hno|apply startswith_app|reflexivity]. }
  assert (Hget : Redis.get (seconds t2) (Redis.set (store w) key text)
                   (client_prefix ++ last_segment key []) = None).
  { rewrite Hlast. unfold Redis.set. rewrite get_put_other.
    - apply (@get_none_of_scan_nil _ _ client_prefix);
        [exact Hno|apply startswith_app].
    - subst key. intros E. apply app_inv_head in E. symmetry in E.
      revert E. apply app_colon_neq. }
  rewrite (@verify_token_unbound t2 required_scopes status body tok
             {| store := Redis.set (store w) key text;
                trace := trace w ++ [SET key text] |} key []
             Hstatus Hscan Hget).
  rewrite Hlast. reflexivity.
Qed.

Lemma verify_token_colon_client_unbound_witness :
  let w1 := snd (store_realm_by_client_id callback_time
                   (py "https://app.example/c1") (PStr (py "123")) PNone
                   empty_world) in
  fst (verify_token exchange_time [] (HttpResponse 200 (py "{}")) (py "tok")
         w1) =
  Returns (Some {| token := py "tok";
                   client_id := py "//app.example/c1";
                   scopes := or_empty [];
                   claims := [ (py "upstream_access_token", PStr (py "tok"));
                               (py "realm_id", PNone);
                               (py "validated_at",
                                PStr (isoformat exchange_time)) ] |}).
Proof.
  apply (@verify_token_colon_client_unbound callback_time exchange_time
           (py "https") (py "//app.example/c1") (PStr (py "123")) PNone []
           200%N (py "{}") (py "tok") empty_world).
  - reflexivity.
  - reflexivity.
  - discriminate.
Defined.

(** X14: of the answer of introspection, [verify_token] looks at nothing
    but whether the status is 401: any two responses with other statuses
    (200, 403, 500, ...) and any bodies give the same result and the same
    trace. *)
Theorem verify_token_status_blind
    (now : instant) (required_scopes : list pystr) (s1 s2 : N)
    (b1 b2 tok : pystr) (w : world) :
  s1 <> 401%N -> s2 <> 401%N ->
  verify_token now required_scopes (HttpResponse s1 b1) tok w =
  verify_token now required_scopes (HttpResponse s2 b2) tok w.
Proof.
  intros H1 H2. apply N.eqb_neq in H1. apply N.eqb_neq in H2.
  unfold verify_token, try_except, bind, emit, http_result, ret.
  cbv beta iota. rewrite H1, H2. reflexivity.
Qed.

Lemma verify_token_status_blind_witness :
  verify_token exchange_time [] (HttpResponse 200 (py "{}")) (py "tok")
    empty_world =
  verify_token exchange_time [] (HttpResponse 500 (py "oops")) (py "tok")
    empty_world.
Proof.
  apply (@verify_token_status_blind exchange_time [] 200%N 500%N
           (py "{}") (py "oops") (py "tok") empty_world).
  - discriminate.
  - discriminate.
Defined.

(** X15: the client id and the [realm_id] claim that [verify_token] gives
    do not depend on the token presented: two tokens verified at the same
    instant against the same database and the same answer of
    introspection get the same client id and realm id. *)
Theorem verify_token_identity_ignores_token
    (now : instant) (required_scopes : list pystr) (upstream : http_outcome)
    (tok1 tok2 : pystr) (w : world) :
  identity_of (fst (verify_token now required_scopes upstream tok1 w)) =
  identity_of (fst (verify_token now required_scopes upstream tok2 w)).
Proof.
  destruct upstream as [status_code body| |]; [|reflexivity|reflexivity].
  unfold verify_token, get_realm_data_by_client_id,
    json_loads, attr_get, redis_scan_iter, redis_get, emit,
    http_result, try_except, bind, ret, raise, unmodelled.
  cbv beta iota. cbn [store trace].
  destruct (N.eqb status_code 401); [reflexivity|].
  cbv beta iota. cbn [store trace].
  destruct (Redis.scan_iter (seconds now) (store w) client_prefix)
    as [|key keys]; [reflexivity|].
  cbv beta iota. cbn [store trace].
  destruct (Redis.get (seconds now) (store w)
              (client_prefix ++ last_segment key [])) as [[|c v]|];
    [reflexivity| |reflexivity].
  destruct (Json.loads (c :: v)) as [rv| |]; [|reflexivity|reflexivity].
  destruct rv as [|b|z|s|l|d]; try (destruct (truthy _); reflexivity).
  destruct (truthy (PDict d));
    [destruct (dict_get d (py "realm_id")) as [x|]|]; reflexivity.
Qed.

(* ===================================================================== *)
(** ** From the claims to a client *)
(* ===================================================================== *)

(** X16: a token let through on a timeout gets no client.  The access
    token that [verify_token] returns when introspection times out makes
    [_get_qbo_client] raise a [ValidationError]: [missing_realm_id], or
    [missing_upstream_token] when the token is the empty text.  So the
    fail-open path authenticates the request but no tool can reach
    QuickBooks with it. *)
Theorem timeout_token_gets_no_client
    (now : instant) (required_scopes : list pystr) (tok : pystr) (w : world)
    (env : Client.environ) (idempotency_store : bool) :
  exists a e,
    fst (verify_token now required_scopes HttpTimeout tok w)
    = Returns (Some a) /\
    Tools._get_qbo_client env (Some a) idempotency_store = inl e /\
    Errors.code e = py "VALIDATION_ERROR" /\
    dict_get (Errors.details e) (py "error")
    = Some (PStr match tok with
                 | [] => py "missing_upstream_token"
                 | _ => py "missing_realm_id"
                 end).
Proof.
  destruct tok as [|c t]; eexists; eexists; repeat split; reflexivity.
Qed.

(** X17: with no live client key in the database no request gets a
    client: whatever introspection answers, [verify_token] returns, and
    [_get_qbo_client] raises a [ValidationError] on what it returned. *)
Theorem unbound_request_gets_no_client
    (now : instant) (required_scopes : list pystr) (upstream : http_outcome)
    (tok : pystr) (w : world) (env : Client.environ)
    (idempotency_store : bool) :
  no_live_key (seconds now) (store w) client_prefix ->
  exists token e,
    fst (verify_token now required_scopes upstream tok w) = Returns token /\
    Tools._get_qbo_client env token idempotency_store = inl e /\
    Errors.code e = py "VALIDATION_ERROR".
Proof.
  unfold no_live_key. intros Hno.
  destruct upstream as [status_code body| |].
  - unfold verify_token, redis_scan_iter, emit, http_result, try_except,
      bind, ret.
    cbv beta iota. cbn [store trace].
    destruct (N.eqb status_code 401).
    + eexists. eexists. repeat split; reflexivity.
    + cbv beta iota. cbn [store trace]. rewrite Hno.
      destruct tok as [|c t]; eexists; eexists; repeat split; reflexivity.
  - destruct tok as [|c t]; eexists; eexists; repeat split; reflexivity.
  - eexists. eexists. repeat split; reflexivity.
Qed.

Lemma unbound_request_gets_no_client_witness :
  exists token e,
    fst (verify_token exchange_time [] (HttpResponse 200 (py "{}"))
           (py "tok") empty_world) = Returns token /\
    Tools._get_qbo_client (fun _ => None) token true = inl e /\
    Errors.code e = py "VALIDATION_ERROR".
Proof.
  apply (@unbound_request_gets_no_client exchange_time []
           (HttpResponse 200 (py "{}")) (py "tok") empty_world
           (fun _ => None) true).
  reflexivity.
Defined.

(** X18: what a client is built from.  When [_get_qbo_client] returns a
    client there was an access token; the realm id and the access token of
    the client are the [realm_id] and [upstream_access_token] claims, both
    true; the client id and secret are true and come from the environment
    ([QBO_CLIENT_ID] before [CLIENT_ID], an empty value counting as unset);
    there is no refresh token; and the idempotency callbacks are there
    exactly when a store was passed. *)
Theorem client_built_from_claims
    (env : Client.environ) (token : option AccessToken)
    (idempotency_store : bool) (c : Client.QBOClient) :
  Tools._get_qbo_client env token idempotency_store = inr c ->
  exists a,
    token = Some a /\
    dict_get (claims a) (py "realm_id") = Some (Client.realm_id c) /\
    truthy (Client.realm_id c) = true /\
    dict_get (claims a) (py "upstream_access_token")
    = Some (Client._access_token c) /\
    truthy (Client._access_token c) = true /\
    Client.client_id c
    = Client.py_or (Client.getenv env (py "QBO_CLIENT_ID"))
        (Client.getenv env (py "CLIENT_ID")) /\
    truthy (Client.client_id c) = true /\
    Client.client_secret c
    = Client.py_or (Client.getenv env (py "QBO_CLIENT_SECRET"))
        (Client.getenv env (py "CLIENT_SECRET")) /\
    truthy (Client.client_secret c) = true /\
    Client.refresh_token c = PNone /\
    Client._idempotency_checker c = idempotency_store /\
    Client._idempotency_storer c = idempotency_store.
Proof.
  intros H. destruct token as [a|]; [|discriminate H].
  exists a. split; [reflexivity|].
  unfold Tools._get_qbo_client in H.
  destruct (dict_get (claims a) (py "upstream_access_token")) as [up|];
    [|discriminate H].
  destruct (truthy up) eqn:Eup; [|discriminate H].
  destruct (dict_get (claims a) (py "realm_id")) as [realm|];
    [|discriminate H].
  destruct (truthy realm) eqn:Erealm; [|discriminate H].
  cbn [negb] in H.
  unfold Client.create_qbo_client, Client.__init__, Client._validate_config,
    Client.missing_config in H.
  cbn [Client.client_id Client.client_secret Client.realm_id
       Client._access_token] in H.
  rewrite Eup, Erealm in H.
  change (Client.py_or PNone (Client.getenv env (py "QBO_CLIENT_ID")))
    with (Client.getenv env (py "QBO_CLIENT_ID")) in H.
  change (Client.py_or PNone (Client.getenv env (py "QBO_CLIENT_SECRET")))
    with (Client.getenv env (py "QBO_CLIENT_SECRET")) in H.
  destruct (truthy (Client.py_or (Client.getenv env (py "QBO_CLIENT_ID"))
                      (Client.getenv env (py "CLIENT_ID")))) eqn:Eid;
    [|destruct (truthy (Client.py_or
                          (Client.getenv env (py "QBO_CLIENT_SECRET"))
                          (Client.getenv env (py "CLIENT_SECRET"))));
      discriminate H].
  destruct (truthy (Client.py_or (Client.getenv env (py "QBO_CLIENT_SECRET"))
                      (Client.getenv env (py "CLIENT_SECRET")))) eqn:Esec;
    [|discriminate H].
  cbn [app] in H. inversion H; subst c; clear H.
  cbn [Client.client_id Client.client_secret Client.realm_id
       Client._access_token Client.refresh_token
       Client._idempotency_checker Client._idempotency_storer].
  repeat split; assumption || reflexivity.
Qed.

Lemma client_built_from_claims_witness :
  let c := {| Client.client_id := PStr (py "app-id");
              Client.client_secret := PStr (py "app-secret");
              Client.realm_id := PStr (py "123");
              Client.refresh_token := PNone;
              Client._access_token := PStr (py "tok");
              Client.environment := PStr (py "sandbox");
              Client._idempotency_checker := true;
              Client._idempotency_storer := true |} in
  Tools._get_qbo_client example_env (Some example_token) true = inr c /\
  exists a,
    Some example_token = Some a /\
    dict_get (claims a) (py "realm_id") = Some (Client.realm_id c) /\
    truthy (Client.realm_id c) = true /\
    dict_get (claims a) (py "upstream_access_token")
    = Some (Client._access_token c) /\
    truthy (Client._access_token c) = true /\
    Client.client_id c
    = Client.py_or (Client.getenv example_env (py "QBO_CLIENT_ID"))
        (Client.getenv example_env (py "CLIENT_ID")) /\
    truthy (Client.client_id c) = true /\
    Client.client_secret c
    = Client.py_or (Client.getenv example_env (py "QBO_CLIENT_SECRET"))
        (Client.getenv example_env (py "CLIENT_SECRET")) /\
    truthy (Client.client_secret c) = true /\
    Client.refresh_token c = PNone /\
    Client._idempotency_checker c = true /\
    Client._idempotency_storer c = true.
Proof.
  intros c. split; [reflexivity|].
  apply (@client_built_from_claims example_env (Some example_token) true c).
  reflexivity.
Defined.

(** X19: from the callback to the client.  A callback carries a non-empty
    [state] and a realm id that is non-empty text which the state scan
    hands on as it stands (at most 4300 decimal digits, or text that is no
    JSON) and which UTF-8 can carry.  An exchange less than 600 seconds
    later, with no other live state key, for a client whose id is not
    empty and holds no colon, has a wrapped exchange that returns; the
    refresh token of its code record is none or text that UTF-8 can carry,
    and so is its time stamp.  Then a request with a non-empty token, at
    an instant with no other live client key and with an answer of
    introspection other than 401, is verified, and [_get_qbo_client] gets
    it a client whose realm id is the realm id of the callback and whose
    access token is the token of the request, when the environment holds a
    non-empty [QBO_CLIENT_ID] and [QBO_CLIENT_SECRET]; the client carries
    those two as its id and secret. *)
Theorem callback_exchange_client {R S} (t0 t1 t2 : instant)
    (st tenant client : pystr) (cd : option pystr) (pc : parent_result R)
    (w0 : world) (code_store : pystr -> option CodeModel)
    (authorization_code : pystr) (r : S)
    (required_scopes : list pystr) (status : N) (body tok : pystr)
    (env : Client.environ) (app_id app_secret : pystr)
    (idempotency_store : bool) :
  st <> [] -> tenant <> [] -> client <> [] ->
  kept_by_state_scan tenant ->
  well_formed tenant = true ->
  well_formed (isoformat t1) = true ->
  storable_token (idp_refresh_token (code_store authorization_code)) = true ->
  colon_free client = true ->
  (seconds t1 < seconds t0 + 600)%N ->
  no_live_key (seconds t1) (store w0) state_prefix ->
  no_live_key (seconds t2) (store w0) client_prefix ->
  status <> 401%N ->
  tok <> [] ->
  env (py "QBO_CLIENT_ID") = Some app_id -> app_id <> [] ->
  env (py "QBO_CLIENT_SECRET") = Some app_secret -> app_secret <> [] ->
  let w1 := snd (_handle_idp_callback t0
                   {| realmId := Some tenant; state := Some st; code := cd |}
                   pc w0) in
  let w2 := snd (exchange_authorization_code t1 code_store (Some client)
                   authorization_code (ParentReturns r) w1) in
  exists a c,
    fst (verify_token t2 required_scopes (HttpResponse status body) tok w2)
    = Returns (Some a) /\
    Tools._get_qbo_client env (Some a) idempotency_store = inr c /\
    Client.realm_id c = PStr tenant /\
    Client._access_token c = PStr tok /\
    Client.client_id c = PStr app_id /\
    Client.client_secret c = PStr app_secret.
Proof.
  intros Hst Hten Hcl Hkept Hwt Hw1 Hrt Hcf Ht1 Hno Hnc Hstatus
    Htok Hid Hidne Hsec Hsecne w1 w2.
  destruct (@flow_binding R S t0 t1 (seconds t2) st tenant client cd pc w0
              code_store authorization_code r Hst Hten Hcl Hkept Ht1 Hno Hnc)
    as [Hscan Hget].
  fold w1 in Hscan, Hget. fold w2 in Hscan, Hget.
  assert (Hlast : last_segment (client_prefix ++ client) [] = client).
  { rewrite last_segment_client_key.
    apply last_segment_colon_free. assumption. }
  rewrite <- Hlast in Hget at 1.
  rewrite (@verify_token_bound t2 required_scopes status body tok w2
             (client_prefix ++ client) [] _ _ Hstatus Hscan Hget
             (@binding_text_nonempty _ _ _)
             (@loads_dumps_binding_any _ _ _ Hwt Hrt Hw1)) by discriminate.
  eexists. eexists. split; [reflexivity|].
  - unfold Tools._get_qbo_client, Client.create_qbo_client, Client.__init__,
      Client._validate_config, Client.missing_config, Client.py_or,
      Client.getenv.
    cbn [claims dict_get].
    destruct tok as [|x tok]; [congruence|].
    destruct tenant as [|y tenant]; [congruence|].
    destruct app_id as [|i app_id]; [congruence|].
    destruct app_secret as [|s app_secret]; [congruence|].
    vm_compute dict_get.
    cbn [truthy negb Client.client_id Client.client_secret Client.realm_id
         Client._access_token].
    rewrite Hid, Hsec.
    cbn [truthy negb app Client.client_id Client.client_secret
         Client.realm_id Client._access_token].
    repeat split; reflexivity.
Qed.

Lemma callback_exchange_client_witness :
  let w1 := snd (_handle_idp_callback callback_time
                   {| realmId := Some (py "123"); state := Some (py "s1");
                      code := None |}
                   (ParentReturns tt) empty_world) in
  let w2 := snd (exchange_authorization_code exchange_time (fun _ => None)
                   (Some (py "c1")) (py "code-1") (ParentReturns tt) w1) in
  exists a c,
    fst (verify_token exchange_time [QBO_ACCOUNTING_SCOPE]
           (HttpResponse 200 (py "{}")) (py "tok") w2)
    = Returns (Some a) /\
    Tools._get_qbo_client example_env (Some a) true = inr c /\
    Client.realm_id c = PStr (py "123") /\
    Client._access_token c = PStr (py "tok") /\
    Client.client_id c = PStr (py "app-id") /\
    Client.client_secret c = PStr (py "app-secret").
Proof.
  apply (@callback_exchange_client unit unit callback_time exchange_time
           exchange_time (py "s1") (py "123") (py "c1") None
           (ParentReturns tt) empty_world (fun _ => None) (py "code-1") tt
           [QBO_ACCOUNTING_SCOPE] 200%N (py "{}") (py "tok")
           example_env (py "app-id") (py "app-secret") true).
  - discriminate.
  - discriminate.
  - discriminate.
  - right. split; [reflexivity|]. unfold Json.max_int_digits. simpl. lia.
  - reflexivity.
  - reflexivity.
  - reflexivity.
  - reflexivity.
  - reflexivity.
  - reflexivity.
  - reflexivity.
  - discriminate.
  - discriminate.
  - reflexivity.
  - discriminate.
  - reflexivity.
  - discriminate.
Defined.

(* ===================================================================== *)
(** ** [storage.py]: the idempotency records *)
(* ===================================================================== *)

Lemma idempotency_store_run now key expense_id ttl_days w :
  (0 < IdempotencyStore.ttl_seconds ttl_days)%Z ->
  IdempotencyStore.store now key expense_id ttl_days w =
  (Returns tt,
   {| store :=
        Redis.setex (seconds now) (store w) (IdempotencyStore._key key)
          (Z.to_N (IdempotencyStore.ttl_seconds ttl_days))
          (Json.dumps (PDict [ (py "expense_id", PStr expense_id);
                               (py "created_at", PStr (isoformat now)) ]));
      trace :=
        trace w ++
        [SETEX (IdempotencyStore._key key)
           (Z.to_N (IdempotencyStore.ttl_seconds ttl_days))
           (Json.dumps (PDict [ (py "expense_id", PStr expense_id);
                                (py "created_at", PStr (isoformat now)) ]))]
   |}).
Proof.
  intros H. apply Z.ltb_lt in H. unfold IdempotencyStore.store.
  rewrite H. reflexivity.
Qed.

Lemma loads_dumps_idempotency now expense_id :
  well_formed expense_id = true -> well_formed (isoformat now) = true ->
  Json.loads (Json.dumps (PDict [ (py "expense_id", PStr expense_id);
                                  (py "created_at", PStr (isoformat now)) ]))
  = Json.Loaded (PDict [ (py "expense_id", PStr expense_id);
                         (py "created_at", PStr (isoformat now)) ]).
Proof.
  intros He Hn.
  change (Json.dumps (PDict [ (py "expense_id", PStr expense_id);
                              (py "created_at", PStr (isoformat now)) ]))
    with (123%N :: members_text [ (py "expense_id", expense_id);
                                  (py "created_at", isoformat now) ]
                   ++ [125%N]).
  rewrite loads_string_record.
  - reflexivity.
  - discriminate.
  - cbn [fields_ok forallb fst snd]. rewrite He, Hn. reflexivity.
Qed.

(** X20: an idempotency record is found again until it expires.  After
    [store] for a key with an expense id, [check] for that key returns the
    expense id up to and including the last second of the time to live,
    and [None] once more than that has passed, whatever the key held
    before.  The time to live is [days] times 86400 seconds, where [days]
    is [ttl_days] when that is a positive number, and 30 when [ttl_days]
    is [None] or 0.  The expense id and the time stamp are text as UTF-8
    can carry it. *)
Theorem idempotency_round_trip (t0 t1 : instant) (key expense_id : pystr)
    (ttl_days : option Z) (days : Z) (w : world) :
  well_formed expense_id = true -> well_formed (isoformat t0) = true ->
  (ttl_days = Some days /\ (0 < days)%Z) \/
  ((ttl_days = None \/ ttl_days = Some 0%Z) /\ days = 30%Z) ->
  fst (IdempotencyStore.check t1 key
         (snd (IdempotencyStore.store t0 key expense_id ttl_days w)))
  = Returns
      (if (seconds t1 <=? seconds t0 + Z.to_N (days * 86400))%N
       then PStr expense_id else PNone).
Proof.
  intros He Hn Hdays.
  assert (Httl : IdempotencyStore.ttl_seconds ttl_days = (days * 86400)%Z
                 /\ (0 < days * 86400)%Z).
  { destruct Hdays as [[-> Hpos]|[[->| ->] ->]].
    - unfold IdempotencyStore.ttl_seconds.
      destruct (Z.eqb_spec days 0); [lia|]. split; [reflexivity|lia].
    - split; reflexivity.
    - split; reflexivity. }
  destruct Httl as [Httl Hpos].
  rewrite idempotency_store_run by (rewrite Httl; assumption).
  rewrite Httl.
  cbn [snd]. unfold IdempotencyStore.check, bind, redis_get.
  cbn [store trace]. unfold Redis.setex, Redis.get.
  rewrite lookup_put_same. unfold Redis.live. cbn [Redis.expires_at].
  destruct (seconds t1 <=? seconds t0 + Z.to_N (days * 86400))%N;
    [|reflexivity].
  cbn [Redis.value].
  set (text := Json.dumps (PDict [ (py "expense_id", PStr expense_id);
                                   (py "created_at", PStr (isoformat t0)) ])).
  assert (Hl : Json.loads text
               = Json.Loaded (PDict [ (py "expense_id", PStr expense_id);
                                      (py "created_at",
                                       PStr (isoformat t0)) ]))
    by (apply loads_dumps_idempotency; assumption).
  assert (Hne : exists c v, text = c :: v)
    by (eexists; eexists; reflexivity).
  destruct Hne as [c [v E]]. rewrite E. rewrite <- E.
  unfold try_except, bind, json_loads. rewrite Hl. reflexivity.
Qed.

Lemma idempotency_round_trip_witness :
  let month_later :=
    {| seconds := 1000 + 2592000; isoformat := py "2024-01-31T00:16:40" |} in
  fst (IdempotencyStore.check month_later (py "k1")
         (snd (IdempotencyStore.store callback_time (py "k1") (py "E-7")
                 (Some 0%Z) empty_world)))
  = Returns (PStr (py "E-7")).
Proof.
  intros month_later.
  apply (@idempotency_round_trip callback_time month_later (py "k1")
           (py "E-7") (Some 0%Z) 30%Z empty_world).
  - reflexivity.
  - reflexivity.
  - right. split; [right; reflexivity|reflexivity].
Defined.

(** X21: a record that is JSON but no object is not treated as missing.
    [check] catches the decoding error of a text that is no JSON and
    returns [None]; for a live, non-empty record that decodes to anything
    but an object (a list, a number, a text, [null]) the error of
    [parsed.get] goes on to the caller. *)
Theorem idempotency_check_non_object_raises (now : instant)
    (key text : pystr) (v : PyVal) (w : world) :
  Redis.get (seconds now) (store w) (IdempotencyStore._key key) = Some text ->
  text <> [] ->
  Json.loads text = Json.Loaded v ->
  (forall d, v <> PDict d) ->
  fst (IdempotencyStore.check now key w) = Raises AttributeError.
Proof.
  intros Hget Hne Hl Hv. unfold IdempotencyStore.check, bind, redis_get.
  cbn [store trace]. rewrite Hget. destruct text as [|c t]; [congruence|].
  unfold try_except, bind, json_loads. rewrite Hl.
  destruct v as [|b|z|s|l|d]; try reflexivity.
  exfalso. apply (Hv d). reflexivity.
Qed.

Lemma idempotency_check_non_object_raises_witness :
  fst (IdempotencyStore.check exchange_time (py "k1")
         {| store := Redis.set [] (IdempotencyStore._key (py "k1"))
                       (py "[1, 2]");
            trace := [] |})
  = Raises AttributeError.
Proof.
  apply (@idempotency_check_non_object_raises exchange_time (py "k1")
           (py "[1, 2]") (PList [PInt 1; PInt 2])
           {| store := Redis.set [] (IdempotencyStore._key (py "k1"))
                         (py "[1, 2]");
              trace := [] |}).
  - reflexivity.
  - discriminate.
  - vm_compute. reflexivity.
  - intros d. discriminate.
Defined.

Lemma idempotency_key_not_state (i : pystr) :
  startswith state_prefix (IdempotencyStore._key i) = false.
Proof. reflexivity. Qed.

Lemma idempotency_key_not_code (i : pystr) :
  startswith code_prefix (IdempotencyStore._key i) = false.
Proof. reflexivity. Qed.

Lemma idempotency_key_not_client (i : pystr) :
  startswith client_prefix (IdempotencyStore._key i) = false.
Proof. reflexivity. Qed.

(** [check] reads the database at its own key only. *)
Lemma idempotency_check_reads now key (w1 w2 : world) :
  Redis.lookup (store w1) (IdempotencyStore._key key)
  = Redis.lookup (store w2) (IdempotencyStore._key key) ->
  fst (IdempotencyStore.check now key w1)
  = fst (IdempotencyStore.check now key w2).
Proof.
  intros H. unfold IdempotencyStore.check, bind, redis_get.
  cbn [store trace]. unfold Redis.get. rewrite H.
  destruct (Redis.lookup (store w2) (IdempotencyStore._key key)) as [e|];
    [|reflexivity].
  destruct (Redis.live (seconds now) e); [|reflexivity].
  destruct (Redis.value e) as [|c v]; [reflexivity|].
  unfold try_except, bind, json_loads, attr_get, ret, raise, unmodelled.
  destruct (Json.loads (c :: v)) as [rv| |]; [|reflexivity|reflexivity].
  destruct rv as [|b|z|s|l|d]; try reflexivity.
  destruct (dict_get d (py "expense_id")); reflexivity.
Qed.

(** X22: the OAuth flow does not disturb the idempotency records: what
    [check] returns for any key is the same after a callback and after an
    exchange as before, whatever they carried and however they ended. *)
Theorem oauth_flow_keeps_idempotency_records {R S} (now t : instant)
    (key : pystr) (w : world) :
  (forall (request : Request) (parent : parent_result R),
     fst (IdempotencyStore.check t key
            (snd (_handle_idp_callback now request parent w)))
     = fst (IdempotencyStore.check t key w)) /\
  (forall (code_store : pystr -> option CodeModel)
          (client_id : option pystr) (authorization_code : pystr)
          (parent : parent_result S),
     fst (IdempotencyStore.check t key
            (snd (exchange_authorization_code now code_store client_id
                    authorization_code parent w)))
     = fst (IdempotencyStore.check t key w)).
Proof.
  split; intros; apply idempotency_check_reads.
  - rewrite callback_run. cbn [snd store]. apply callback_writes_frame;
      [apply idempotency_key_not_state|apply idempotency_key_not_code].
  - rewrite exchange_after_resolve
      by (intros c _; apply prefixed_neq; apply idempotency_key_not_client).
    apply resolve_realm_frame;
      [apply idempotency_key_not_state|apply idempotency_key_not_code].
Qed.

(** [verify_token] reads the database through the scan of the client keys
    and the texts under client keys only. *)
Lemma verify_token_reads now required_scopes upstream tok (w1 w2 : world) :
  Redis.scan_iter (seconds now) (store w1) client_prefix
  = Redis.scan_iter (seconds now) (store w2) client_prefix ->
  (forall c, Redis.get (seconds now) (store w1) (client_prefix ++ c)
             = Redis.get (seconds now) (store w2) (client_prefix ++ c)) ->
  fst (verify_token now required_scopes upstream tok w1)
  = fst (verify_token now required_scopes upstream tok w2).
Proof.
  intros Hscan Hget.
  destruct upstream as [status_code body| |]; [|reflexivity|reflexivity].
  unfold verify_token, get_realm_data_by_client_id,
    json_loads, attr_get, redis_scan_iter, redis_get, emit,
    http_result, try_except, bind, ret, raise, unmodelled.
  cbv beta iota. cbn [store trace].
  destruct (N.eqb status_code 401); [reflexivity|].
  cbv beta iota. cbn [store trace]. rewrite Hscan.
  destruct (Redis.scan_iter (seconds now) (store w2) client_prefix)
    as [|key keys]; [reflexivity|].
  cbv beta iota. cbn [store trace]. rewrite Hget.
  destruct (Redis.get (seconds now) (store w2)
              (client_prefix ++ last_segment key [])) as [[|c v]|];
    [reflexivity| |reflexivity].
  destruct (Json.loads (c :: v)) as [rv| |]; [|reflexivity|reflexivity].
  destruct rv as [|b|z|s|l|d]; try (destruct (truthy _); reflexivity).
  destruct (truthy (PDict d));
    [destruct (dict_get d (py "realm_id")) as [x|]|]; reflexivity.
Qed.

(** X23: the idempotency records do not disturb verification: storing a
    record, under any key and with any time to live, leaves the result of
    [verify_token] as it was. *)
Theorem idempotency_store_keeps_verification (t0 now : instant)
    (key expense_id : pystr) (ttl_days : option Z)
    (required_scopes : list pystr) (upstream : http_outcome) (tok : pystr)
    (w : world) :
  fst (verify_token now required_scopes upstream tok
         (snd (IdempotencyStore.store t0 key expense_id ttl_days w)))
  = fst (verify_token now required_scopes upstream tok w).
Proof.
  unfold IdempotencyStore.store.
  destruct (Z.ltb 0 (IdempotencyStore.ttl_seconds ttl_days));
    [|reflexivity].
  apply verify_token_reads; unfold redis_setex; cbn [snd store];
    unfold Redis.setex.
  - apply scan_put_other. apply idempotency_key_not_client.
  - intros c. apply get_put_other. intros E. symmetry in E. revert E.
    apply prefixed_neq. apply idempotency_key_not_client.
Qed.

(* ===================================================================== *)
(** ** Several pending flows *)
(* ===================================================================== *)



